(** * Lumen: the wallet evaluation pipeline

    A shallow embedding of [scrapers/gmgn.py], [scrapers/bullx.py] and
    [multi-coin-processor.py], and the properties of the pipeline that
    the design document states about them; then, of [token-manager.py]
    and of the removal route of [web-app.py], which write the tokens
    file and the store that the pipeline reads, and further properties
    of the code.

    Conventions.
    - Values decoded from JSON are [pyval]; the dynamic checks Python
      performs on them (attribute lookup, arithmetic, comparison,
      membership) are written out and raise the exception Python raises.
    - A Python [float] is an exact rational ([Q]); NaN and infinities
      are outside the model.
    - [str] is a Rocq [string]; [str.lower] and [str.split] act on the
      ASCII range.
    - A call that is awaited has an [outcome]: it returns, raises, or
      has not finished within the modelled number of attempts ([Spin]).
    - [load_tokens] is given the lines of the tokens file; where the
      file is written it is the string of its content, read by lines as
      Python's text mode reads it.
    - The readings of [time.time()] are rationals given to the model.
*)

From Stdlib Require Import ZArith QArith Qabs Qround String Ascii List Bool Lia Lqa.
From stdpp Require Import base option list strings pretty gmap.
Import ListNotations.

Set Warnings "-register-all".
Local Open Scope string_scope.
Local Open Scope Z_scope.

(** ** Exceptions and outcomes *)

(** [exn_status] is [e.response.status_code] for the exceptions that
    carry a response (httpx.HTTPStatusError); [exn_msg] is [str(e)]. *)
Record exn := Exn {
  exn_class  : string;
  exn_msg    : string;
  exn_status : option Z
}.

Definition mk_exn (cls msg : string) : exn := Exn cls msg None.

(** [isinstance(e, (json.JSONDecodeError, ValueError))]: an exception
    of a subclass of ValueError is given the class [ValueError]. *)
Definition is_value_error (e : exn) : bool :=
  String.eqb (exn_class e) "ValueError" || String.eqb (exn_class e) "JSONDecodeError".

Inductive outcome (A : Type) : Type :=
| Ret   (a : A)
| Raise (e : exn)
| Spin.
Arguments Ret {A} a.
Arguments Raise {A} e.
Arguments Spin {A}.

Definition obind {A B} (m : outcome A) (k : A -> outcome B) : outcome B :=
  match m with
  | Ret a   => k a
  | Raise e => Raise e
  | Spin    => Spin
  end.

Notation "'do' x <- m ; k" := (obind m (fun x => k))
  (at level 10, x name, m at level 100, k at level 200,
   format "'[v' 'do'  x  <-  m ; '/' k ']'").

Fixpoint omapM {A B} (f : A -> outcome B) (l : list A) : outcome (list B) :=
  match l with
  | [] => Ret []
  | a :: l' => do b <- f a; do bs <- omapM f l'; Ret (b :: bs)
  end.

(** ** Python values *)

Inductive pyval : Type :=
| PNone
| PBool  (b : bool)
| PInt   (z : Z)
| PFloat (q : Q)
| PStr   (s : string)
| PList  (l : list pyval)
| PDict  (d : list (string * pyval)).

Definition type_name (v : pyval) : string :=
  match v with
  | PNone    => "NoneType"
  | PBool _  => "bool"
  | PInt _   => "int"
  | PFloat _ => "float"
  | PStr _   => "str"
  | PList _  => "list"
  | PDict _  => "dict"
  end.

Definition Qzero_b (q : Q) : bool := Qeq_bool q 0.

(** [bool(v)], as used by [if not data] and [if addr]. *)
Definition truthy (v : pyval) : bool :=
  match v with
  | PNone    => false
  | PBool b  => b
  | PInt z   => negb (z =? 0)
  | PFloat q => negb (Qzero_b q)
  | PStr s   => negb (String.eqb s "")
  | PList l  => match l with [] => false | _ => true end
  | PDict d  => match d with [] => false | _ => true end
  end.

(** A dict with string keys, in insertion order. *)
Definition dict : Type := list (string * pyval).

Fixpoint assoc (k : string) (d : dict) : option pyval :=
  match d with
  | [] => None
  | (k', v) :: d' => if String.eqb k k' then Some v else assoc k d'
  end.

(** [d.get(k, dflt)] on a dict. *)
Definition dict_get (d : dict) (k : string) (dflt : pyval) : pyval :=
  match assoc k d with Some v => v | None => dflt end.

(** [d[k] = v]: in place when the key is there, appended otherwise. *)
Fixpoint dict_set (k : string) (v : pyval) (d : dict) : dict :=
  match d with
  | [] => [(k, v)]
  | (k', v') :: d' =>
      if String.eqb k k' then (k, v) :: d' else (k', v') :: dict_set k v d'
  end.

(** [d.update(kvs)]. *)
Definition dict_update (d kvs : dict) : dict :=
  fold_left (fun acc kv => dict_set (fst kv) (snd kv) acc) kvs d.

(** [v.get(k, dflt)]: only a dict has the attribute. *)
Definition py_get (v : pyval) (k : string) (dflt : pyval) : outcome pyval :=
  match v with
  | PDict d => Ret (dict_get d k dflt)
  | _ => Raise (mk_exn "AttributeError"
                 ("'" ++ type_name v ++ "' object has no attribute 'get'"))
  end.

(** The numeric value of a bool, int or float. *)
Definition py_num (v : pyval) : option Q :=
  match v with
  | PBool b  => Some (if b then 1%Q else 0%Q)
  | PInt z   => Some (inject_Z z)
  | PFloat q => Some q
  | _ => None
  end.

Definition py_int (v : pyval) : option Z :=
  match v with
  | PBool b => Some (if b then 1 else 0)
  | PInt z  => Some z
  | _ => None
  end.

Definition unsupported (op : string) (a b : pyval) : exn :=
  mk_exn "TypeError"
    ("unsupported operand type(s) for " ++ op ++ ": '" ++ type_name a
       ++ "' and '" ++ type_name b ++ "'").

Definition concat_error (a b : pyval) : exn :=
  mk_exn "TypeError"
    ("can only concatenate " ++ type_name a ++ " (not " ++
       String (ascii_of_nat 34) (type_name b ++ String (ascii_of_nat 34)
       (") to " ++ type_name a))).

(** [a + b]. *)
Definition py_add (a b : pyval) : outcome pyval :=
  match a, b with
  | PStr s, PStr t => Ret (PStr (s ++ t))
  | PStr _, _ => Raise (concat_error a b)
  | PList l, PList m => Ret (PList (l ++ m))
  | PList _, _ => Raise (concat_error a b)
  | _, _ =>
    match py_int a, py_int b with
    | Some x, Some y => Ret (PInt (x + y))
    | _, _ =>
      match py_num a, py_num b with
      | Some x, Some y => Ret (PFloat (x + y))
      | _, _ => Raise (unsupported "+" a b)
      end
    end
  end.

(** [a - b]. *)
Definition py_sub (a b : pyval) : outcome pyval :=
  match py_int a, py_int b with
  | Some x, Some y => Ret (PInt (x - y))
  | _, _ =>
    match py_num a, py_num b with
    | Some x, Some y => Ret (PFloat (x - y))
    | _, _ => Raise (unsupported "-" a b)
    end
  end.

Definition not_supported (op : string) (a : pyval) (rhs : string) : exn :=
  mk_exn "TypeError"
    ("'" ++ op ++ "' not supported between instances of '" ++ type_name a
       ++ "' and '" ++ rhs ++ "'").

(** [v <= q] and [v < q] against a float. *)
Definition py_le (v : pyval) (q : Q) : outcome bool :=
  match py_num v with
  | Some x => Ret (Qle_bool x q)
  | None => Raise (not_supported "<=" v "float")
  end.

Definition py_lt (v : pyval) (q : Q) : outcome bool :=
  match py_num v with
  | Some x => Ret (negb (Qle_bool q x))
  | None => Raise (not_supported "<" v "float")
  end.

(** [a / b]. *)
Definition py_div (a b : pyval) : outcome pyval :=
  match py_num a, py_num b with
  | Some x, Some y =>
      if Qzero_b y then Raise (mk_exn "ZeroDivisionError" "division by zero")
      else Ret (PFloat (x / y))
  | _, _ => Raise (unsupported "/" a b)
  end.

(** [v > 0]. *)
Definition py_gt0 (v : pyval) : outcome bool :=
  match py_num v with
  | Some x => Ret (negb (Qle_bool x 0))
  | None => Raise (not_supported ">" v "int")
  end.

(** ** Strings *)

Fixpoint prefixb (p s : string) : bool :=
  match p, s with
  | EmptyString, _ => true
  | String a p', String b s' => if Ascii.eqb a b then prefixb p' s' else false
  | String _ _, EmptyString => false
  end.

(** [needle in hay] on strings. *)
Fixpoint contains (needle hay : string) : bool :=
  prefixb needle hay ||
  match hay with
  | EmptyString => false
  | String _ hay' => contains needle hay'
  end.

Definition lower_ascii (c : ascii) : ascii :=
  let n := nat_of_ascii c in
  if ((65 <=? n) && (n <=? 90))%nat then ascii_of_nat (n + 32) else c.

(** [s.lower()]. *)
Fixpoint lower (s : string) : string :=
  match s with
  | EmptyString => EmptyString
  | String c s' => String (lower_ascii c) (lower s')
  end.

Fixpoint chars (s : string) : list pyval :=
  match s with
  | EmptyString => []
  | String c s' => PStr (String c EmptyString) :: chars s'
  end.

Definition is_str (s : string) (v : pyval) : bool :=
  match v with PStr t => String.eqb s t | _ => false end.

(** [s in v] for a string [s]: membership in a list, substring of a
    string, key of a dict. *)
Definition py_str_in (s : string) (v : pyval) : outcome bool :=
  match v with
  | PList l => Ret (existsb (is_str s) l)
  | PStr t  => Ret (contains s t)
  | PDict d => Ret (existsb (fun kv => String.eqb s (fst kv)) d)
  | _ => Raise (mk_exn "TypeError"
                 ("argument of type '" ++ type_name v ++ "' is not iterable"))
  end.

(** [for h in v]. *)
Definition py_iter (v : pyval) : outcome (list pyval) :=
  match v with
  | PList l => Ret l
  | PStr s  => Ret (chars s)
  | PDict d => Ret (map (fun kv => PStr (fst kv)) d)
  | _ => Raise (mk_exn "TypeError"
                 ("'" ++ type_name v ++ "' object is not iterable"))
  end.

(** The stop index of [xs[:n]] for a sequence of length [len]. *)
Definition slice_stop (len : nat) (n : Z) : nat :=
  if n <? 0 then Z.to_nat (Z.max 0 (Z.of_nat len + n)) else Z.to_nat n.

Fixpoint str_take (n : nat) (s : string) : string :=
  match n, s with
  | S n', String c s' => String c (str_take n' s')
  | _, _ => EmptyString
  end.

(** [v[:n]]. *)
Definition py_slice_to (v : pyval) (n : Z) : outcome pyval :=
  match v with
  | PList l => Ret (PList (firstn (slice_stop (List.length l) n) l))
  | PStr s  => Ret (PStr (str_take (slice_stop (String.length s) n) s))
  | PDict _ => Raise (mk_exn "TypeError" "unhashable type: 'slice'")
  | _ => Raise (mk_exn "TypeError"
                 ("'" ++ type_name v ++ "' object is not subscriptable"))
  end.

(** ASCII whitespace, as [str.strip] and [str.split] see it. *)
Definition is_space (c : ascii) : bool :=
  let n := nat_of_ascii c in
  (((9 <=? n) && (n <=? 13)) || ((28 <=? n) && (n <=? 32)))%nat.

Fixpoint lstrip (s : string) : string :=
  match s with
  | EmptyString => EmptyString
  | String c s' => if is_space c then lstrip s' else s
  end.

(** [s.rstrip(...)] for the characters that satisfy [p]. *)
Fixpoint rstrip_by (p : ascii -> bool) (s : string) : string :=
  match s with
  | EmptyString => EmptyString
  | String c s' =>
      let r := rstrip_by p s' in
      if p c && String.eqb r "" then EmptyString else String c r
  end.

(** [s.strip()]. *)
Definition strip (s : string) : string := rstrip_by is_space (lstrip s).

(** [s.split(sep)] for a one-character separator. *)
Fixpoint split_char (sep : ascii) (s : string) : list string :=
  match s with
  | EmptyString => [EmptyString]
  | String c s' =>
      let r := split_char sep s' in
      if Ascii.eqb c sep then EmptyString :: r
      else match r with
           | x :: xs => String c x :: xs
           | [] => [String c EmptyString]
           end
  end.

Fixpoint take_word (s : string) : string :=
  match s with
  | EmptyString => EmptyString
  | String c s' => if is_space c then EmptyString else String c (take_word s')
  end.

(** [s.split()[0]]; [None] when [s.split()] is empty. *)
Definition first_word (s : string) : option string :=
  match lstrip s with
  | EmptyString => None
  | s' => Some (take_word s')
  end.

(** [f"{q:.2f}"]: two decimals, ties to even. *)
Definition format_2f (q : Q) : string :=
  let scaled := (Qabs q * 100)%Q in
  let fl := Qfloor scaled in
  let cents :=
    match (scaled - inject_Z fl ?= 1 # 2)%Q with
    | Lt => fl
    | Gt => fl + 1
    | Eq => if Z.even fl then fl else fl + 1
    end in
  let frac := cents mod 100 in
  (if Qle_bool 0 q then "" else "-") ++ pretty (cents / 100) ++ "."
    ++ (if frac <? 10 then "0" else "") ++ pretty frac.

(** [abs(v)]. *)
Definition py_abs (v : pyval) : outcome pyval :=
  match v with
  | PBool b  => Ret (PInt (if b then 1 else 0))
  | PInt z   => Ret (PInt (Z.abs z))
  | PFloat q => Ret (PFloat (Qabs q))
  | _ => Raise (mk_exn "TypeError"
                 ("bad operand type for abs(): '" ++ type_name v ++ "'"))
  end.

(** [v <= 0] and [v >= n] against an int literal. *)
Definition py_le0 (v : pyval) : outcome bool :=
  match py_num v with
  | Some x => Ret (Qle_bool x 0)
  | None => Raise (not_supported "<=" v "int")
  end.

Definition py_ge_int (v : pyval) (n : Z) : outcome bool :=
  match py_num v with
  | Some x => Ret (Qle_bool (inject_Z n) x)
  | None => Raise (not_supported ">=" v "int")
  end.

(** [v >= q] against a float. *)
Definition py_ge (v : pyval) (q : Q) : outcome bool :=
  match py_num v with
  | Some x => Ret (Qle_bool q x)
  | None => Raise (not_supported ">=" v "float")
  end.

(** [v[k]] for a string key. *)
Definition py_item (v : pyval) (k : string) : outcome pyval :=
  match v with
  | PDict d =>
      match assoc k d with
      | Some x => Ret x
      | None => Raise (mk_exn "KeyError" ("'" ++ k ++ "'"))
      end
  | PList _ => Raise (mk_exn "TypeError"
                        "list indices must be integers or slices, not str")
  | PStr _ => Raise (mk_exn "TypeError" "string indices must be integers, not 'str'")
  | _ => Raise (mk_exn "TypeError"
                  ("'" ++ type_name v ++ "' object is not subscriptable"))
  end.

(** [v[0]]. *)
Definition py_first (v : pyval) : outcome pyval :=
  match v with
  | PList (x :: _) => Ret x
  | PList [] => Raise (mk_exn "IndexError" "list index out of range")
  | PStr (String c _) => Ret (PStr (String c EmptyString))
  | PStr EmptyString => Raise (mk_exn "IndexError" "string index out of range")
  | PDict _ => Raise (mk_exn "KeyError" "0")
  | _ => Raise (mk_exn "TypeError"
                  ("'" ++ type_name v ++ "' object is not subscriptable"))
  end.

(** The newline character. *)
Definition newline : string := String "010" EmptyString.

(** Reading a text file line by line: a carriage return, alone or
    before a newline, is read as a newline, and a line keeps its newline.  [after_cr] says that the
    character before was a ["\r"], [cur] is the line read so far. *)
Fixpoint read_lines (after_cr : bool) (cur : string) (s : string) : list string :=
  match s with
  | EmptyString => if String.eqb cur "" then [] else [cur]
  | String c s' =>
      if Ascii.eqb c "010" then
        if after_cr then read_lines false cur s'
        else (cur ++ newline) :: read_lines false "" s'
      else if Ascii.eqb c "013" then (cur ++ newline) :: read_lines true "" s'
      else read_lines false (cur ++ String c "") s'
  end.

(** [f.readlines()] and [for line in f] on a file that holds [content]. *)
Definition readlines (content : string) : list string :=
  read_lines false "" content.

(** ** scrapers/gmgn.py *)

Module Gmgn.

(** What the upstream does with the k-th GET of one fetch (k from 1). *)
Inductive response : Type :=
| GetRaises   (e : exn)        (* scraper.get raises *)
| Status429                    (* resp.status_code == 429 *)
| StatusError (status : Z)     (* resp.raise_for_status() raises *)
| BodyNotJson                  (* resp.json() raises JSONDecodeError *)
| Body        (payload : pyval).

(** One upstream resource: its answers, and the draws of
    [random.random()] made while fetching it. *)
Record upstream := {
  http : nat -> response;
  rnd  : nat -> Q
}.

(** The two places of an attempt at which the stop predicate can be
    consulted. *)
Inductive phase : Type := BeforeAttempt | BeforeSleep.

(** [stop_processing_callback]: [None], or a predicate whose answer is
    given per call site (url, attempt, phase). *)
Definition stop_callback : Type := option (string -> nat -> phase -> bool).

Inductive event : Type :=
| EWaitSlot  (attempt : nat)
| EStopCheck (attempt : nat) (ph : phase) (answer : bool)
| EGet       (attempt : nat)
| ESleep     (attempt : nat) (seconds : Q).

(** [random.uniform(a, b)] is [a + (b - a) * random()]. *)
Definition uniform (a b r : Q) : Q := (a + (b - a) * r)%Q.

Definition stopped_by_user : exn :=
  mk_exn "Exception" "Processing stopped by user".
Definition stopped_rate_limit : exn :=
  mk_exn "Exception" "Processing stopped by user due to rate limit".
Definition http_error (status : Z) : exn :=
  Exn "HTTPError" "HTTP error" (Some status).
Definition json_decode_error : exn :=
  mk_exn "JSONDecodeError" "Expecting value: line 1 column 1 (char 0)".
(** [resp] is read by the first handler before any GET has returned. *)
Definition unbound_resp : exn :=
  mk_exn "UnboundLocalError"
    "cannot access local variable 'resp' where it is not associated with a value".

(** [stop_processing_callback and stop_processing_callback()]. *)
Definition stop_says (stop : stop_callback) (url : string) (k : nat) (ph : phase) : bool :=
  match stop with Some f => f url k ph | None => false end.

Definition stop_events (stop : stop_callback) (url : string) (k : nat) (ph : phase)
  : list event :=
  match stop with Some f => [EStopCheck k ph (f url k ph)] | None => [] end.

(** [payload.get("code", 0) != 0]. *)
Definition ne_zero (v : pyval) : bool :=
  match py_num v with Some x => negb (Qzero_b x) | None => true end.

(** How the body of the [try] ends when no exception leaves it. *)
Inductive try_end : Type :=
| Continue (sleep_for : Q)
| Return   (data : pyval).

(** The body of the [try] of attempt [k]; the GET has been issued. *)
Definition try_body (up : upstream) (stop : stop_callback) (url : string) (k : nat)
  : outcome try_end * list event :=
  match http up k with
  | GetRaises e => (Raise e, [])
  | Status429 =>
      let evs := stop_events stop url k BeforeSleep in
      if stop_says stop url k BeforeSleep
      then (Raise stopped_rate_limit, evs)
      else (Ret (Continue (3 + uniform 0 2 (rnd up k))%Q), evs)
  | StatusError st => (Raise (http_error st), [])
  | BodyNotJson => (Raise json_decode_error, [])
  | Body payload =>
      (do code <- py_get payload "code" (PInt 0);
       if ne_zero code
       then Ret (Continue (2 + uniform 0 1 (rnd up k))%Q)
       else do data <- py_get payload "data" (PDict []); Ret (Return data),
       [])
  end.

(** [resp] is bound once a GET has returned. *)
Definition binds_resp (r : response) : bool :=
  match r with GetRaises _ => false | _ => true end.

(** Events that happened before those of the rest of the loop. *)
Definition after_events (evs : list event) (x : outcome pyval * list event)
  : outcome pyval * list event :=
  (fst x, (evs ++ snd x)%list).

(** The [while True] loop of [_sync_fetch]; [attempt] and [resp_bound]
    are the loop's variables, [fuel] bounds the iterations. *)
Fixpoint sync_fetch_loop (up : upstream) (stop : stop_callback) (url : string)
    (fuel attempt : nat) (resp_bound : bool) : outcome pyval * list event :=
  match fuel with
  | O => (Spin, [])
  | S fuel' =>
      let k := S attempt in
      let head := EWaitSlot k :: stop_events stop url k BeforeAttempt in
      if stop_says stop url k BeforeAttempt
      then (Raise stopped_by_user, head)
      else
        let body := try_body up stop url k in
        let bound := resp_bound || binds_resp (http up k) in
        let head := (head ++ EGet k :: snd body)%list in
        let again (secs : Q) :=
          after_events (head ++ [ESleep k secs])
            (sync_fetch_loop up stop url fuel' k bound) in
        match fst body with
        | Ret (Return data) => (Ret data, head)
        | Ret (Continue secs) => again secs
        | Raise e =>
            if is_value_error e
            then if bound then again 2%Q else (Raise unbound_resp, head)
            else again 5%Q
        | Spin => (Spin, head)
        end
  end.

Definition _sync_fetch (up : upstream) (stop : stop_callback) (url : string) (fuel : nat)
  : outcome pyval * list event :=
  sync_fetch_loop up stop url fuel 0 false.

(** The upstream host, by url. *)
Definition world : Type := string -> upstream.

(** What awaiting [fetch_gmgn_data] for a url gives. *)
Definition fetcher : Type := string -> outcome pyval.

Definition fetch_gmgn_data (w : world) (stop : stop_callback) (fuel : nat) : fetcher :=
  fun url => fst (_sync_fetch (w url) stop url fuel).

Definition wallet_stat_url (wallet period : string) : string :=
  "https://gmgn.ai/api/v1/wallet_stat/sol/" ++ wallet ++ "/" ++ period.
Definition wallet_holdings_url (wallet : string) : string :=
  "https://gmgn.ai/api/v1/wallet_holdings/sol/" ++ wallet.

Definition get_wallet_holdings (fetch : fetcher) (wallet : string) : outcome pyval :=
  do data <- fetch (wallet_holdings_url wallet);
  py_get data "holdings" (PList []).

Section Evaluate.

(** [float(s)] on a string: the interpreter's parser. *)
Variable float_of_str : string -> option Q.

(** [float(v)]. *)
Definition py_float (v : pyval) : outcome pyval :=
  match v with
  | PStr s =>
      match float_of_str s with
      | Some q => Ret (PFloat q)
      | None => Raise (mk_exn "ValueError"
                        ("could not convert string to float: '" ++ s ++ "'"))
      end
  | _ =>
      match py_num v with
      | Some q => Ret (PFloat q)
      | None => Raise (mk_exn "TypeError"
                        ("float() argument must be a string or a real number, not '"
                           ++ type_name v ++ "'"))
      end
  end.

(** One entry of [stats["top_holdings"]]. *)
Definition holding_entry (h : pyval) : outcome pyval :=
  do token <- py_get h "token" (PDict []);
  do symbol <- py_get token "symbol" (PStr "");
  do pnl <- py_get h "total_profit_pnl" (PFloat 0);
  do roi <- py_float pnl;
  Ret (PDict [("symbol", symbol); ("roi", roi)]).

(** Step 3 of [evaluate_trader]: the stats dict. *)
Definition build_stats (data top_hold : pyval) : outcome dict :=
  do tags <- py_get data "tags" (PList []);
  do winrate <- py_get data "winrate" (PFloat 0);
  do usd7 <- py_get data "realized_profit_7d" (PFloat 0);
  do usd30 <- py_get data "realized_profit_30d" (PFloat 0);
  do pct7 <- py_get data "pnl_7d" (PFloat 0);
  do pct30 <- py_get data "pnl_30d" (PFloat 0);
  do buy7 <- py_get data "buy_7d" (PInt 0);
  do sell7 <- py_get data "sell_7d" (PInt 0);
  do tx7 <- py_add buy7 sell7;
  do buy30 <- py_get data "buy_30d" (PInt 0);
  do sell30 <- py_get data "sell_30d" (PInt 0);
  do tx30 <- py_add buy30 sell30;
  do hs <- py_iter top_hold;
  do tops <- omapM holding_entry hs;
  Ret [("tags", tags); ("winrate", winrate);
       ("pnl_usd_7d", usd7); ("pnl_usd_30d", usd30);
       ("pnl_pct_7d", pct7); ("pnl_pct_30d", pct30);
       ("tx_7d", tx7); ("tx_30d", tx30);
       ("top_holdings", PList tops)].

(** [stats[k]] for a key of the dict built above. *)
Definition field (stats : dict) (k : string) : pyval := dict_get stats k PNone.

(** [h["roi"]] on an entry of [stats["top_holdings"]]. *)
Definition roi_of (h : pyval) : pyval :=
  match h with PDict d => dict_get d "roi" PNone | _ => PNone end.

(** [all(h["roi"] < min_roi for h in hs)]. *)
Fixpoint all_roi_below (hs : list pyval) (min_roi : Q) : outcome bool :=
  match hs with
  | [] => Ret true
  | h :: hs' =>
      do b <- py_lt (roi_of h) min_roi;
      if b then all_roi_below hs' min_roi else Ret false
  end.

(** Step 4 of [evaluate_trader]: the filters, in order. *)
Definition apply_filters (stats : dict) (min_pnl30 min_roi : Q)
  : outcome (string * dict) :=
  do bot <- py_str_in "sandwich_bot" (field stats "tags");
  if bot then Ret ("TAG_sandwich_bot", stats) else
  do low <- py_le (field stats "pnl_pct_30d") min_pnl30;
  if low then Ret ("PNL30_LOW", stats) else
  do hs <- py_iter (field stats "top_holdings");
  do none <- all_roi_below hs min_roi;
  if none then Ret ("ROI_LOW", stats) else
  Ret ("PASS", stats).

Definition evaluate_trader (fetch : fetcher) (wallet period : string)
    (min_pnl30 min_roi : Q) (top_n : Z) : outcome (string * dict) :=
  do data <- fetch (wallet_stat_url wallet period);
  if negb (truthy data) then Ret ("JSON_FAIL", []) else
  do holdings <- get_wallet_holdings fetch wallet;
  do top_hold <- py_slice_to holdings top_n;
  do stats <- build_stats data top_hold;
  apply_filters stats min_pnl30 min_roi.

End Evaluate.

(** The defaults of [evaluate_trader]'s keyword arguments. *)
Definition default_period : string := "7d".
Definition default_min_pnl30 : Q := 0.75%Q.
Definition default_min_roi : Q := 0.30%Q.
Definition default_top_n : Z := 3.

(** *** The rate limiter *)

(** [REQUEST_DELAY] is bound twice at module level, to 0.15 and then to
    0.2; [_wait_slot] reads the global when it is called. *)
Definition REQUEST_DELAY : Q := 0.2%Q.

(** [_wait_slot] under the lock: [now] and [woke] are the two readings
    of [time.time()]; the value is the time slept and the new
    [_next_allowed]. *)
Definition _wait_slot (next_allowed now woke : Q) : Q * Q :=
  (if Qle_bool next_allowed now then 0%Q else (next_allowed - now)%Q,
   (woke + REQUEST_DELAY)%Q).

(** Successive calls, each with its two readings: the instants at which
    the callers go on. *)
Fixpoint wait_slots (next_allowed : Q) (clock : list (Q * Q)) : list Q :=
  match clock with
  | [] => []
  | (now, woke) :: rest =>
      woke :: wait_slots (snd (_wait_slot next_allowed now woke)) rest
  end.

(** *** The wallet filters *)

Definition MIN_THRESHOLD : Z := 5000.

(** [is_wallet_active]. *)
Definition is_wallet_active (stats : pyval) : outcome bool :=
  if negb (truthy stats) then Ret false else
  do realized <- py_get stats "realizedPnlUsd" (PFloat 0);
  do unrealized <- py_get stats "unrealizedPnlUsd" (PFloat 0);
  do total_rev <- py_get stats "totalRevenueUsd" (PFloat 0);
  do total_spent <- py_get stats "totalSpentUsd" (PFloat 0);
  do loss <- py_le0 realized;
  if loss : bool then Ret false else
  do ar <- py_abs realized;
  do c1 <- py_ge_int ar MIN_THRESHOLD;
  if negb c1 then Ret false else
  do au <- py_abs unrealized;
  do c2 <- py_ge_int au MIN_THRESHOLD;
  if negb c2 then Ret false else
  do c3 <- py_ge_int total_rev MIN_THRESHOLD;
  if negb c3 then Ret false else
  py_ge_int total_spent MIN_THRESHOLD.

Section Risk.

Variable float_of_str : string -> option Q.

(** [get_gmgn_risk]. *)
Definition get_gmgn_risk (fetch : fetcher) (wallet : string) : outcome dict :=
  do data <- fetch (wallet_stat_url wallet "7d");
  if negb (truthy data) then Ret [] else
  do found <- py_get data "risk" PNone;
  let risk := if truthy found then found else PDict [] in
  do v1 <- py_get risk "no_buy_hold_ratio" (PFloat 0);
  do didnt_buy <- py_float float_of_str v1;
  do v2 <- py_get risk "fast_tx_ratio" (PFloat 0);
  do fast <- py_float float_of_str v2;
  do v3 <- py_get risk "sell_pass_buy_ratio" (PFloat 0);
  do sold <- py_float float_of_str v3;
  Ret [("didnt_buy_ratio", didnt_buy); ("buy_sell_under_5s_ratio", fast);
       ("sold_gt_bought_ratio", sold)].

(** [is_wallet_safe]. *)
Definition is_wallet_safe (fetch : fetcher) (wallet : string) : outcome bool :=
  do risk <- get_gmgn_risk fetch wallet;
  if negb (truthy (PDict risk)) then Ret false else
  do c1 <- py_lt (field risk "didnt_buy_ratio") 0.6;
  if negb c1 then Ret false else
  do c2 <- py_lt (field risk "buy_sell_under_5s_ratio") 0.40;
  if negb c2 then Ret false else
  py_lt (field risk "sold_gt_bought_ratio") 0.10.

(** The condition of the comprehension of [get_gmgn_big_wins]. *)
Definition big_win (min_profit_usd min_roi : Q) (h : pyval) : outcome bool :=
  do p <- py_get h "total_profit" (PInt 0);
  do profit <- py_float float_of_str p;
  do c1 <- py_ge profit min_profit_usd;
  if negb c1 then Ret false else
  do r <- py_get h "total_profit_pnl" (PInt 0);
  do roi <- py_float float_of_str r;
  py_ge roi min_roi.

(** The entry the comprehension builds for a holding. *)
Definition winner_entry (h : pyval) : outcome pyval :=
  do token <- py_item h "token";
  do symbol <- py_item token "symbol";
  do p <- py_item h "total_profit";
  do profit <- py_float float_of_str p;
  do r <- py_item h "total_profit_pnl";
  do roi <- py_float float_of_str r;
  Ret (PDict [("symbol", symbol); ("profit_usd", profit); ("roi", roi)]).

Fixpoint winners_of (min_profit_usd min_roi : Q) (hs : list pyval)
  : outcome (list pyval) :=
  match hs with
  | [] => Ret []
  | h :: hs' =>
      do keep <- big_win min_profit_usd min_roi h;
      do w <- (if keep : bool
               then do e <- winner_entry h; Ret [e]
               else Ret []);
      do ws <- winners_of min_profit_usd min_roi hs';
      Ret (w ++ ws)%list
  end.

(** [get_gmgn_big_wins]. *)
Definition get_gmgn_big_wins (fetch : fetcher) (wallet : string)
    (min_profit_usd min_roi : Q) (top_n : Z) : outcome dict :=
  do holdings <- get_wallet_holdings fetch wallet;
  do hs <- py_iter holdings;
  do winners <- winners_of min_profit_usd min_roi hs;
  Ret [("has_big_wins", PBool (top_n <=? Z.of_nat (List.length winners)));
       ("winners", PList (firstn (slice_stop (List.length winners) top_n) winners))].

End Risk.

End Gmgn.


(** ** scrapers/bullx.py *)

Module Bullx.

Definition is_dict (v : pyval) : bool :=
  match v with PDict _ => true | _ => false end.

(** [h.get("address")] on a dict. *)
Definition address_of (h : pyval) : pyval :=
  match h with PDict d => dict_get d "address" PNone | _ => PNone end.

(** [post] is what the POST, [raise_for_status] and [resp.json()] give
    together: the decoded body, or the exception one of them raises. *)
Definition fetch_top500_traders (post : outcome pyval) : outcome (list pyval) :=
  do data <- post;
  do holders <- match data with
                | PList _ => Ret data
                | _ => do inner <- py_get data "data" (PDict []);
                       py_get inner "holders" (PList [])
                end;
  do hs <- py_iter holders;
  Ret (List.filter (fun h => is_dict h && truthy (address_of h)) hs).

End Bullx.

(** ** multi-coin-processor.py *)

Module Processor.

(** A row of [processed_tokens], keyed by [token_address]. *)
Record checkpoint := {
  ck_token_name     : string;
  ck_token_symbol   : string;
  ck_total_holders  : nat;
  ck_passed_traders : nat
}.

(** A row of [traders], keyed by [(wallet_address, token_address)].
    [tags] and [top_holdings] hold the value whose [json.dumps] text is
    stored; [tags = None] is SQL NULL. *)
Record trader_row := {
  token_name               : string;
  token_symbol             : string;
  total_bought_usd         : pyval;
  total_sold_usd           : pyval;
  realized_profit_usd      : pyval;
  realized_profit_ratio    : pyval;
  currently_holding_amount : pyval;
  total_buy_transactions   : pyval;
  total_sell_transactions  : pyval;
  evaluation_result        : string;
  tags                     : option pyval;
  winrate                  : pyval;
  pnl_usd_7d               : pyval;
  pnl_usd_30d              : pyval;
  pnl_pct_7d               : pyval;
  pnl_pct_30d              : pyval;
  tx_7d                    : pyval;
  tx_30d                   : pyval;
  top_holdings             : pyval
}.

(** What the processor asks of its collaborators: the callbacks (when
    set) and the two awaited scraper calls. *)
Inductive call : Type :=
| TokenCallback    (token_name : string)
| ProgressCallback (completed total passed : nat)
| FatalCallback    (message : string)
| FetchTraders     (token_address : string)
| EvaluateTrader   (token_address : string) (wallet : pyval).

(** A [TokenProcessor] with its database. *)
Record processor := {
  concurrency        : nat;
  stop_processing    : bool;
  current_token_name : option string;
  processed_tokens   : gmap string checkpoint;
  traders            : gmap (string * string) trader_row;
  calls              : list call
}.

Definition set_stop (p : processor) : processor :=
  {| concurrency := concurrency p; stop_processing := true;
     current_token_name := current_token_name p;
     processed_tokens := processed_tokens p; traders := traders p;
     calls := calls p |}.

Definition set_current (name : string) (p : processor) : processor :=
  {| concurrency := concurrency p; stop_processing := stop_processing p;
     current_token_name := Some name;
     processed_tokens := processed_tokens p; traders := traders p;
     calls := calls p |}.

Definition notify (c : call) (p : processor) : processor :=
  {| concurrency := concurrency p; stop_processing := stop_processing p;
     current_token_name := current_token_name p;
     processed_tokens := processed_tokens p; traders := traders p;
     calls := (calls p ++ [c])%list |}.

(** [stop()]. *)
Definition stop (p : processor) : processor := set_stop p.

(** [load_tokens]: the lines of tokens.txt, [None] when the file does
    not exist. *)
Definition parse_token_line (line : string) : option (string * string) :=
  let line := strip line in
  if negb (String.eqb line "") && negb (prefixb "#" line) then
    match split_char "," line with
    | a :: b :: _ => Some (strip a, strip b)
    | _ => None
    end
  else None.

Definition load_tokens (file : option (list string)) : list (string * string) :=
  match file with
  | Some lines => omap parse_token_line lines
  | None => []
  end.

(** [get_processed_token_addresses]. *)
Definition get_processed_token_addresses (p : processor) : gset string :=
  dom (processed_tokens p).

(** [mark_token_processed]: INSERT OR REPLACE. *)
Definition mark_token_processed (token_address token_name token_symbol : string)
    (total_holders passed_traders : nat) (p : processor) : processor :=
  {| concurrency := concurrency p; stop_processing := stop_processing p;
     current_token_name := current_token_name p;
     processed_tokens :=
       <[token_address :=
           {| ck_token_name := token_name; ck_token_symbol := token_symbol;
              ck_total_holders := total_holders;
              ck_passed_traders := passed_traders |}]> (processed_tokens p);
     traders := traders p; calls := calls p |}.

(** The values sqlite3 binds: None, int (64 bits), float, str. *)
Definition bind_error (index : nat) (v : pyval) : option exn :=
  match v with
  | PList _ | PDict _ =>
      Some (mk_exn "ProgrammingError"
              ("Error binding parameter " ++ pretty index ++ ": type '"
                 ++ type_name v ++ "' is not supported"))
  | PInt z =>
      if (- 2 ^ 63 <=? z) && (z <? 2 ^ 63) then None
      else Some (mk_exn "OverflowError"
                   "Python int too large to convert to SQLite INTEGER")
  | _ => None
  end.

Fixpoint bind_all (index : nat) (vs : list pyval) : option exn :=
  match vs with
  | [] => None
  | v :: vs' =>
      match bind_error index v with
      | Some e => Some e
      | None => bind_all (S index) vs'
      end
  end.

(** The row [save_trader_data] writes for a stats dict. *)
Definition row_of (token_name token_symbol evaluation_result : string) (stats : dict)
  : trader_row :=
  let tags := dict_get stats "tags" (PList []) in
  {| token_name := token_name;
     token_symbol := token_symbol;
     total_bought_usd := dict_get stats "total_bought_usd" (PFloat 0);
     total_sold_usd := dict_get stats "total_sold_usd" (PFloat 0);
     realized_profit_usd := dict_get stats "realized_profit_usd" (PFloat 0);
     realized_profit_ratio := dict_get stats "realized_profit_ratio" (PStr "0.0x");
     currently_holding_amount := dict_get stats "currently_holding_amount" (PFloat 0);
     total_buy_transactions := dict_get stats "total_buy_transactions" (PInt 0);
     total_sell_transactions := dict_get stats "total_sell_transactions" (PInt 0);
     evaluation_result := evaluation_result;
     tags := if truthy tags then Some tags else None;
     winrate := dict_get stats "winrate" (PFloat 0);
     pnl_usd_7d := dict_get stats "pnl_usd_7d" (PFloat 0);
     pnl_usd_30d := dict_get stats "pnl_usd_30d" (PFloat 0);
     pnl_pct_7d := dict_get stats "pnl_pct_7d" (PFloat 0);
     pnl_pct_30d := dict_get stats "pnl_pct_30d" (PFloat 0);
     tx_7d := dict_get stats "tx_7d" (PInt 0);
     tx_30d := dict_get stats "tx_30d" (PInt 0);
     top_holdings := dict_get stats "top_holdings" (PList []) |}.

(** The parameters of the INSERT that are taken from the stats dict as
    they are, with their positions. *)
Definition bound_params (r : trader_row) : option exn :=
  match bind_all 5 [total_bought_usd r; total_sold_usd r; realized_profit_usd r;
                    realized_profit_ratio r; currently_holding_amount r;
                    total_buy_transactions r; total_sell_transactions r] with
  | Some e => Some e
  | None => bind_all 14 [winrate r; pnl_usd_7d r; pnl_usd_30d r; pnl_pct_7d r;
                         pnl_pct_30d r; tx_7d r; tx_30d r]
  end.

Definition put_row (wallet token_address : string) (r : trader_row) (p : processor)
  : processor :=
  {| concurrency := concurrency p; stop_processing := stop_processing p;
     current_token_name := current_token_name p;
     processed_tokens := processed_tokens p;
     traders := <[(wallet, token_address) := r]> (traders p);
     calls := calls p |}.

(** [save_trader_data]: INSERT OR REPLACE, or the exception of the
    parameter sqlite3 cannot bind. *)
Definition save_trader_data (wallet token_address token_name token_symbol : string)
    (evaluation_result : string) (stats : dict) (p : processor)
  : outcome unit * processor :=
  let r := row_of token_name token_symbol evaluation_result stats in
  match bound_params r with
  | Some e => (Raise e, p)
  | None => (Ret tt, put_row wallet token_address r p)
  end.

(** The tests on [str(e)] made by the exception handlers. *)
Definition throttle_text (msg : string) : bool :=
  contains "429" msg || contains "rate limit" (lower msg).

Definition stop_text (msg : string) : bool :=
  throttle_text msg || contains "stopped by user" (lower msg).

(** [hash(v)] is defined. *)
Definition hashable (v : pyval) : bool :=
  match v with PList _ | PDict _ => false | _ => true end.

(** Equality of two hashable values, as a set compares its members. *)
Definition key_eq (a b : pyval) : bool :=
  match a, b with
  | PStr s, PStr t => String.eqb s t
  | PNone, PNone => true
  | _, _ =>
      match py_num a, py_num b with
      | Some x, Some y => Qeq_bool x y
      | _, _ => false
      end
  end.

(** The [for trader in traders] loop of [fetch_traders_data]. *)
Fixpoint unique_loop (stopped : bool) (todo seen_addresses unique_traders : list pyval)
  : outcome (list pyval) :=
  match todo with
  | [] => Ret unique_traders
  | trader :: rest =>
      if stopped then Ret [] else
      match trader with
      | PDict d =>
          let addr := dict_get d "address" PNone in
          if truthy addr then
            if hashable addr then
              if existsb (key_eq addr) seen_addresses
              then unique_loop stopped rest seen_addresses unique_traders
              else unique_loop stopped rest (addr :: seen_addresses)
                     (unique_traders ++ [trader])
            else Raise (mk_exn "TypeError"
                          ("unhashable type: '" ++ type_name addr ++ "'"))
          else unique_loop stopped rest seen_addresses unique_traders
      | _ => unique_loop stopped rest seen_addresses unique_traders
      end
  end.

(** [fetch_traders_data]; [fetched] is what awaiting
    [fetch_top500_traders] gives. *)
Definition fetch_traders_data (fetched : outcome (list pyval)) (p : processor)
  : outcome (list pyval) * processor :=
  match (do traders <- fetched; unique_loop (stop_processing p) traders [] []) with
  | Ret unique_traders => (Ret unique_traders, p)
  | Spin => (Spin, p)
  | Raise e =>
      if bool_decide (exn_status e = Some 429) then
        (Ret [], notify (FatalCallback
                           "API Error 429: Rate limit hit. Stopping processor.")
                   (set_stop p))
      else if throttle_text (exn_msg e) then
        (Ret [], notify (FatalCallback
                           ("API Error: " ++ exn_msg e ++ ". Stopping processor."))
                   (set_stop p))
      else (Ret [], p)
  end.

(** The token symbol [process_single_token] derives from the name. *)
Definition split0 (token_name : string) : outcome string :=
  match first_word token_name with
  | Some w => Ret w
  | None => Raise (mk_exn "IndexError" "list index out of range")
  end.

Definition token_symbol_of (token_name : string) : outcome string :=
  if String.eqb token_name "UNKNOWN" then Ret "UNKNOWN"
  else if contains "(" token_name && contains ")" token_name then
    let symbol_match :=
      rstrip_by (Ascii.eqb ")") (List.last (split_char "(" token_name) "") in
    if negb (String.eqb symbol_match "") then Ret symbol_match
    else split0 token_name
  else split0 token_name.

(** *** The tasks of one token *)

(** [trader_data['address']]. *)
Definition wallet_of (trader : pyval) : outcome pyval :=
  match trader with
  | PDict d =>
      match assoc "address" d with
      | Some v => Ret v
      | None => Raise (mk_exn "KeyError" "'address'")
      end
  | PList _ => Raise (mk_exn "TypeError"
                        "list indices must be integers or slices, not str")
  | PStr _ => Raise (mk_exn "TypeError" "string indices must be integers, not 'str'")
  | _ => Raise (mk_exn "TypeError"
                  ("'" ++ type_name trader ++ "' object is not subscriptable"))
  end.

(** [wallet[:8]] in the log lines: the address as a str.  (A list
    address fails later, at the INSERT, to the same effect.) *)
Definition wallet_str (wallet : pyval) : outcome string :=
  match wallet with
  | PStr w => Ret w
  | _ => Raise (mk_exn "TypeError"
                  ("'" ++ type_name wallet ++ "' object is not subscriptable"))
  end.

Definition error_stats : dict :=
  [("total_bought_usd", PFloat 0); ("total_sold_usd", PFloat 0);
   ("realized_profit_usd", PFloat 0); ("realized_profit_ratio", PStr "0.0x");
   ("currently_holding_amount", PFloat 0); ("total_buy_transactions", PInt 0);
   ("total_sell_transactions", PInt 0)].

(** Where a task of [process_single_token] stands. *)
Inductive task_status : Type :=
| Created      (* not yet run *)
| Waiting      (* at [async with sem] *)
| Evaluating   (* at [await evaluate_trader(...)], holding the semaphore *)
| Finished.

(** The processor together with the locals of [process_single_token]
    that its tasks share. *)
Record token_run := {
  self           : processor;
  passed_traders : nat;
  completed      : nat;
  sem            : nat;
  status         : list task_status
}.

Definition with_self (f : processor -> processor) (r : token_run) : token_run :=
  {| self := f (self r); passed_traders := passed_traders r;
     completed := completed r; sem := sem r; status := status r |}.

Definition put_self (p : processor) (r : token_run) : token_run :=
  with_self (fun _ => p) r.

Definition add_passed (r : token_run) : token_run :=
  {| self := self r; passed_traders := S (passed_traders r);
     completed := completed r; sem := sem r; status := status r |}.

Definition add_completed (r : token_run) : token_run :=
  {| self := self r; passed_traders := passed_traders r;
     completed := S (completed r); sem := sem r; status := status r |}.

Definition set_sem (n : nat) (r : token_run) : token_run :=
  {| self := self r; passed_traders := passed_traders r;
     completed := completed r; sem := n; status := status r |}.

Definition release (r : token_run) : token_run := set_sem (S (sem r)) r.

Definition set_status (i : nat) (st : task_status) (r : token_run) : token_run :=
  {| self := self r; passed_traders := passed_traders r;
     completed := completed r; sem := sem r; status := <[i := st]> (status r) |}.

Section Token.

Variables token_address token_name token_symbol : string.
Variable traders_data : list pyval.
(** What awaiting [evaluate_trader(wallet, ...)] gives. *)
Variable evaluate : pyval -> outcome (string * dict).

(** The [try] of [evaluate_and_save] after the await. *)
Definition save_evaluated (trader wallet : pyval) (reason : string) (gmgn_stats : dict)
    (r : token_run) : outcome unit * token_run :=
  let computed :=
    do w <- wallet_str wallet;
    do bought_usd <- py_get trader "totalBoughtUSD" (PFloat 0);
    do sold_usd <- py_get trader "totalSoldUSD" (PFloat 0);
    do realized_profit <- py_sub sold_usd bought_usd;
    do positive <- py_gt0 bought_usd;
    do realized_ratio <-
      (if positive : bool
       then do q <- py_div sold_usd bought_usd;
            match q with
            | PFloat x => Ret (PStr (format_2f x ++ "x"))
            | _ => Ret (PStr "0.0x")
            end
       else Ret (PStr "0.0x"));
    do holding <- py_get trader "currentlyHoldingAmount" (PFloat 0);
    do buys <- py_get trader "totalBuyTransactions" (PInt 0);
    do sells <- py_get trader "totalSellTransactions" (PInt 0);
    Ret (w, dict_update gmgn_stats
              [("total_bought_usd", bought_usd); ("total_sold_usd", sold_usd);
               ("realized_profit_usd", realized_profit);
               ("realized_profit_ratio", realized_ratio);
               ("currently_holding_amount", holding);
               ("total_buy_transactions", buys);
               ("total_sell_transactions", sells)]) in
  match computed with
  | Ret (w, combined_stats) =>
      match save_trader_data w token_address token_name token_symbol reason
              combined_stats (self r) with
      | (Ret _, p) =>
          let r := put_self p r in
          (Ret tt, if String.eqb reason "PASS" then add_passed r else r)
      | (Raise e, p) => (Raise e, put_self p r)
      | (Spin, p) => (Spin, put_self p r)
      end
  | Raise e => (Raise e, r)
  | Spin => (Spin, r)
  end.

(** The [except] of [evaluate_and_save]. *)
Definition on_error (wallet : pyval) (e : exn) (r : token_run)
  : outcome unit * token_run :=
  if stop_text (exn_msg e) then
    (Ret tt,
     with_self (fun p =>
       notify (FatalCallback ("API Error or stop signal: " ++ exn_msg e
                                ++ ". Stopping processor.")) (set_stop p)) r)
  else
    match wallet_str wallet with
    | Ret w =>
        let '(o, p) := save_trader_data w token_address token_name token_symbol
                         "ERROR" error_stats (self r) in
        (o, put_self p r)
    | Raise e' => (Raise e', r)
    | Spin => (Spin, r)
    end.

(** [evaluate_with_progress] once [evaluate_and_save] is over. *)
Definition finish (o : outcome unit) (r : token_run) : token_run :=
  match o with
  | Ret _ =>
      let r := add_completed r in
      let total_traders := List.length traders_data in
      if (completed r mod 10 =? 0)%nat || (completed r =? total_traders)%nat
      then with_self (notify (ProgressCallback (completed r) total_traders
                                (passed_traders r))) r
      else r
  | Raise e =>
      let r := add_completed r in
      if throttle_text (exn_msg e)
      then with_self (fun p =>
             notify (FatalCallback ("API Error: " ++ exn_msg e
                                      ++ ". Stopping processor.")) (set_stop p)) r
      else r
  | Spin => r
  end.

(** [async with sem] and what follows up to the await. *)
Definition acquire (i : nat) (wallet : pyval) (r : token_run) : token_run :=
  match sem r with
  | O => set_status i Waiting r
  | S n =>
      let r := set_sem n r in
      if stop_processing (self r)
      then set_status i Finished (finish (Ret tt) (release r))
      else set_status i Evaluating
             (with_self (notify (EvaluateTrader token_address wallet)) r)
  end.

(** The rest of [evaluate_and_save] when the evaluation is over. *)
Definition resume (i : nat) (trader wallet : pyval) (r : token_run) : token_run :=
  match evaluate wallet with
  | Spin => r
  | Ret (reason, gmgn_stats) =>
      let '(o, r) := save_evaluated trader wallet reason gmgn_stats r in
      let '(o, r) := match o with
                     | Raise e => on_error wallet e r
                     | _ => (o, r)
                     end in
      set_status i Finished (finish o (release r))
  | Raise e =>
      let '(o, r) := on_error wallet e r in
      set_status i Finished (finish o (release r))
  end.

(** Task [i] runs until its next await, or to its end. *)
Definition step_task (i : nat) (r : token_run) : token_run :=
  match traders_data !! i, status r !! i with
  | Some trader, Some Created =>
      if stop_processing (self r) then set_status i Finished r
      else match wallet_of trader with
           | Ret wallet => acquire i wallet r
           | o => set_status i Finished (finish (do _ <- o; Ret tt) r)
           end
  | Some trader, Some Waiting =>
      match wallet_of trader with
      | Ret wallet => acquire i wallet r
      | _ => r
      end
  | Some trader, Some Evaluating =>
      match wallet_of trader with
      | Ret wallet => resume i trader wallet r
      | _ => r
      end
  | _, _ => r
  end.

(** [asyncio.gather] under a schedule: the order in which the event
    loop resumes the tasks. *)
Definition gather (schedule : list nat) (r : token_run) : token_run :=
  fold_left (fun r i => step_task i r) schedule r.

Definition is_finished (st : task_status) : bool :=
  match st with Finished => true | _ => false end.

Definition all_finished (r : token_run) : bool := forallb is_finished (status r).

End Token.

(** The dict [process_single_token] returns. *)
Record result := {
  res_token_address  : string;
  res_token_name     : string;
  res_total_traders  : nat;
  res_passed_traders : nat
}.

Definition stopped_by_user : exn :=
  mk_exn "Exception" "Processing stopped by user".

(** [process_single_token]; [post] is the BullX answer for the token,
    [evaluate] what evaluating each wallet gives, [schedule] the order
    in which the tasks are resumed. *)
Definition process_single_token (token_address token_name : string)
    (post : outcome pyval) (evaluate : pyval -> outcome (string * dict))
    (schedule : list nat) (p : processor) : outcome result * processor :=
  let p := notify (TokenCallback token_name) (set_current token_name p) in
  match token_symbol_of token_name with
  | Ret token_symbol =>
      let p := notify (FetchTraders token_address) p in
      match fetch_traders_data (Bullx.fetch_top500_traders post) p with
      | (Ret [], p) =>
          (Ret {| res_token_address := token_address;
                  res_token_name := token_name;
                  res_total_traders := 0; res_passed_traders := 0 |},
           mark_token_processed token_address token_name token_symbol 0 0 p)
      | (Ret traders_data, p) =>
          let r := gather token_address token_name token_symbol traders_data evaluate
                     schedule
                     {| self := p; passed_traders := 0; completed := 0;
                        sem := concurrency p;
                        status := repeat Created (List.length traders_data) |} in
          if all_finished r then
            let p := mark_token_processed token_address token_name token_symbol
                       (List.length traders_data) (passed_traders r) (self r) in
            if stop_processing p then (Raise stopped_by_user, p)
            else (Ret {| res_token_address := token_address;
                         res_token_name := token_name;
                         res_total_traders := List.length traders_data;
                         res_passed_traders := passed_traders r |}, p)
          else (Spin, self r)
      | (Raise e, p) => (Raise e, p)
      | (Spin, p) => (Spin, p)
      end
  | Raise e => (Raise e, p)
  | Spin => (Spin, p)
  end.

(** What a run of [process_all_tokens] meets outside the processor. *)
Record environment := {
  tokens_file : option (list string);
  bullx_post  : string -> outcome pyval;
  evaluate_of : string -> pyval -> outcome (string * dict);
  schedule_of : string -> list nat
}.

(** The [for] loop of [process_all_tokens]. *)
Fixpoint token_loop (env : environment) (todo : list (string * string))
    (results : list result) (p : processor) : outcome (list result) * processor :=
  match todo with
  | [] => (Ret results, p)
  | (token_address, token_name) :: rest =>
      if stop_processing p then (Ret results, p)
      else
        match process_single_token token_address token_name
                (bullx_post env token_address) (evaluate_of env token_address)
                (schedule_of env token_address) p with
        | (Ret res, p) => token_loop env rest (results ++ [res]) p
        | (Raise e, p) =>
            if throttle_text (exn_msg e)
            then (Ret results,
                  notify (FatalCallback ("API Error: " ++ exn_msg e
                                           ++ ". Stopping processor."))
                    (set_stop p))
            else token_loop env rest results p
        | (Spin, p) => (Spin, p)
        end
  end.

Definition unprocessed_tokens (tokens : list (string * string)) (p : processor)
  : list (string * string) :=
  List.filter (fun t => bool_decide (fst t ∉ get_processed_token_addresses p)) tokens.

(** [process_all_tokens]; the value is the list handed to
    [print_summary]. *)
Definition process_all_tokens (env : environment) (p : processor)
  : outcome (list result) * processor :=
  let tokens := load_tokens (tokens_file env) in
  match unprocessed_tokens tokens p with
  | [] => (Ret [], p)
  | todo => token_loop env todo [] p
  end.

End Processor.

(** ** token-manager.py *)

Module TokenManager.

(** [fetch_token_name]: [resp] is the decoded answer of the name
    service, [None] when the request or its decoding raises. *)
Definition fetch_token_name (resp : option pyval) : pyval :=
  let unknown := PStr "UNKNOWN" in
  match resp with
  | None => unknown
  | Some body =>
      match
        (do pairs <- py_get body "pairs" (PList []);
         if truthy pairs then
           do head <- py_first pairs;
           do has <- py_str_in "baseToken" head;
           if has : bool then
             do base <- py_item head "baseToken";
             py_get base "name" unknown
           else Ret unknown
         else Ret unknown)
      with
      | Ret name => name
      | _ => unknown
      end
  end.

Section AddToken.

(** [str(v)] of a float, a list or a dict: the interpreter's printer. *)
Variable str_of : pyval -> string.

(** [f"{v}"]. *)
Definition py_format (v : pyval) : string :=
  match v with
  | PStr s => s
  | PNone => "None"
  | PBool b => if b then "True" else "False"
  | PInt z => pretty z
  | _ => str_of v
  end.

(** [add_token]: [file] is the content of tokens.txt, [None] when it
    does not exist; the value is its content afterwards. *)
Definition add_token (token_address : string) (token_name : option string)
    (resp : option pyval) (file : option string) : option string :=
  let name :=
    match token_name with
    | Some n => if String.eqb n "" then fetch_token_name resp else PStr n
    | None => fetch_token_name resp
    end in
  Some (default "" file ++ token_address ++ "," ++ py_format name ++ newline).

End AddToken.

End TokenManager.

(** ** web-app.py *)

Module WebApp.
Import Processor.

(** The JSON answer of a route and its status code. *)
Record response := {
  status  : nat;
  success : bool;
  message : string
}.

(** The two DELETE statements of [remove_token], committed. *)
Definition delete_token (token_address : string) (p : processor) : processor :=
  {| concurrency := concurrency p; stop_processing := stop_processing p;
     current_token_name := current_token_name p;
     processed_tokens := delete token_address (processed_tokens p);
     traders := filter (fun kv => snd (fst kv) <> token_address) (traders p);
     calls := calls p |}.

(** The lines of tokens.txt that [remove_token] writes back. *)
Definition filtered_lines (token_address : string) (lines : list string)
  : list string :=
  List.filter (fun line => negb (prefixb token_address (strip line))) lines.

Section RemoveToken.

(** The text sqlite compares a TEXT column with when the bound value is
    a number. *)
Variable sql_text : pyval -> string.

(** [remove_token]: [token_address] is the field of the request's JSON
    body, [p] holds the database, [file] the content of tokens.txt. *)
Definition remove_token (token_address : pyval) (p : processor)
    (file : option string) : response * processor * option string :=
  if negb (truthy token_address) then
    ({| status := 400; success := false;
        message := "No token_address provided" |}, p, file)
  else
    match bind_error 0 token_address with
    | Some e => ({| status := 500; success := false; message := exn_msg e |},
                 p, file)
    | None =>
        let done := {| status := 200; success := true;
                       message := "Token completely removed from system" |} in
        match token_address with
        | PStr a =>
            (done, delete_token a p,
             option_map (fun content =>
                           String.concat "" (filtered_lines a (readlines content)))
                        file)
        | _ =>
            let p' := delete_token (sql_text token_address) p in
            match option_map readlines file with
            | Some (_ :: _) =>
                ({| status := 500; success := false;
                    message := "startswith first arg must be str or a tuple of str, not "
                                 ++ type_name token_address |}, p', file)
            | Some [] => (done, p', Some "")
            | None => (done, p', None)
            end
        end
    end.

End RemoveToken.

End WebApp.


(** * Properties *)

(** ** Vocabulary and scenarios *)

Module Scenario.
Import Gmgn.

(** Steps 2 and 3 of [evaluate_trader]: the holdings are fetched and
    the stats dict is built from the summary [data]. *)
Definition fetched_stats (float_of_str : string -> option Q) (fetch : fetcher)
    (wallet : string) (data : pyval) (top_n : Z) : outcome dict :=
  do holdings <- get_wallet_holdings fetch wallet;
  do top_hold <- py_slice_to holdings top_n;
  build_stats float_of_str data top_hold.

(** A decimal parser for the strings used below. *)
Definition parse_demo (s : string) : option Q :=
  if String.eqb s "0.5" then Some (1 # 2)%Q
  else if String.eqb s "0.1" then Some (1 # 10)%Q
  else None.

(** A successful body with the given data section. *)
Definition ok_body (d : dict) : response :=
  Body (PDict [("code", PInt 0); ("data", PDict d)]).

Definition holding (symbol roi : string) : pyval :=
  PDict [("token", PDict [("symbol", PStr symbol)]); ("total_profit_pnl", PStr roi)].

(** A fetcher that answers the summary urls with [summary] and any
    other url with [holdings]. *)
Definition fetch_of (summary holdings : dict) : fetcher :=
  fun url =>
    if prefixb "https://gmgn.ai/api/v1/wallet_stat/" url
    then Ret (PDict summary) else Ret (PDict holdings).

(** The events of attempt [k] up to the end of the [try] body, [evs]
    being those that follow the GET. *)
Definition attempt_events (stop : stop_callback) (url : string) (k : nat)
    (evs : list event) : list event :=
  (EWaitSlot k :: stop_events stop url k BeforeAttempt) ++ EGet k :: evs.

(** Attempt [k] ends in a sleep of [secs] seconds and the loop goes on. *)
Definition retry_after (up : upstream) (stop : stop_callback) (url : string)
    (fuel k : nat) (bound : bool) (evs : list event) (secs : Q)
  : outcome pyval * list event :=
  after_events (attempt_events stop url k (evs ++ [ESleep k secs]))
    (sync_fetch_loop up stop url fuel k bound).

(** The sleeps of a trace, in order. *)
Fixpoint sleeps (trace : list event) : list Q :=
  match trace with
  | [] => []
  | ESleep _ d :: tl => d :: sleeps tl
  | _ :: tl => sleeps tl
  end.

(** A trace in which no GET and no retry sleep happens at a point where
    the stop predicate says stop. *)
Definition honours_stop (f : string -> nat -> phase -> bool) (url : string)
    (trace : list event) : Prop :=
  (forall k, In (EGet k) trace -> f url k BeforeAttempt = false) /\
  (forall k d, In (ESleep k d) trace -> f url k BeforeSleep = false).

(** An upstream that throttles every request. *)
Definition always_429 : upstream :=
  {| http := fun _ => Status429; rnd := fun _ => (1 # 2)%Q |}.

(** An upstream that answers a non-zero code once, then succeeds. *)
Definition busy_once : upstream :=
  {| http := fun k => match k with
                      | 1%nat => Body (PDict [("code", PInt 40001)])
                      | _ => ok_body [("tags", PList [])]
                      end;
     rnd := fun _ => (1 # 4)%Q |}.

(** An upstream that throttles twice, sends a broken body, then
    succeeds without a data section. *)
Definition flaky : upstream :=
  {| http := fun k => match k with
                      | 1%nat | 2%nat => Status429
                      | 3%nat => BodyNotJson
                      | _ => Body (PDict [("code", PInt 0)])
                      end;
     rnd := fun _ => (1 # 2)%Q |}.

(** The stop flag is raised while the first GET is in flight. *)
Definition raised_during_first_get : string -> nat -> phase -> bool :=
  fun _ k ph => match k, ph with 1%nat, BeforeAttempt => false | _, _ => true end.


Definition edge_summary : dict :=
  [("tags", PList [PStr "smart_degen"]); ("pnl_30d", PFloat 0.75)].

Definition good_summary : dict :=
  [("tags", PList []); ("pnl_30d", PFloat 0.9)].

Definition winning_holdings : dict :=
  [("holdings", PList [holding "WIF" "0.5"; holding "BONK" "0.1"])].

(** The wallet address of an entry of the wallet list: the non-empty
    str under ["address"] of a dict. *)
Definition address_str (t : pyval) : option string :=
  match t with
  | PDict d =>
      match dict_get d "address" PNone with
      | PStr a => if String.eqb a "" then None else Some a
      | _ => None
      end
  | _ => None
  end.

Definition addresses (ts : list pyval) : list string := omap address_str ts.

(** An entry whose address, when it has one, is a str. *)
Definition str_addressed (t : pyval) : Prop :=
  forall d, t = PDict d ->
    truthy (dict_get d "address" PNone) = true ->
    exists a, dict_get d "address" PNone = PStr a.

(** [t] is the first entry of [ts] that carries its address. *)
Definition first_with_address (t : pyval) (ts : list pyval) : Prop :=
  exists pre post,
    ts = (pre ++ t :: post)%list /\
    forall t', In t' pre -> address_str t' <> address_str t.

(** What the loop guarantees about the entries it keeps. *)
Definition kept_ok (todo seen kept : list pyval) : Prop :=
  sublist kept todo /\
  Forall (fun t => is_Some (address_str t)) kept /\
  NoDup (addresses kept) /\
  (forall a, In a (addresses kept) <->
             In a (addresses todo) /\ ~ In (PStr a) seen) /\
  Forall (fun t => first_with_address t todo) kept.

(** The row of a wallet whose evaluation failed: reason ERROR and
    zeroed stats. *)
Definition error_row (token_name token_symbol : string) : Processor.trader_row :=
  {| Processor.token_name := token_name;
     Processor.token_symbol := token_symbol;
     Processor.total_bought_usd := PFloat 0;
     Processor.total_sold_usd := PFloat 0;
     Processor.realized_profit_usd := PFloat 0;
     Processor.realized_profit_ratio := PStr "0.0x";
     Processor.currently_holding_amount := PFloat 0;
     Processor.total_buy_transactions := PInt 0;
     Processor.total_sell_transactions := PInt 0;
     Processor.evaluation_result := "ERROR";
     Processor.tags := None;
     Processor.winrate := PFloat 0;
     Processor.pnl_usd_7d := PFloat 0;
     Processor.pnl_usd_30d := PFloat 0;
     Processor.pnl_pct_7d := PFloat 0;
     Processor.pnl_pct_30d := PFloat 0;
     Processor.tx_7d := PInt 0;
     Processor.tx_30d := PInt 0;
     Processor.top_holdings := PList [] |}.

(** A call that concerns the token at [token_address]. *)
Definition about (token_address : string) (c : Processor.call) : Prop :=
  match c with
  | Processor.FetchTraders a => a = token_address
  | Processor.EvaluateTrader a _ => a = token_address
  | _ => False
  end.

(** A call that concerns no token other than [token_address]. *)
Definition only_about (token_address : string) (c : Processor.call) : Prop :=
  forall a, about a c -> a = token_address.

(** [p'] has the calls of [p], followed by calls that satisfy [P]. *)
Definition calls_ext (P : Processor.call -> Prop) (p p' : Processor.processor) : Prop :=
  exists new,
    Processor.calls p' = (Processor.calls p ++ new)%list /\ Forall P new.

(** What holds of the tasks of a token while no stop is requested: the
    flag is down, and every finished task has seen its evaluation end
    and has written the row of its wallet, the ERROR row when the
    evaluation raised. *)
Definition rows_written (token_address token_name token_symbol : string)
    (traders_data : list pyval)
    (evaluate : pyval -> outcome (string * dict)) (r : Processor.token_run) : Prop :=
  Processor.stop_processing (Processor.self r) = false /\
  List.length (Processor.status r) = List.length traders_data /\
  forall i t a,
    traders_data !! i = Some t ->
    address_str t = Some a ->
    Processor.status r !! i = Some Processor.Finished ->
    evaluate (PStr a) <> Spin /\
    exists row,
      Processor.traders (Processor.self r) !! (a, token_address) = Some row /\
      (forall e, evaluate (PStr a) = Raise e ->
                 row = error_row token_name token_symbol).

Definition trader (address : string) (bought sold : Z) : pyval :=
  PDict [("address", PStr address); ("totalBoughtUSD", PInt bought);
         ("totalSoldUSD", PInt sold)].

(** A fetched list in which the address "A" comes twice. *)
Definition fetched_abac : list pyval :=
  [trader "A" 10 25; trader "B" 5 0; trader "A" 7 7; trader "C" 1 2].

(** The body of a BullX answer with the given holders. *)
Definition bullx_body (holders : list pyval) : pyval :=
  PDict [("data", PDict [("holders", PList holders)])].

(** A summary whose 7-day buy count is null. *)
Definition broken_summary : dict :=
  [("tags", PList []); ("pnl_30d", PFloat 0.9); ("buy_7d", PNone)].

Definition evaluate_with (fetch : fetcher) (wallet : pyval) : outcome (string * dict) :=
  match wallet with
  | PStr a => evaluate_trader parse_demo fetch a default_period default_min_pnl30
                default_min_roi default_top_n
  | _ => Ret ("JSON_FAIL", [])
  end.

(** The evaluations of a run in which the summary of wallet "A" is
    broken and every other wallet is good. *)
Definition demo_eval (wallet : pyval) : outcome (string * dict) :=
  match wallet with
  | PStr a =>
      evaluate_with
        (fetch_of (if String.eqb a "A" then broken_summary else good_summary)
           winning_holdings) wallet
  | _ => Ret ("JSON_FAIL", [])
  end.

(** The evaluations of a run in which the stop flag is raised before
    the first fetch of each wallet gets to its check. *)
Definition cancelled_eval : pyval -> outcome (string * dict) :=
  evaluate_with (fetch_gmgn_data (fun _ => busy_once) (Some (fun _ _ _ => true)) 5).

(** The evaluations of a run against an upstream that throttles every
    request, the stop flag staying down; [fuel] attempts per fetch. *)
Definition throttled_eval (fuel : nat) : pyval -> outcome (string * dict) :=
  evaluate_with (fetch_gmgn_data (fun _ => always_429) (Some (fun _ _ _ => false)) fuel).

(** The tasks of a token after [schedule], started from processor [p]. *)
Definition tasks_of (token_address token_name token_symbol : string)
    (unique_traders : list pyval) (evaluate : pyval -> outcome (string * dict))
    (schedule : list nat) (p : Processor.processor) : Processor.token_run :=
  Processor.gather token_address token_name token_symbol unique_traders evaluate
    schedule
    {| Processor.self := p; Processor.passed_traders := 0;
       Processor.completed := 0; Processor.sem := Processor.concurrency p;
       Processor.status :=
         repeat Processor.Created (List.length unique_traders) |}.

(** The exception of httpx for a 429 answer, and one for a host that
    cannot be reached. *)
Definition rate_limited : exn :=
  Exn "HTTPStatusError"
    "Client error '429 Too Many Requests' for url 'https://api-neo.bullx.io/v2/api/holdersSummaryV2'"
    (Some 429).
Definition unreachable : exn :=
  mk_exn "ConnectError" "All connection attempts failed".

Definition two_tokens : option (list string) :=
  Some ["# targets"; "T1, Token One (T1)"; "T2, Token Two (T2)"].

(** A run in which BullX answers every request with [e]. *)
Definition failing_env (e : exn) : Processor.environment :=
  {| Processor.tokens_file := two_tokens;
     Processor.bullx_post := fun _ => Raise e;
     Processor.evaluate_of := fun _ => demo_eval;
     Processor.schedule_of := fun _ => [] |}.

(** The schedule that runs the tasks [k], ..., [k + m - 1] one after
    the other, each up to its await and then to its end. *)
Fixpoint run_from (k m : nat) : list nat :=
  match m with
  | O => []
  | S m' => k :: k :: run_from (S k) m'
  end.

Definition one_by_one (n : nat) : list nat := run_from 0 n.

Definition token_one : string * string := ("T1", "Token One (T1)").
Definition token_two : string * string := ("T2", "Token Two (T2)").

Definition fresh (n : nat) : Processor.processor :=
  {| Processor.concurrency := n; Processor.stop_processing := false;
     Processor.current_token_name := None;
     Processor.processed_tokens := ∅; Processor.traders := ∅;
     Processor.calls := [] |}.

(** Three wallets: the summary of "A" is throttled twice, that of "B"
    comes once with a broken body, and "C" has no holding at or above
    the ROI threshold. *)
Definition three_wallets : world :=
  fun url =>
    let steady (d : dict) := {| http := fun _ => ok_body d; rnd := fun _ => 0%Q |} in
    if String.eqb url (wallet_stat_url "A" default_period) then
      {| http := fun k => match k with
                          | 1%nat | 2%nat => Status429
                          | _ => ok_body good_summary
                          end;
         rnd := fun _ => (1 # 2)%Q |}
    else if String.eqb url (wallet_stat_url "B" default_period) then
      {| http := fun k => match k with
                          | 1%nat => BodyNotJson
                          | _ => ok_body good_summary
                          end;
         rnd := fun _ => 0%Q |}
    else if String.eqb url (wallet_holdings_url "C") then
      steady [("holdings", PList [holding "BONK" "0.1"])]
    else if prefixb "https://gmgn.ai/api/v1/wallet_holdings/" url then
      steady winning_holdings
    else steady good_summary.

Definition three_wallets_eval : pyval -> outcome (string * dict) :=
  evaluate_with (fetch_gmgn_data three_wallets (Some (fun _ _ _ => false)) 10).

(** The stop flag is raised between the first GET and its 429 check. *)
Definition raised_at_first_429 : string -> nat -> phase -> bool :=
  fun _ k ph => match k, ph with 1%nat, BeforeSleep => true | _, _ => false end.

(** A processor whose store holds the checkpoints of both tokens. *)
Definition both_done : Processor.processor :=
  Processor.mark_token_processed "T2" "Token Two (T2)" "T2" 3 1
    (Processor.mark_token_processed "T1" "Token One (T1)" "T1" 0 0 (fresh 7)).

(** The clock the rate limiter reads: the readings never go back, and
    [time.sleep(d)] returns no earlier than [d] later.  [last] is the
    reading before. *)
Fixpoint clock_ok (next_allowed last : Q) (clock : list (Q * Q)) : Prop :=
  match clock with
  | [] => True
  | (now, woke) :: rest =>
      (last <= now)%Q /\
      (now + fst (_wait_slot next_allowed now woke) <= woke)%Q /\
      clock_ok (snd (_wait_slot next_allowed now woke)) woke rest
  end.

(** An answer after which [_sync_fetch] sleeps and tries again. *)
Definition transient (r : response) : bool :=
  match r with
  | GetRaises e => negb (is_value_error e)
  | Body payload =>
      match py_get payload "code" (PInt 0) with
      | Ret code => ne_zero code
      | _ => true
      end
  | _ => true
  end.

(** The attempts of a trace that took a slot of the rate limiter, and
    those that issued a GET, in order. *)
Fixpoint slots (trace : list event) : list nat :=
  match trace with
  | [] => []
  | EWaitSlot k :: tl => k :: slots tl
  | _ :: tl => slots tl
  end.

Fixpoint gets (trace : list event) : list nat :=
  match trace with
  | [] => []
  | EGet k :: tl => k :: gets tl
  | _ :: tl => gets tl
  end.

(** How a fetch that was at attempt [attempt] can end. *)
Definition fetch_ends (up : upstream) (stop : stop_callback) (url : string)
    (attempt : nat) (o : outcome pyval) : Prop :=
  match o with
  | Ret data =>
      exists k payload code,
        (attempt < k)%nat /\ http up k = Body payload /\
        py_get payload "code" (PInt 0) = Ret code /\ ne_zero code = false /\
        py_get payload "data" (PDict []) = Ret data
  | Raise e =>
      (e = stopped_by_user /\
       exists k, (attempt < k)%nat /\ stop_says stop url k BeforeAttempt = true) \/
      (e = unbound_resp /\
       exists k e', (attempt < k)%nat /\ http up k = GetRaises e' /\
                    is_value_error e' = true /\
                    forall j, (1 <= j <= k)%nat -> binds_resp (http up j) = false)
  | Spin => True
  end.

(** A top holding whose ROI reaches [min_roi]. *)
Definition reaches (min_roi : Q) (h : pyval) : bool :=
  match roi_of h with PFloat q => Qle_bool min_roi q | _ => false end.

(** The keys of the stats dict of a wallet whose summary is not empty. *)
Definition stats_keys : list string :=
  ["tags"; "winrate"; "pnl_usd_7d"; "pnl_usd_30d"; "pnl_pct_7d"; "pnl_pct_30d";
   "tx_7d"; "tx_30d"; "top_holdings"].

(** An entry of the winners of [get_gmgn_big_wins] that meets both
    thresholds. *)
Definition is_big_win (min_profit_usd min_roi : Q) (w : pyval) : Prop :=
  exists symbol profit roi,
    w = PDict [("symbol", symbol); ("profit_usd", PFloat profit); ("roi", PFloat roi)] /\
    (min_profit_usd <= profit)%Q /\ (min_roi <= roi)%Q.

(** [p'] has the checkpoint and the rows of token [a] that [p] has. *)
Definition keeps (a : string) (p p' : Processor.processor) : Prop :=
  Processor.processed_tokens p' !! a = Processor.processed_tokens p !! a /\
  forall w, Processor.traders p' !! (w, a) = Processor.traders p !! (w, a).

(** The finished tasks of a status list. *)
Definition count_finished (sts : list Processor.task_status) : nat :=
  List.length (List.filter Processor.is_finished sts).

(** The counters of the tasks of a token with [total] wallets: no more
    passed than completed wallets, no more completed wallets than
    finished tasks. *)
Definition counters_ok (total : nat) (r : Processor.token_run) : Prop :=
  List.length (Processor.status r) = total /\
  (Processor.passed_traders r <= Processor.completed r)%nat /\
  (Processor.completed r <= count_finished (Processor.status r))%nat.

(** A progress notification whose counts are in order. *)
Definition progress_ordered (c : Processor.call) : Prop :=
  match c with
  | Processor.ProgressCallback completed total passed =>
      (passed <= completed <= total)%nat
  | _ => True
  end.

(** Every checkpoint counts no more passed wallets than wallets. *)
Definition counts_ordered (p : Processor.processor) : Prop :=
  forall a ck,
    Processor.processed_tokens p !! a = Some ck ->
    (Processor.ck_passed_traders ck <= Processor.ck_total_holders ck)%nat.

(** [p'] has the checkpoints of [p], and the calls of [p] followed by
    calls whose progress counts are in order. *)
Definition quiet_step (p p' : Processor.processor) : Prop :=
  Processor.processed_tokens p' = Processor.processed_tokens p /\
  calls_ext progress_ordered p p'.

(** An entry of the wallet list whose ['address'] can be read and is a
    truthy, hashable value. *)
Definition has_wallet (t : pyval) : Prop :=
  exists w, Processor.wallet_of t = Ret w /\ truthy w = true /\
            Processor.hashable w = true.

(** No character of [s] satisfies [bad]. *)
Fixpoint no_char (bad : ascii -> bool) (s : string) : bool :=
  match s with
  | EmptyString => true
  | String c s' => negb (bad c) && no_char bad s'
  end.

Definition is_newline (c : ascii) : bool := Ascii.eqb c "010" || Ascii.eqb c "013".
Definition is_comma (c : ascii) : bool := Ascii.eqb "," c.

(** A field of a line of tokens.txt as [add_token] is meant to write
    it: not empty, without surrounding whitespace, without a comma and
    without a line break. *)
Definition clean_field (s : string) : Prop :=
  s <> "" /\ strip s = s /\
  no_char is_comma s = true /\ no_char is_newline s = true.

(** The content of a file in which every line is ended. *)
Definition ends_lines (content : string) : Prop :=
  content = "" \/ exists c, content = c ++ newline.

(** The tokens [load_tokens] reads from a tokens.txt with this content. *)
Definition tokens_of (file : option string) : list (string * string) :=
  Processor.load_tokens (option_map readlines file).

(** A line that ends in a newline and holds no other line break, and a
    last line that is not ended. *)
Definition complete_line (l : string) : Prop :=
  exists body, l = body ++ newline /\ no_char is_newline body = true.

Definition partial_line (l : string) : Prop :=
  l <> "" /\ no_char is_newline l = true.

(** The lines of a text file as [readlines] gives them. *)
Fixpoint file_lines (ls : list string) : Prop :=
  match ls with
  | [] => True
  | l :: rest =>
      match rest with
      | [] => complete_line l \/ partial_line l
      | _ => complete_line l /\ file_lines rest
      end
  end.

(** The tasks that hold the semaphore: those at the await of
    [evaluate_trader]. *)
Definition is_evaluating (st : Processor.task_status) : bool :=
  match st with Processor.Evaluating => true | _ => false end.

Definition in_flight (sts : list Processor.task_status) : nat :=
  List.length (List.filter is_evaluating sts).

(** Between [p] and [p'] the stop flag was not lowered, and it was
    raised only together with a fatal notification. *)
Definition stops_loudly (p p' : Processor.processor) : Prop :=
  exists new,
    Processor.calls p' = (Processor.calls p ++ new)%list /\
    (Processor.stop_processing p = true -> Processor.stop_processing p' = true) /\
    (Processor.stop_processing p = false -> Processor.stop_processing p' = true ->
     exists message, In (Processor.FatalCallback message) new).

(** The row of wallet [a] for the target says PASS. *)
Definition has_pass_row (p : Processor.processor) (token_address a : string) : bool :=
  match Processor.traders p !! (a, token_address) with
  | Some row => String.eqb (Processor.evaluation_result row) "PASS"
  | None => false
  end.

(** The finished tasks whose wallet has a PASS row. *)
Fixpoint passed_rows (p : Processor.processor) (token_address : string)
    (ts : list pyval) (sts : list Processor.task_status) : nat :=
  match ts, sts with
  | t :: ts', st :: sts' =>
      ((if Processor.is_finished st &&
           match address_str t with
           | Some a => has_pass_row p token_address a
           | None => false
           end
        then 1 else 0)
       + passed_rows p token_address ts' sts')%nat
  | _, _ => 0%nat
  end.

(** The target a result is about, as tokens.txt lists it. *)
Definition result_key (res : Processor.result) : string * string :=
  (Processor.res_token_address res, Processor.res_token_name res).

End Scenario.

(** ** The evaluator *)

Section EvaluatorFacts.
Import Gmgn Scenario.

Variable float_of_str : string -> option Q.


(** The entries of the stats dict that the filters read. *)
Lemma build_stats_fields (d : dict) (top_hold : pyval) (stats : dict) :
  build_stats float_of_str (PDict d) top_hold = Ret stats ->
  field stats "tags" = dict_get d "tags" (PList []) /\
  field stats "pnl_pct_30d" = dict_get d "pnl_30d" (PFloat 0) /\
  exists hs tops,
    py_iter top_hold = Ret hs /\
    omapM (holding_entry float_of_str) hs = Ret tops /\
    field stats "top_holdings" = PList tops.
Proof.
  unfold build_stats. cbn [py_get obind].
  destruct (py_add _ _) as [tx7| |]; cbn [obind]; try discriminate.
  destruct (py_add _ _) as [tx30| |]; cbn [obind]; try discriminate.
  destruct (py_iter top_hold) as [hs| |]; cbn [obind]; try discriminate.
  destruct (omapM _ hs) as [tops| |] eqn:Htops; cbn [obind]; try discriminate.
  intros [= <-]. repeat split. exists hs, tops. repeat split. exact Htops.
Qed.

Lemma truthy_dict (d : dict) : d <> [] -> truthy (PDict d) = true.
Proof. destruct d; [congruence | reflexivity]. Qed.

(** [evaluate_trader] on a non-empty summary is the filters applied to
    the fetched stats. *)
Lemma evaluate_trader_filters (fetch : fetcher) (wallet period : string)
    (min_pnl30 min_roi : Q) (top_n : Z) (d : dict) (stats : dict) :
  fetch (wallet_stat_url wallet period) = Ret (PDict d) ->
  d <> [] ->
  fetched_stats float_of_str fetch wallet (PDict d) top_n = Ret stats ->
  evaluate_trader float_of_str fetch wallet period min_pnl30 min_roi top_n
  = apply_filters stats min_pnl30 min_roi.
Proof.
  intros Hfetch Hd Hstats. unfold evaluate_trader, fetched_stats in *.
  rewrite Hfetch. cbn [obind]. rewrite (truthy_dict d Hd). cbn [negb].
  destruct (get_wallet_holdings fetch wallet) as [h| |]; cbn [obind] in *;
    try discriminate.
  destruct (py_slice_to h top_n) as [t| |]; cbn [obind] in *; try discriminate.
  rewrite Hstats. reflexivity.
Qed.


(** The entries of [stats["top_holdings"]] carry a float ROI, so the
    ROI filter never raises. *)
Lemma holding_entry_roi (h e : pyval) :
  holding_entry float_of_str h = Ret e -> exists q, roi_of e = PFloat q.
Proof.
  unfold holding_entry.
  destruct (py_get h "token" _) as [tok| |]; cbn [obind]; try discriminate.
  destruct (py_get tok "symbol" _) as [sym| |]; cbn [obind]; try discriminate.
  destruct (py_get h "total_profit_pnl" _) as [pnl| |]; cbn [obind]; try discriminate.
  assert (Hf : forall r, py_float float_of_str pnl = Ret r -> exists q, r = PFloat q).
  { unfold py_float. intros r.
    destruct pnl; cbn [py_num];
      try (intros [= <-]; eexists; reflexivity); try discriminate.
    destruct (float_of_str s); [intros [= <-]; eexists; reflexivity | discriminate]. }
  destruct (py_float float_of_str pnl) as [r| |]; cbn [obind]; try discriminate.
  destruct (Hf r eq_refl) as [q ->]. intros [= <-]. exists q. reflexivity.
Qed.

Lemma all_roi_below_total (hs tops : list pyval) (min_roi : Q) :
  omapM (holding_entry float_of_str) hs = Ret tops ->
  exists b, all_roi_below tops min_roi = Ret b.
Proof.
  revert tops. induction hs as [|h hs IH]; intros tops; cbn [omapM obind].
  - intros [= <-]. exists true. reflexivity.
  - destruct (holding_entry float_of_str h) as [e| |] eqn:He; cbn [obind];
      try discriminate.
    destruct (omapM _ hs) as [es| |]; cbn [obind]; try discriminate.
    intros [= <-]. destruct (holding_entry_roi _ _ He) as [q Hq].
    destruct (IH es eq_refl) as [b Hb].
    cbn [all_roi_below]. rewrite Hq. cbn [py_lt py_num obind].
    destruct (negb (Qle_bool min_roi q)); [exists b; exact Hb | exists false; reflexivity].
Qed.

(** C4. The 30-day PnL filter is exclusive at its boundary: a wallet
    with a non-empty summary and no disallowed tag whose 30-day PnL
    percent equals the threshold is given [PNL30_LOW]; the wallet gets
    past this filter exactly when the value is strictly greater than
    the threshold. *)
Theorem pnl30_boundary_is_exclusive (fetch : fetcher) (wallet period : string)
    (min_pnl30 min_roi : Q) (top_n : Z) (d : dict) (stats : dict) (x : Q) :
  fetch (wallet_stat_url wallet period) = Ret (PDict d) ->
  d <> [] ->
  py_str_in "sandwich_bot" (dict_get d "tags" (PList [])) = Ret false ->
  py_num (dict_get d "pnl_30d" (PFloat 0)) = Some x ->
  fetched_stats float_of_str fetch wallet (PDict d) top_n = Ret stats ->
  let result :=
    evaluate_trader float_of_str fetch wallet period min_pnl30 min_roi top_n in
  ((x == min_pnl30)%Q -> result = Ret ("PNL30_LOW", stats)) /\
  ((x <= min_pnl30)%Q <-> result = Ret ("PNL30_LOW", stats)) /\
  ((min_pnl30 < x)%Q <->
     result = Ret ("ROI_LOW", stats) \/ result = Ret ("PASS", stats)).
Proof.
  intros Hfetch Hd Htags Hnum Hstats result.
  assert (Hres : result = apply_filters stats min_pnl30 min_roi).
  { apply evaluate_trader_filters with (d := d); assumption. }
  unfold fetched_stats in Hstats.
  destruct (get_wallet_holdings fetch wallet) as [h| |]; cbn [obind] in Hstats;
    try discriminate.
  destruct (py_slice_to h top_n) as [t| |]; cbn [obind] in Hstats; try discriminate.
  destruct (build_stats_fields _ _ _ Hstats) as (Ht & Hp & hs & tops & Hhs & Htops & Hf).
  assert (Hlow : (x <= min_pnl30)%Q -> result = Ret ("PNL30_LOW", stats)).
  { intros Hle. rewrite Hres. unfold apply_filters.
    rewrite Ht, Htags. cbn [obind]. rewrite Hp. unfold py_le. rewrite Hnum.
    cbn [obind]. apply Qle_bool_iff in Hle. rewrite Hle. reflexivity. }
  assert (Hhigh : (min_pnl30 < x)%Q ->
                  result = Ret ("ROI_LOW", stats) \/ result = Ret ("PASS", stats)).
  { intros Hlt. rewrite Hres. unfold apply_filters.
    rewrite Ht, Htags. cbn [obind]. rewrite Hp. unfold py_le. rewrite Hnum.
    cbn [obind].
    assert (Hb : Qle_bool x min_pnl30 = false).
    { destruct (Qle_bool x min_pnl30) eqn:E; [|reflexivity].
      apply Qle_bool_iff in E. exfalso. exact (Qlt_not_le _ _ Hlt E). }
    rewrite Hb, Hf. cbn [py_iter obind].
    destruct (all_roi_below_total hs tops min_roi Htops) as [[|] ->];
      cbn [obind]; [left | right]; reflexivity. }
  split; [|split].
  - intros Heq. apply Hlow. rewrite Heq. apply Qle_refl.
  - split; [exact Hlow|]. intros Hr.
    destruct (Qlt_le_dec min_pnl30 x) as [Hlt|Hle]; [|exact Hle].
    destruct (Hhigh Hlt) as [E|E]; rewrite E in Hr; discriminate.
  - split; [exact Hhigh|]. intros Hr.
    destruct (Qlt_le_dec min_pnl30 x) as [Hlt|Hle]; [exact Hlt|].
    rewrite (Hlow Hle) in Hr. destruct Hr; discriminate.
Qed.

Lemma firstn_nil_any {A} (n : nat) : firstn n (@nil A) = [].
Proof. destruct n; reflexivity. Qed.

(** C10. When the holdings fetch yields an empty list, the test "every
    holding is below the ROI threshold" holds vacuously: a wallet that
    gets past the tag and PnL filters is given [ROI_LOW], and no wallet
    is given [PASS]. *)
Theorem empty_holdings_is_roi_low (fetch : fetcher) (wallet period : string)
    (min_pnl30 min_roi : Q) (top_n : Z) :
  get_wallet_holdings fetch wallet = Ret (PList []) ->
  let result :=
    evaluate_trader float_of_str fetch wallet period min_pnl30 min_roi top_n in
  (forall (d : dict) (stats : dict) (x : Q),
     fetch (wallet_stat_url wallet period) = Ret (PDict d) ->
     d <> [] ->
     py_str_in "sandwich_bot" (dict_get d "tags" (PList [])) = Ret false ->
     py_num (dict_get d "pnl_30d" (PFloat 0)) = Some x ->
     (min_pnl30 < x)%Q ->
     build_stats float_of_str (PDict d) (PList []) = Ret stats ->
     result = Ret ("ROI_LOW", stats)) /\
  (forall stats, result <> Ret ("PASS", stats)).
Proof.
  intros Hhold result.
  assert (Hroi : forall d stats,
            build_stats float_of_str (PDict d) (PList []) = Ret stats ->
            forall r, apply_filters stats min_pnl30 min_roi = Ret r ->
                      fst r <> "PASS"
                      /\ (py_str_in "sandwich_bot" (dict_get d "tags" (PList [])) = Ret false ->
                          py_le (dict_get d "pnl_30d" (PFloat 0)) min_pnl30 = Ret false ->
                          r = ("ROI_LOW", stats))).
  { intros d stats Hstats r.
    destruct (build_stats_fields _ _ _ Hstats) as (Ht & Hp & hs & tops & Hhs & Htops & Hf).
    cbn [py_iter] in Hhs. injection Hhs as <-.
    cbn [omapM] in Htops. injection Htops as <-.
    unfold apply_filters. rewrite Ht, Hp, Hf.
    destruct (py_str_in _ _) as [[|]| |]; cbn [obind]; try discriminate.
    { intros [= <-]. split; [discriminate|]. discriminate. }
    destruct (py_le _ _) as [[|]| |]; cbn [obind py_iter all_roi_below];
      try discriminate.
    { intros [= <-]. split; [discriminate|]. discriminate. }
    intros [= <-]. split; [discriminate|]. reflexivity. }
  assert (Hev : forall d, fetch (wallet_stat_url wallet period) = Ret (PDict d) ->
            d <> [] ->
            result = (do stats <- build_stats float_of_str (PDict d) (PList []);
                      apply_filters stats min_pnl30 min_roi)).
  { intros d Hfetch Hd. unfold result, evaluate_trader.
    rewrite Hfetch. cbn [obind]. rewrite (truthy_dict d Hd). cbn [negb].
    rewrite Hhold. cbn [obind py_slice_to]. rewrite firstn_nil_any. reflexivity. }
  split.
  - intros d stats x Hfetch Hd Htags Hnum Hlt Hstats.
    rewrite (Hev d Hfetch Hd), Hstats. cbn [obind].
    assert (Hle : py_le (dict_get d "pnl_30d" (PFloat 0)) min_pnl30 = Ret false).
    { unfold py_le. rewrite Hnum. f_equal.
      destruct (Qle_bool x min_pnl30) eqn:E; [|reflexivity].
      apply Qle_bool_iff in E. exfalso. exact (Qlt_not_le _ _ Hlt E). }
    destruct (build_stats_fields _ _ _ Hstats) as (Ht & Hp & hs & tops & Hhs & Htops & Hf).
    cbn [py_iter] in Hhs. injection Hhs as <-.
    cbn [omapM] in Htops. injection Htops as <-.
    unfold apply_filters. rewrite Ht, Hp, Hf, Htags, Hle. reflexivity.
  - intros stats Hpass. unfold result, evaluate_trader in Hpass.
    destruct (fetch (wallet_stat_url wallet period)) as [data| |] eqn:Hfetch;
      cbn [obind] in Hpass; try discriminate.
    destruct (truthy data) eqn:Htr; cbn [negb] in Hpass; [|discriminate].
    rewrite Hhold in Hpass. cbn [obind py_slice_to] in Hpass.
    rewrite firstn_nil_any in Hpass.
    destruct data as [| | | | | |d];
      try (unfold build_stats in Hpass; cbn [py_get obind] in Hpass; discriminate).
    destruct (build_stats float_of_str (PDict d) (PList [])) as [st| |] eqn:Hst;
      cbn [obind] in Hpass; try discriminate.
    destruct (Hroi d st Hst _ Hpass) as [Hne _]. apply Hne. reflexivity.
Qed.

End EvaluatorFacts.

Section EvaluatorWitnesses.
Import Gmgn Scenario.


(** The witness of C4: a wallet at exactly 0.75 with a winning holding. *)
Lemma pnl30_boundary_is_exclusive_witness :
  exists stats,
    evaluate_trader parse_demo (fetch_of edge_summary winning_holdings)
      "W2" default_period default_min_pnl30 default_min_roi default_top_n
    = Ret ("PNL30_LOW", stats).
Proof.
  eexists.
  refine (proj1 (pnl30_boundary_is_exclusive parse_demo
                   (fetch_of edge_summary winning_holdings)
                   "W2" default_period default_min_pnl30 default_min_roi
                   default_top_n edge_summary _ 0.75%Q _ _ _ _ _) _).
  - reflexivity.
  - discriminate.
  - reflexivity.
  - reflexivity.
  - reflexivity.
  - reflexivity.
Defined.

(** The witness of C10: a wallet past the first two filters whose
    holdings list is empty. *)
Lemma empty_holdings_is_roi_low_witness :
  exists stats,
    evaluate_trader parse_demo (fetch_of good_summary [("holdings", PList [])])
      "W3" default_period default_min_pnl30 default_min_roi default_top_n
    = Ret ("ROI_LOW", stats).
Proof.
  eexists.
  refine (proj1 (empty_holdings_is_roi_low parse_demo
                   (fetch_of good_summary [("holdings", PList [])])
                   "W3" default_period default_min_pnl30 default_min_roi
                   default_top_n _) good_summary _ 0.9%Q _ _ _ _ _ _).
  - reflexivity.
  - reflexivity.
  - discriminate.
  - reflexivity.
  - reflexivity.
  - reflexivity.
  - reflexivity.
Defined.

End EvaluatorWitnesses.

(** ** The fetch client *)

Section FetchFacts.
Import Gmgn Scenario.

Variable up : upstream.
Variable stop : stop_callback.
Variable url : string.

Lemma loop_stopped (fuel attempt : nat) (bound : bool) :
  stop_says stop url (S attempt) BeforeAttempt = true ->
  sync_fetch_loop up stop url (S fuel) attempt bound
  = (Raise stopped_by_user,
     EWaitSlot (S attempt) :: stop_events stop url (S attempt) BeforeAttempt).
Proof. intros H. cbn [sync_fetch_loop]. rewrite H. reflexivity. Qed.

(** One iteration that ends in a sleep of [secs] seconds. *)
Lemma loop_retry (fuel attempt : nat) (bound : bool) (evs : list event) (secs : Q) :
  stop_says stop url (S attempt) BeforeAttempt = false ->
  snd (try_body up stop url (S attempt)) = evs ->
  (fst (try_body up stop url (S attempt)) = Ret (Continue secs) \/
   exists e, fst (try_body up stop url (S attempt)) = Raise e /\
             ((is_value_error e = false /\ secs = 5%Q) \/
              (is_value_error e = true /\ secs = 2%Q /\
               bound || binds_resp (http up (S attempt)) = true))) ->
  sync_fetch_loop up stop url (S fuel) attempt bound
  = retry_after up stop url fuel (S attempt)
      (bound || binds_resp (http up (S attempt))) evs secs.
Proof.
  intros Hstop Hevs Hbody. cbn [sync_fetch_loop]. rewrite Hstop, Hevs.
  unfold retry_after, attempt_events, after_events.
  destruct Hbody as [-> | (e & -> & [[-> ->] | (-> & -> & ->)])];
    cbn [fst snd]; do 2 f_equal; rewrite <- app_assoc; reflexivity.
Qed.

(** The shape of the trace of one iteration. *)
Lemma loop_trace (fuel attempt : nat) (bound : bool) :
  let k := S attempt in
  let head := EWaitSlot k :: stop_events stop url k BeforeAttempt in
  (stop_says stop url k BeforeAttempt = true /\
   snd (sync_fetch_loop up stop url (S fuel) attempt bound) = head) \/
  (stop_says stop url k BeforeAttempt = false /\
   exists rest,
     snd (sync_fetch_loop up stop url (S fuel) attempt bound)
     = (head ++ EGet k :: snd (try_body up stop url k) ++ rest)%list /\
     (rest = [] \/
      exists secs bound',
        rest = ESleep k secs :: snd (sync_fetch_loop up stop url fuel k bound'))).
Proof.
  intros k head. cbn [sync_fetch_loop]. fold k. fold head.
  destruct (stop_says stop url k BeforeAttempt); [left; split; reflexivity|].
  right. split; [reflexivity|].
  assert (Hnil : forall (xs ys : list event), (xs ++ ys)%list = (xs ++ ys ++ [])%list).
  { intros. rewrite app_nil_r. reflexivity. }
  assert (Hgo : forall secs b,
    exists rest,
      snd (after_events ((head ++ EGet k :: snd (try_body up stop url k)) ++ [ESleep k secs])
             (sync_fetch_loop up stop url fuel k b))
      = (head ++ EGet k :: snd (try_body up stop url k) ++ rest)%list /\
      (rest = [] \/
       exists secs' bound',
         rest = ESleep k secs' :: snd (sync_fetch_loop up stop url fuel k bound'))).
  { intros secs b. eexists. split; [|right; exists secs, b; reflexivity].
    unfold after_events. cbn [snd]. rewrite <- !app_assoc. reflexivity. }
  destruct (fst (try_body up stop url k)) as [[secs|data]|e|].
  - apply Hgo.
  - exists []. split; [apply (Hnil head (EGet k :: _))|left; reflexivity].
  - destruct (is_value_error e); [|apply Hgo].
    destruct (bound || binds_resp (http up k)); [apply Hgo|].
    exists []. split; [apply (Hnil head (EGet k :: _))|left; reflexivity].
  - exists []. split; [apply (Hnil head (EGet k :: _))|left; reflexivity].
Qed.

Lemma in_stop_events (e : event) (k : nat) (ph : phase) :
  In e (stop_events stop url k ph) -> e = EStopCheck k ph (stop_says stop url k ph).
Proof.
  unfold stop_events, stop_says. destruct stop as [f|]; cbn [In]; [|tauto].
  intros [<-|[]]. reflexivity.
Qed.

Lemma in_try_body (e : event) (k : nat) :
  In e (snd (try_body up stop url k)) ->
  http up k = Status429 /\ e = EStopCheck k BeforeSleep (stop_says stop url k BeforeSleep).
Proof.
  unfold try_body. destruct (http up k); cbn [snd In]; try tauto.
  destruct (stop_says stop url k BeforeSleep) eqn:E; cbn [snd]; intros H;
    apply in_stop_events in H; rewrite E in H; split; auto.
Qed.

(** A GET is issued only at an attempt whose check did not say stop. *)
Lemma loop_gets (fuel : nat) :
  forall attempt bound k,
    In (EGet k) (snd (sync_fetch_loop up stop url fuel attempt bound)) ->
    stop_says stop url k BeforeAttempt = false.
Proof.
  induction fuel as [|fuel IH]; intros attempt bound k; [cbn; tauto|].
  destruct (loop_trace fuel attempt bound) as [[_ ->] | (Hs & rest & -> & Hrest)].
  - cbn [In]. intros [H|H]; [discriminate|]. apply in_stop_events in H. discriminate.
  - rewrite app_comm_cons, !in_app_iff. cbn [In].
    intros [[H|H] | [[H|H] | H]].
    + discriminate.
    + apply in_stop_events in H. discriminate.
    + injection H as <-. exact Hs.
    + apply in_try_body in H. destruct H as [_ H]. discriminate.
    + destruct Hrest as [-> | (secs & b & ->)]; [destruct H|].
      destruct H as [H|H]; [discriminate|]. exact (IH _ _ _ H).
Qed.

(** Before a sleep the predicate is consulted only after a 429. *)
Lemma loop_sleep_checks (fuel : nat) :
  forall attempt bound k b,
    In (EStopCheck k BeforeSleep b) (snd (sync_fetch_loop up stop url fuel attempt bound)) ->
    http up k = Status429.
Proof.
  induction fuel as [|fuel IH]; intros attempt bound k b; [cbn; tauto|].
  destruct (loop_trace fuel attempt bound) as [[_ ->] | (Hs & rest & -> & Hrest)].
  - cbn [In]. intros [H|H]; [discriminate|]. apply in_stop_events in H. discriminate.
  - rewrite app_comm_cons, !in_app_iff. cbn [In].
    intros [[H|H] | [[H|H] | H]].
    + discriminate.
    + apply in_stop_events in H. discriminate.
    + discriminate.
    + apply in_try_body in H. destruct H as [H429 H]. injection H as -> _. exact H429.
    + destruct Hrest as [-> | (secs & b' & ->)]; [destruct H|].
      destruct H as [H|H]; [discriminate|]. exact (IH _ _ _ _ H).
Qed.

Lemma sleeps_app (xs ys : list event) : sleeps (xs ++ ys) = (sleeps xs ++ sleeps ys)%list.
Proof.
  induction xs as [|[] xs IH]; cbn [sleeps app]; rewrite ?IH; reflexivity.
Qed.

Lemma sleeps_stop_events (k : nat) (ph : phase) : sleeps (stop_events stop url k ph) = [].
Proof. unfold stop_events. destruct stop; reflexivity. Qed.

(** Under persistent throttling and no stop request the loop never
    ends: every iteration sleeps [3 + uniform(0, 2)] and retries. *)
Lemma throttled_forever :
  (forall j, http up j = Status429) ->
  (forall j ph, stop_says stop url j ph = false) ->
  forall fuel attempt bound,
    fst (sync_fetch_loop up stop url fuel attempt bound) = Spin /\
    sleeps (snd (sync_fetch_loop up stop url fuel attempt bound))
    = map (fun k => (3 + uniform 0 2 (rnd up k))%Q) (seq (S attempt) fuel).
Proof.
  intros H429 Hstop. induction fuel as [|fuel IH]; intros attempt bound.
  - split; reflexivity.
  - rewrite (loop_retry fuel attempt bound
               (stop_events stop url (S attempt) BeforeSleep)
               (3 + uniform 0 2 (rnd up (S attempt)))%Q).
    + unfold retry_after, after_events, attempt_events. cbn [fst snd].
      destruct (IH (S attempt) (bound || binds_resp (http up (S attempt)))) as [-> Hsl].
      split; [reflexivity|].
      rewrite sleeps_app, Hsl. cbn [sleeps]. rewrite sleeps_app. cbn [sleeps].
      rewrite sleeps_app, !sleeps_stop_events. reflexivity.
    + apply Hstop.
    + unfold try_body. rewrite H429, Hstop. reflexivity.
    + left. unfold try_body. rewrite H429, Hstop. reflexivity.
Qed.

End FetchFacts.

Section FetchClaims.
Import Gmgn Scenario.



(** C6, as stated, fails: the flag is raised while the first GET is in
    flight, the body carries a non-zero code, and the retry sleep of
    that attempt is taken all the same; the fetch is cancelled only at
    the next attempt. *)
Lemma stop_not_observed_before_every_sleep :
  _sync_fetch busy_once (Some raised_during_first_get) "u" 3
  = (Raise stopped_by_user,
     [EWaitSlot 1; EStopCheck 1 BeforeAttempt false; EGet 1;
      ESleep 1 (2 + uniform 0 1 (1 # 4))%Q;
      EWaitSlot 2; EStopCheck 2 BeforeAttempt true]) /\
  ~ honours_stop raised_during_first_get "u"
      (snd (_sync_fetch busy_once (Some raised_during_first_get) "u" 3)).
Proof.
  split; [reflexivity|].
  intros [_ Hsleep].
  specialize (Hsleep 1%nat (2 + uniform 0 1 (1 # 4))%Q).
  cbn in Hsleep. discriminate Hsleep. right; right; right; left. reflexivity.
Qed.

(** C6, amended. The stop predicate is consulted once the rate-limiter
    slot is acquired and before the GET of each attempt: when it says
    stop there, the fetch raises "Processing stopped by user" at once,
    and no GET is ever issued at such an attempt.  Before a retry sleep
    the predicate is consulted only after a 429 response. *)
Theorem stop_observed_before_attempt (up : upstream)
    (f : string -> nat -> phase -> bool) (url : string) :
  (forall fuel attempt bound,
     f url (S attempt) BeforeAttempt = true ->
     sync_fetch_loop up (Some f) url (S fuel) attempt bound
     = (Raise stopped_by_user,
        [EWaitSlot (S attempt); EStopCheck (S attempt) BeforeAttempt true])) /\
  (forall fuel k,
     In (EGet k) (snd (_sync_fetch up (Some f) url fuel)) ->
     f url k BeforeAttempt = false) /\
  (forall fuel k b,
     In (EStopCheck k BeforeSleep b) (snd (_sync_fetch up (Some f) url fuel)) ->
     http up k = Status429).
Proof.
  split; [|split].
  - intros fuel attempt bound Hf.
    rewrite loop_stopped by exact Hf. cbn [stop_events]. rewrite Hf. reflexivity.
  - intros fuel k. unfold _sync_fetch. apply (loop_gets up (Some f) url).
  - intros fuel k b. unfold _sync_fetch. apply (loop_sleep_checks up (Some f) url).
Qed.

(** The witness of the amended C6: the flag is up when the second
    attempt starts. *)
Lemma stop_observed_before_attempt_witness :
  sync_fetch_loop busy_once (Some raised_during_first_get) "u" 2 1 true
  = (Raise stopped_by_user, [EWaitSlot 2; EStopCheck 2 BeforeAttempt true]).
Proof.
  exact (proj1 (stop_observed_before_attempt busy_once raised_during_first_get "u")
           1%nat 1%nat true eq_refl).
Defined.

End FetchClaims.

(** ** The wallet list *)

Section WalletListFacts.
Import Processor Scenario.

Lemma key_eq_str (a : string) (v : pyval) :
  key_eq (PStr a) v = true <-> v = PStr a.
Proof.
  destruct v; cbn; try (split; [discriminate | discriminate]).
  rewrite String.eqb_eq. split; [intros ->; reflexivity | intros [= ->]; reflexivity].
Qed.

Lemma seen_str (a : string) (seen : list pyval) :
  existsb (key_eq (PStr a)) seen = true <-> In (PStr a) seen.
Proof.
  rewrite existsb_exists. split.
  - intros (v & Hin & Hk). apply key_eq_str in Hk. subst v. exact Hin.
  - intros Hin. exists (PStr a). split; [exact Hin | apply key_eq_str; reflexivity].
Qed.

(** How the loop treats one entry. *)
Lemma address_str_some (d : dict) (a : string) :
  address_str (PDict d) = Some a ->
  dict_get d "address" PNone = PStr a /\ truthy (PStr a) = true.
Proof.
  unfold address_str. destruct (dict_get d "address" PNone); try discriminate.
  cbn [truthy]. destruct (String.eqb s "") eqn:E; [discriminate|].
  intros [= <-]. rewrite E. split; reflexivity.
Qed.

Lemma address_str_none (t : pyval) :
  str_addressed t -> address_str t = None ->
  match t with
  | PDict d => truthy (dict_get d "address" PNone) = false
  | _ => True
  end.
Proof.
  intros Hs Hn. destruct t; trivial.
  destruct (truthy (dict_get d "address" PNone)) eqn:Ht; [|reflexivity].
  destruct (Hs d eq_refl Ht) as [a Ha]. unfold address_str in Hn.
  rewrite Ha in Hn, Ht. cbn [truthy] in Ht.
  destruct (String.eqb a ""); [discriminate Ht | discriminate Hn].
Qed.

(** The loop of [fetch_traders_data] with the stop flag down: what it
    appends to [unique_traders]. *)
Lemma in_addresses (x : pyval) (a : string) (ts : list pyval) :
  x ∈ ts -> address_str x = Some a -> In a (addresses ts).
Proof.
  intros Hx Ha. unfold addresses. apply list_elem_of_In, list_elem_of_omap.
  exists x. split; [exact Hx | exact Ha].
Qed.

Lemma addresses_cons (t : pyval) (ts : list pyval) :
  addresses (t :: ts)
  = match address_str t with Some a => a :: addresses ts | None => addresses ts end.
Proof. reflexivity. Qed.

(** An entry the loop skips. *)
Lemma kept_ok_skip (t : pyval) (todo seen kept : list pyval) :
  address_str t = None \/ (exists a, address_str t = Some a /\ In (PStr a) seen) ->
  kept_ok todo seen kept -> kept_ok (t :: todo) seen kept.
Proof.
  intros Hcase (Hsub & Hsome & Hnd & Hin & Hfirst).
  refine (conj _ (conj Hsome (conj Hnd (conj _ _)))).
  - apply sublist_cons. exact Hsub.
  - intros a. rewrite Hin, addresses_cons. split; intros [Ha Hns]; (split; [|exact Hns]).
    + destruct (address_str t); [right|]; exact Ha.
    + destruct Hcase as [Hn | (b & Hb & Hseen)].
      * rewrite Hn in Ha. exact Ha.
      * rewrite Hb in Ha. destruct Ha as [<-|Ha]; [contradiction | exact Ha].
  - rewrite Forall_forall in *. intros x Hx.
    destruct (Hfirst x Hx) as (pre & post & -> & Hpre).
    exists (t :: pre), post. split; [reflexivity|].
    intros t' [<-|Ht']; [|exact (Hpre t' Ht')].
    destruct (Hsome x Hx) as [ax Hax].
    destruct Hcase as [Hn | (b & Hb & Hseen)]; [congruence|].
    rewrite Hb, Hax. intros [= ->].
    pose proof (in_addresses x ax kept Hx Hax) as Hk.
    apply Hin in Hk. tauto.
Qed.

(** An entry the loop keeps. *)
Lemma kept_ok_keep (t : pyval) (a : string) (todo seen kept : list pyval) :
  address_str t = Some a -> ~ In (PStr a) seen ->
  kept_ok todo (PStr a :: seen) kept -> kept_ok (t :: todo) seen (t :: kept).
Proof.
  intros Haddr Hns (Hsub & Hsome & Hnd & Hin & Hfirst).
  assert (Hnk : ~ In a (addresses kept)).
  { intros Hi. apply Hin in Hi. destruct Hi as [_ Hi]. apply Hi. left. reflexivity. }
  refine (conj _ (conj _ (conj _ (conj _ _)))).
  - apply sublist_skip. exact Hsub.
  - constructor; [rewrite Haddr; eexists; reflexivity | exact Hsome].
  - rewrite addresses_cons, Haddr. apply NoDup_cons. split; [|exact Hnd].
    intros Hi. apply Hnk. apply list_elem_of_In. exact Hi.
  - intros b. rewrite !addresses_cons, Haddr. cbn [In]. rewrite Hin. cbn [In].
    split.
    + intros [<-|[Hb Hnot]]; [split; [left; reflexivity | exact Hns]|].
      split; [right; exact Hb|]. intros Hi. apply Hnot. right. exact Hi.
    + intros [[<-|Hb] Hnot]; [left; reflexivity|].
      destruct (String.eqb_spec a b) as [->|Hne]; [left; reflexivity|].
      right. split; [exact Hb|]. intros [[= ->]|Hi]; [congruence | exact (Hnot Hi)].
  - constructor.
    + exists [], todo. split; [reflexivity|]. intros t' [].
    + rewrite Forall_forall in *. intros x Hx.
      destruct (Hfirst x Hx) as (pre & post & -> & Hpre).
      exists (t :: pre), post. split; [reflexivity|].
      intros t' [<-|Ht']; [|exact (Hpre t' Ht')].
      destruct (Hsome x Hx) as [ax Hax]. rewrite Haddr, Hax.
      intros [= ->]. apply Hnk. exact (in_addresses x ax kept Hx Hax).
Qed.

(** The loop of [fetch_traders_data] with the stop flag down: what it
    appends to [unique_traders]. *)
Lemma unique_loop_spec (todo : list pyval) :
  Forall str_addressed todo ->
  forall seen unique,
  exists kept,
    unique_loop false todo seen unique = Ret (unique ++ kept)%list /\
    kept_ok todo seen kept.
Proof.
  induction 1 as [|t todo Ht Htodo IH]; intros seen unique.
  - exists []. cbn [unique_loop]. rewrite app_nil_r. split; [reflexivity|].
    refine (conj _ (conj _ (conj _ (conj _ _)))); try constructor; cbn; tauto.
  - destruct (address_str t) as [a|] eqn:Haddr.
    + destruct t as [| | | | | |d]; try discriminate.
      destruct (address_str_some d a Haddr) as [Hget Htruthy].
      destruct (existsb (key_eq (PStr a)) seen) eqn:Hseen.
      * destruct (IH seen unique) as (kept & Hr & Hok). exists kept. split.
        -- cbn [unique_loop]. rewrite Hget, Htruthy. cbn [hashable]. rewrite Hseen.
           exact Hr.
        -- apply kept_ok_skip; [|exact Hok].
           right. exists a. split; [exact Haddr | apply seen_str; exact Hseen].
      * assert (Hns : ~ In (PStr a) seen).
        { intros Hi. apply seen_str in Hi. congruence. }
        destruct (IH (PStr a :: seen) (unique ++ [PDict d])%list) as (kept & Hr & Hok).
        exists (PDict d :: kept). split.
        -- cbn [unique_loop]. rewrite Hget, Htruthy. cbn [hashable]. rewrite Hseen.
           rewrite Hr, <- app_assoc. reflexivity.
        -- apply (kept_ok_keep _ a); assumption.
    + destruct (IH seen unique) as (kept & Hr & Hok). exists kept. split.
      * pose proof (address_str_none t Ht Haddr) as Hf.
        destruct t; try exact Hr. cbn [unique_loop]. rewrite Hf. exact Hr.
      * apply kept_ok_skip; [left; exact Haddr | exact Hok].
Qed.

(** C7. With the stop flag down, the deduplication step of
    [fetch_traders_data] keeps, for every address of the fetched list,
    exactly one entry: the first that carries it, in the order of the
    fetched list. *)
Theorem dedup_keeps_first_occurrences (traders : list pyval) (p : processor) :
  stop_processing p = false ->
  Forall str_addressed traders ->
  exists unique_traders,
    fetch_traders_data (Ret traders) p = (Ret unique_traders, p) /\
    sublist unique_traders traders /\
    Forall (fun t => is_Some (address_str t)) unique_traders /\
    NoDup (addresses unique_traders) /\
    (forall a, In a (addresses traders) <-> In a (addresses unique_traders)) /\
    Forall (fun t => first_with_address t traders) unique_traders.
Proof.
  intros Hstop Hstr.
  destruct (unique_loop_spec traders Hstr [] []) as (kept & Hr & Hsub & Hsome & Hnd & Hin & Hf).
  exists kept. unfold fetch_traders_data. cbn [obind]. rewrite Hstop, Hr. cbn [app].
  refine (conj eq_refl (conj Hsub (conj Hsome (conj Hnd (conj _ Hf))))).
  intros a. rewrite Hin. cbn [In]. tauto.
Qed.

End WalletListFacts.

Section WalletListWitness.
Import Processor Scenario.

Lemma str_addressed_trader (a : string) (b s : Z) : str_addressed (trader a b s).
Proof. intros d [= <-] _. exists a. reflexivity. Qed.

(** The witness of C7: the list A, B, A, C. *)
Lemma dedup_keeps_first_occurrences_witness :
  exists unique_traders,
    fetch_traders_data (Ret fetched_abac) (fresh 7) = (Ret unique_traders, fresh 7) /\
    NoDup (addresses unique_traders) /\
    (forall a, In a (addresses fetched_abac) <-> In a (addresses unique_traders)).
Proof.
  destruct (dedup_keeps_first_occurrences fetched_abac (fresh 7) eq_refl)
    as (u & Hr & _ & _ & Hnd & Hin & _).
  - repeat constructor; apply str_addressed_trader.
  - exists u. exact (conj Hr (conj Hnd Hin)).
Defined.

End WalletListWitness.

(** ** The coordinator *)

Section StoreFacts.
Import Processor Scenario.

Lemma error_row_is_saved (token_name token_symbol : string) :
  row_of token_name token_symbol "ERROR" error_stats = error_row token_name token_symbol.
Proof. reflexivity. Qed.

Lemma save_error_row (w token_address token_name token_symbol : string) (p : processor) :
  save_trader_data w token_address token_name token_symbol "ERROR" error_stats p
  = (Ret tt, put_row w token_address (error_row token_name token_symbol) p).
Proof. reflexivity. Qed.

(** The messages of the exceptions that can leave the [try] of
    [evaluate_and_save] after the evaluation carry no stop text. *)
Lemma unsupported_no_stop (op : string) (a b : pyval) :
  op = "-" \/ op = "/" -> stop_text (exn_msg (unsupported op a b)) = false.
Proof. intros [-> | ->]; destruct a, b; vm_compute; reflexivity. Qed.

Lemma not_supported_no_stop (a : pyval) :
  stop_text (exn_msg (not_supported ">" a "int")) = false.
Proof. destruct a; vm_compute; reflexivity. Qed.

Lemma bind_error_no_stop (index : nat) (v : pyval) (e : exn) :
  (index <= 21)%nat -> bind_error index v = Some e -> stop_text (exn_msg e) = false.
Proof.
  intros Hle. unfold bind_error.
  destruct v; try discriminate.
  - destruct (_ && _); [discriminate|]. intros [= <-]. vm_compute. reflexivity.
  - intros [= <-]. do 22 (destruct index as [|index]; [vm_compute; reflexivity|]). lia.
  - intros [= <-]. do 22 (destruct index as [|index]; [vm_compute; reflexivity|]). lia.
Qed.

Lemma bind_all_no_stop (vs : list pyval) :
  forall index e,
    (index + List.length vs <= 22)%nat ->
    bind_all index vs = Some e -> stop_text (exn_msg e) = false.
Proof.
  induction vs as [|v vs IH]; intros index e Hle; cbn [bind_all]; [discriminate|].
  cbn [List.length] in Hle.
  destruct (bind_error index v) as [e'|] eqn:Hb.
  - intros [= <-]. apply (bind_error_no_stop index v); [lia | exact Hb].
  - apply IH. lia.
Qed.

Lemma bound_params_no_stop (r : trader_row) (e : exn) :
  bound_params r = Some e -> stop_text (exn_msg e) = false.
Proof.
  unfold bound_params.
  destruct (bind_all 5 _) as [e'|] eqn:H1.
  - intros [= <-]. eapply bind_all_no_stop; [|exact H1]. cbn [List.length]. lia.
  - intros H2. eapply bind_all_no_stop; [|exact H2]. cbn [List.length]. lia.
Qed.

End StoreFacts.

Section TaskFacts.
Import Processor Scenario.

Variables token_address token_name token_symbol : string.
Variable traders_data : list pyval.
Variable evaluate : pyval -> outcome (string * dict).

Lemma py_sub_raises (a b : pyval) (e : exn) :
  py_sub a b = Raise e -> e = unsupported "-" a b.
Proof.
  unfold py_sub. destruct (py_int a), (py_int b), (py_num a), (py_num b);
    try discriminate; intros [= <-]; reflexivity.
Qed.

Lemma py_sub_ends (a b : pyval) : py_sub a b <> Spin.
Proof.
  unfold py_sub. destruct (py_int a), (py_int b), (py_num a), (py_num b); discriminate.
Qed.

Lemma py_gt0_raises (a : pyval) (e : exn) :
  py_gt0 a = Raise e -> e = not_supported ">" a "int".
Proof. unfold py_gt0. destruct (py_num a); [discriminate|]. intros [= <-]. reflexivity. Qed.

Lemma py_gt0_ends (a : pyval) : py_gt0 a <> Spin.
Proof. unfold py_gt0. destruct (py_num a); discriminate. Qed.

Lemma py_div_raises (a b : pyval) (e : exn) :
  py_div a b = Raise e -> stop_text (exn_msg e) = false.
Proof.
  unfold py_div. destruct (py_num a), (py_num b);
    try (intros [= <-]; apply unsupported_no_stop; right; reflexivity).
  destruct (Qzero_b q0); [|discriminate]. intros [= <-]. reflexivity.
Qed.

Lemma py_div_ends (a b : pyval) : py_div a b <> Spin.
Proof.
  unfold py_div. destruct (py_num a), (py_num b); try discriminate.
  destruct (Qzero_b q0); discriminate.
Qed.

(** The [try] of [evaluate_and_save] after an evaluation that returned:
    either the row of the wallet is written, or an exception without
    stop text is raised and the store is as before. *)
Lemma save_evaluated_cases (d : dict) (a reason : string) (gmgn_stats : dict)
    (r : token_run) :
  let res := save_evaluated token_address token_name token_symbol
               (PDict d) (PStr a) reason gmgn_stats r in
  status (snd res) = status r /\
  sem (snd res) = sem r /\
  stop_processing (self (snd res)) = stop_processing (self r) /\
  calls (self (snd res)) = calls (self r) /\
  ((fst res = Ret tt /\
    exists row, traders (self (snd res))
                = <[(a, token_address) := row]> (traders (self r))) \/
   (exists e, fst res = Raise e /\ stop_text (exn_msg e) = false /\
              traders (self (snd res)) = traders (self r))).
Proof.
  unfold save_evaluated. cbn [wallet_str py_get obind].
  set (bought := dict_get d "totalBoughtUSD" (PFloat 0)).
  set (sold := dict_get d "totalSoldUSD" (PFloat 0)).
  assert (Hfail : forall e, stop_text (exn_msg e) = false ->
    let res := (Raise e : outcome unit, r) in
    status (snd res) = status r /\ sem (snd res) = sem r /\
    stop_processing (self (snd res)) = stop_processing (self r) /\
    calls (self (snd res)) = calls (self r) /\
    ((fst res = Ret tt /\
      exists row, traders (self (snd res))
                  = <[(a, token_address) := row]> (traders (self r))) \/
     (exists e0, fst res = Raise e0 /\ stop_text (exn_msg e0) = false /\
                 traders (self (snd res)) = traders (self r)))).
  { intros e He. cbn. repeat (split; [reflexivity|]). right. exists e. auto. }
  destruct (py_sub sold bought) as [profit|e|] eqn:Hsub; cbn [obind].
  2:{ apply Hfail. rewrite (py_sub_raises _ _ _ Hsub).
      apply unsupported_no_stop. left. reflexivity. }
  2:{ exfalso. exact (py_sub_ends _ _ Hsub). }
  destruct (py_gt0 bought) as [positive|e|] eqn:Hgt; cbn [obind].
  2:{ apply Hfail. rewrite (py_gt0_raises _ _ Hgt). apply not_supported_no_stop. }
  2:{ exfalso. exact (py_gt0_ends _ Hgt). }
  assert (Hsave : forall ratio,
    let res :=
      match save_trader_data a token_address token_name token_symbol reason
              (dict_update gmgn_stats
                 [("total_bought_usd", bought); ("total_sold_usd", sold);
                  ("realized_profit_usd", profit); ("realized_profit_ratio", ratio);
                  ("currently_holding_amount",
                   dict_get d "currentlyHoldingAmount" (PFloat 0));
                  ("total_buy_transactions",
                   dict_get d "totalBuyTransactions" (PInt 0));
                  ("total_sell_transactions",
                   dict_get d "totalSellTransactions" (PInt 0))]) (self r) with
      | (Ret _, p) =>
          (Ret tt, if String.eqb reason "PASS" then add_passed (put_self p r)
                   else put_self p r)
      | (Raise e, p) => (Raise e, put_self p r)
      | (Spin, p) => (Spin, put_self p r)
      end in
    status (snd res) = status r /\ sem (snd res) = sem r /\
    stop_processing (self (snd res)) = stop_processing (self r) /\
    calls (self (snd res)) = calls (self r) /\
    ((fst res = Ret tt /\
      exists row, traders (self (snd res))
                  = <[(a, token_address) := row]> (traders (self r))) \/
     (exists e0, fst res = Raise e0 /\ stop_text (exn_msg e0) = false /\
                 traders (self (snd res)) = traders (self r)))).
  { intros ratio. unfold save_trader_data.
    destruct (bound_params _) as [e|] eqn:Hb.
    - cbn. repeat (split; [reflexivity|]). right. exists e.
      split; [reflexivity|]. split; [exact (bound_params_no_stop _ _ Hb) | reflexivity].
    - destruct (String.eqb reason "PASS"); cbn;
        repeat (split; [reflexivity|]); left; (split; [reflexivity|]);
        eexists; reflexivity. }
  destruct positive.
  - destruct (py_div sold bought) as [q|e|] eqn:Hdiv; cbn [obind].
    + destruct q; apply Hsave.
    + apply Hfail. exact (py_div_raises _ _ _ Hdiv).
    + exfalso. exact (py_div_ends _ _ Hdiv).
  - cbn [obind]. apply Hsave.
Qed.

(** The [except] of [evaluate_and_save] for an exception without stop
    text: the ERROR row is written. *)
Lemma on_error_saves (a : string) (e : exn) (r : token_run) :
  stop_text (exn_msg e) = false ->
  on_error token_address token_name token_symbol (PStr a) e r
  = (Ret tt,
     put_self (put_row a token_address (error_row token_name token_symbol) (self r)) r).
Proof. intros He. unfold on_error. rewrite He. reflexivity. Qed.

Lemma finish_ret (r : token_run) :
  let r' := finish traders_data (Ret tt) r in
  status r' = status r /\ sem r' = sem r /\
  stop_processing (self r') = stop_processing (self r) /\
  traders (self r') = traders (self r) /\
  processed_tokens (self r') = processed_tokens (self r) /\
  passed_traders r' = passed_traders r.
Proof.
  unfold finish. destruct (_ || _); cbn; repeat split; reflexivity.
Qed.

Lemma wallet_of_address (t : pyval) (a : string) :
  address_str t = Some a -> exists d, t = PDict d /\ wallet_of t = Ret (PStr a).
Proof.
  destruct t as [| | | | | |d]; try discriminate. intros Ha. exists d. split; [reflexivity|].
  destruct (address_str_some d a Ha) as [Hget _]. unfold dict_get in Hget.
  cbn [wallet_of]. destruct (assoc "address" d); [rewrite Hget; reflexivity | discriminate].
Qed.

Lemma addresses_inj (l : list pyval) :
  NoDup (addresses l) ->
  forall i j x y a,
    l !! i = Some x -> l !! j = Some y ->
    address_str x = Some a -> address_str y = Some a -> i = j.
Proof.
  induction l as [|t l IH]; intros Hnd i j x y a Hi Hj Hx Hy; [discriminate|].
  rewrite addresses_cons in Hnd.
  assert (Hl : NoDup (addresses l)).
  { destruct (address_str t); [apply NoDup_cons in Hnd; tauto | exact Hnd]. }
  assert (Hhead : forall z k, address_str t = Some a -> l !! k = Some z ->
                              address_str z = Some a -> False).
  { intros z k Ht Hk Hz. rewrite Ht in Hnd. apply NoDup_cons in Hnd.
    destruct Hnd as [Hn _]. apply Hn. apply list_elem_of_In.
    apply (in_addresses z a l); [|exact Hz].
    apply list_elem_of_lookup. exists k. exact Hk. }
  destruct i as [|i], j as [|j]; cbn in Hi, Hj.
  - reflexivity.
  - injection Hi as <-. exfalso. exact (Hhead y j Hx Hj Hy).
  - injection Hj as <-. exfalso. exact (Hhead x i Hy Hi Hx).
  - f_equal. exact (IH Hl i j x y a Hi Hj Hx Hy).
Qed.

Hypothesis evaluate_no_stop :
  forall a e, evaluate (PStr a) = Raise e -> stop_text (exn_msg e) = false.

(** The end of a task whose evaluation is over: the row of its wallet
    is written and the flag stays down. *)
Lemma resume_cases (i : nat) (d : dict) (a : string) (r : token_run) :
  stop_processing (self r) = false ->
  let r' := resume token_address token_name token_symbol traders_data evaluate
              i (PDict d) (PStr a) r in
  (evaluate (PStr a) = Spin /\ r' = r) \/
  (exists r1 row,
     evaluate (PStr a) <> Spin /\
     r' = set_status i Finished r1 /\
     status r1 = status r /\
     stop_processing (self r1) = false /\
     traders (self r1) = <[(a, token_address) := row]> (traders (self r)) /\
     (forall e, evaluate (PStr a) = Raise e ->
                row = error_row token_name token_symbol)).
Proof.
  intros Hflag. unfold resume.
  destruct (evaluate (PStr a)) as [[reason gmgn_stats]|e|] eqn:Hev.
  - right.
    pose proof (save_evaluated_cases d a reason gmgn_stats r) as Hc.
    destruct (save_evaluated _ _ _ _ _ _ _ r) as [o r2].
    cbn [fst snd] in Hc. destruct Hc as (Hst & Hsem & Hstop & Hcalls & Hc).
    destruct Hc as [[-> (row & Hrow)] | (e & -> & He & Htr)].
    + exists (finish traders_data (Ret tt) (release r2)), row.
      destruct (finish_ret (release r2)) as (F1 & F2 & F3 & F4 & _).
      split; [discriminate|].
      split; [reflexivity|]. split; [rewrite F1; exact Hst|].
      split; [rewrite F3; cbn; congruence|].
      split; [rewrite F4; exact Hrow | discriminate].
    + rewrite (on_error_saves a e r2 He).
      eexists (finish traders_data (Ret tt) (release _)), _.
      split; [discriminate|].
      split; [reflexivity|].
      match goal with |- context [finish _ _ (release ?x)] =>
        destruct (finish_ret (release x)) as (F1 & F2 & F3 & F4 & _) end.
      split; [rewrite F1; exact Hst|].
      split; [rewrite F3; cbn; congruence|].
      split; [rewrite F4; cbn; rewrite Htr; reflexivity | reflexivity].
  - right. rewrite (on_error_saves a e r (evaluate_no_stop a e Hev)).
    eexists (finish traders_data (Ret tt) (release _)), _.
    split; [discriminate|].
    split; [reflexivity|].
    match goal with |- context [finish _ _ (release ?x)] =>
      destruct (finish_ret (release x)) as (F1 & F2 & F3 & F4 & _) end.
    split; [rewrite F1; reflexivity|].
    split; [rewrite F3; exact Hflag|].
    split; [rewrite F4; reflexivity | reflexivity].
  - left. split; reflexivity.
Qed.

(** One step of a task, the flag being down. *)
Lemma step_task_cases (i : nat) (t : pyval) (a : string) (r : token_run) :
  stop_processing (self r) = false ->
  traders_data !! i = Some t ->
  address_str t = Some a ->
  let r' := step_task token_address token_name token_symbol traders_data evaluate i r in
  r' = r \/
  (exists st r1,
     st <> Finished /\ r' = set_status i st r1 /\ status r1 = status r /\
     stop_processing (self r1) = false /\ traders (self r1) = traders (self r)) \/
  (exists r1 row,
     evaluate (PStr a) <> Spin /\
     r' = set_status i Finished r1 /\
     status r1 = status r /\
     stop_processing (self r1) = false /\
     traders (self r1) = <[(a, token_address) := row]> (traders (self r)) /\
     (forall e, evaluate (PStr a) = Raise e ->
                row = error_row token_name token_symbol)).
Proof.
  intros Hflag Ht Ha. destruct (wallet_of_address t a Ha) as (d & -> & Hw).
  unfold step_task. rewrite Ht.
  assert (Hacq :
    let r' := acquire token_address traders_data i (PStr a) r in
    r' = r \/
    (exists st r1,
       st <> Finished /\ r' = set_status i st r1 /\ status r1 = status r /\
       stop_processing (self r1) = false /\ traders (self r1) = traders (self r)) \/
    (exists r1 row,
       evaluate (PStr a) <> Spin /\
       r' = set_status i Finished r1 /\
       status r1 = status r /\
       stop_processing (self r1) = false /\
       traders (self r1) = <[(a, token_address) := row]> (traders (self r)) /\
       (forall e, evaluate (PStr a) = Raise e ->
                  row = error_row token_name token_symbol))).
  { unfold acquire. destruct (sem r) as [|n].
    - right; left. exists Waiting, r. split; [discriminate|]. repeat split; auto.
    - cbn [self set_sem]. rewrite Hflag. right; left.
      eexists Evaluating, _. split; [discriminate|]. split; [reflexivity|].
      cbn. repeat split; auto. }
  destruct (status r !! i) as [[| | |]|]; try (left; reflexivity).
  - rewrite Hflag, Hw. exact Hacq.
  - rewrite Hw. exact Hacq.
  - rewrite Hw. destruct (resume_cases i d a r Hflag) as [[_ ->] | H].
    + left; reflexivity.
    + right; right. exact H.
Qed.

Hypothesis traders_addressed : Forall (fun t => is_Some (address_str t)) traders_data.
Hypothesis traders_distinct : NoDup (addresses traders_data).

(** [rows_written] is kept by every step of every task. *)
Lemma step_task_rows_written (i : nat) (r : token_run) :
  rows_written token_address token_name token_symbol traders_data evaluate r ->
  rows_written token_address token_name token_symbol traders_data evaluate
    (step_task token_address token_name token_symbol traders_data evaluate i r).
Proof.
  intros (Hflag & Hlen & Hrows).
  destruct (traders_data !! i) as [t|] eqn:Ht.
  2:{ unfold step_task. rewrite Ht. exact (conj Hflag (conj Hlen Hrows)). }
  assert (Hsome : is_Some (address_str t)).
  { rewrite Forall_forall in traders_addressed. apply traders_addressed.
    apply list_elem_of_lookup. exists i. exact Ht. }
  destruct Hsome as [a Ha].
  destruct (step_task_cases i t a r Hflag Ht Ha)
    as [-> | [(st & r1 & Hst & -> & Hs1 & Hf1 & Ht1)
              | (r1 & row & Hend & -> & Hs1 & Hf1 & Ht1 & Hrow)]].
  - exact (conj Hflag (conj Hlen Hrows)).
  - split; [exact Hf1|]. split; [cbn; rewrite length_insert, Hs1; exact Hlen|].
    intros j tj aj Htj Haj Hfin. cbn in Hfin |- *. rewrite Ht1.
    destruct (decide (i = j)) as [<-|Hne].
    + exfalso. rewrite Hs1 in Hfin.
      destruct (status r !! i) as [s0|] eqn:Hsi.
      * rewrite list_lookup_insert_eq in Hfin
          by (apply lookup_lt_Some in Hsi; exact Hsi).
        congruence.
      * rewrite list_insert_ge in Hfin
          by (apply lookup_ge_None in Hsi; exact Hsi).
        congruence.
    + rewrite list_lookup_insert_ne, Hs1 in Hfin by exact Hne.
      exact (Hrows j tj aj Htj Haj Hfin).
  - split; [exact Hf1|]. split; [cbn; rewrite length_insert, Hs1; exact Hlen|].
    intros j tj aj Htj Haj Hfin. cbn in Hfin |- *. rewrite Ht1.
    destruct (decide (i = j)) as [<-|Hne].
    + assert (tj = t) by congruence. subst tj.
      assert (aj = a) by congruence. subst aj.
      split; [exact Hend|].
      exists row. split; [apply lookup_insert_eq | exact Hrow].
    + rewrite list_lookup_insert_ne, Hs1 in Hfin by exact Hne.
      destruct (Hrows j tj aj Htj Haj Hfin) as (Hend' & row' & Hr' & He').
      split; [exact Hend'|].
      exists row'. split; [|exact He'].
      rewrite lookup_insert_ne; [exact Hr'|].
      intros [= ->]. apply Hne.
      exact (addresses_inj traders_data traders_distinct i j t tj aj Ht Htj Ha Haj).
Qed.

Lemma gather_rows_written (schedule : list nat) :
  forall r,
    rows_written token_address token_name token_symbol traders_data evaluate r ->
    rows_written token_address token_name token_symbol traders_data evaluate
      (gather token_address token_name token_symbol traders_data evaluate schedule r).
Proof.
  induction schedule as [|i schedule IH]; intros r Hr; [exact Hr|].
  cbn [gather fold_left]. apply IH. apply step_task_rows_written. exact Hr.
Qed.

Lemma rows_written_start (p : processor) :
  stop_processing p = false ->
  rows_written token_address token_name token_symbol traders_data evaluate
    {| self := p; passed_traders := 0; completed := 0; sem := concurrency p;
       status := repeat Created (List.length traders_data) |}.
Proof.
  intros Hflag. split; [exact Hflag|]. split; [apply repeat_length|].
  intros i t a _ _ Hfin. cbn in Hfin.
  apply list_elem_of_lookup_2, list_elem_of_In, repeat_spec in Hfin. discriminate.
Qed.

Lemma all_finished_lookup (r : token_run) (i : nat) :
  all_finished r = true -> (i < List.length (status r))%nat ->
  status r !! i = Some Finished.
Proof.
  intros Hall Hlt. apply lookup_lt_is_Some in Hlt. destruct Hlt as [st Hst].
  rewrite Hst. f_equal. unfold all_finished in Hall. rewrite forallb_forall in Hall.
  assert (Hin : In st (status r)).
  { apply list_elem_of_In, list_elem_of_lookup. exists i. exact Hst. }
  apply Hall in Hin. destruct st; [discriminate..|reflexivity].
Qed.

(** When all tasks are finished, every wallet of the list has seen its
    evaluation end and has its row. *)
Lemma all_rows_written (r : token_run) (a : string) :
  rows_written token_address token_name token_symbol traders_data evaluate r ->
  all_finished r = true ->
  In a (addresses traders_data) ->
  evaluate (PStr a) <> Spin /\
  exists row,
    traders (self r) !! (a, token_address) = Some row /\
    (forall e, evaluate (PStr a) = Raise e ->
               row = error_row token_name token_symbol).
Proof.
  intros (Hflag & Hlen & Hrows) Hall Ha.
  apply list_elem_of_In, list_elem_of_omap in Ha. destruct Ha as (t & Ht & Hta).
  apply list_elem_of_lookup in Ht. destruct Ht as [i Hi].
  apply (Hrows i t a Hi Hta). apply all_finished_lookup; [exact Hall|].
  rewrite Hlen. apply lookup_lt_Some in Hi. exact Hi.
Qed.

(** A task whose evaluation is over gives the semaphore back and is
    finished. *)
Lemma resume_ends (i : nat) (d : dict) (a : string) (r : token_run) :
  evaluate (PStr a) <> Spin ->
  let r' := resume token_address token_name token_symbol traders_data evaluate
              i (PDict d) (PStr a) r in
  sem r' = S (sem r) /\ status r' = <[i := Finished]> (status r).
Proof.
  intros Hend. unfold resume.
  destruct (evaluate (PStr a)) as [[reason gmgn_stats]|e|] eqn:Hev; [| |congruence].
  - pose proof (save_evaluated_cases d a reason gmgn_stats r) as Hc.
    destruct (save_evaluated _ _ _ _ _ _ _ r) as [o r2].
    cbn [fst snd] in Hc. destruct Hc as (Hst & Hsem & _ & _ & Hc).
    destruct Hc as [[-> _] | (e & -> & He & _)].
    + destruct (finish_ret (release r2)) as (F1 & F2 & _).
      cbn [sem status set_status]. rewrite F1, F2. cbn. rewrite Hst, Hsem. split; reflexivity.
    + rewrite (on_error_saves a e r2 He).
      match goal with |- context [finish _ _ (release ?x)] =>
        destruct (finish_ret (release x)) as (F1 & F2 & _) end.
      cbn [sem status set_status]. rewrite F1, F2. cbn. rewrite Hst, Hsem. split; reflexivity.
  - rewrite (on_error_saves a e r (evaluate_no_stop a e Hev)).
    match goal with |- context [finish _ _ (release ?x)] =>
      destruct (finish_ret (release x)) as (F1 & F2 & _) end.
    cbn [sem status set_status]. rewrite F1, F2. cbn. split; reflexivity.
Qed.

(** Two steps take a created task to its end when a slot is free. *)
Lemma run_task_to_end (k : nat) (t : pyval) (a : string) (c : nat) (r : token_run) :
  stop_processing (self r) = false ->
  traders_data !! k = Some t ->
  address_str t = Some a ->
  evaluate (PStr a) <> Spin ->
  status r !! k = Some Created ->
  sem r = S c ->
  let step := step_task token_address token_name token_symbol traders_data evaluate k in
  status (step (step r)) = <[k := Finished]> (status r) /\ sem (step (step r)) = S c.
Proof.
  intros Hflag Ht Ha Hend Hst Hsem step.
  destruct (wallet_of_address t a Ha) as (d & -> & Hw).
  assert (H1 : step r = set_status k Evaluating
                          (with_self (notify (EvaluateTrader token_address (PStr a)))
                             (set_sem c r))).
  { unfold step, step_task. rewrite Ht, Hst, Hflag, Hw. unfold acquire.
    rewrite Hsem. cbn [self set_sem]. rewrite Hflag. reflexivity. }
  rewrite H1. unfold step, step_task. rewrite Ht. cbn [status set_status with_self set_sem].
  rewrite list_lookup_insert_eq by (apply lookup_lt_Some in Hst; exact Hst).
  rewrite Hw.
  match goal with |- context [resume _ _ _ _ _ k (PDict d) (PStr a) ?x] =>
    destruct (resume_ends k d a x Hend) as [Hs1 Hs2] end.
  rewrite Hs1, Hs2. cbn [sem status set_status with_self set_sem].
  rewrite list_insert_insert_eq. split; reflexivity.
Qed.

Lemma all_finished_repeat (r : token_run) (n : nat) :
  status r = repeat Finished n -> all_finished r = true.
Proof.
  intros H. unfold all_finished. rewrite H. apply forallb_forall.
  intros st Hin. apply repeat_spec in Hin. subst st. reflexivity.
Qed.

(** Run one by one, the tasks all finish when every evaluation ends
    and the semaphore has a slot. *)
Lemma one_by_one_finishes (c : nat) :
  (forall a, In a (addresses traders_data) -> evaluate (PStr a) <> Spin) ->
  forall m k r,
    (k + m = List.length traders_data)%nat ->
    status r = (repeat Finished k ++ repeat Created m)%list ->
    sem r = S c ->
    rows_written token_address token_name token_symbol traders_data evaluate r ->
    all_finished
      (gather token_address token_name token_symbol traders_data evaluate
         (run_from k m) r) = true.
Proof.
  intros Hends. induction m as [|m IH]; intros k r Hkm Hst Hsem Hinv.
  - cbn [run_from gather fold_left]. apply (all_finished_repeat r k).
    rewrite Hst. cbn [repeat]. apply app_nil_r.
  - cbn [run_from gather fold_left].
    set (step := step_task token_address token_name token_symbol traders_data evaluate k).
    assert (Hlt : (k < List.length traders_data)%nat) by lia.
    apply lookup_lt_is_Some in Hlt. destruct Hlt as [t Ht].
    assert (Hsome : is_Some (address_str t)).
    { rewrite Forall_forall in traders_addressed. apply traders_addressed.
      apply list_elem_of_lookup. exists k. exact Ht. }
    destruct Hsome as [a Ha].
    assert (Hin : In a (addresses traders_data)).
    { apply (in_addresses t a); [|exact Ha]. apply list_elem_of_lookup. exists k. exact Ht. }
    assert (Hk : status r !! k = Some Created).
    { rewrite Hst, lookup_app_r by (rewrite repeat_length; lia).
      rewrite repeat_length, Nat.sub_diag. reflexivity. }
    destruct (run_task_to_end k t a c r (proj1 Hinv) Ht Ha (Hends a Hin) Hk Hsem)
      as [Hst2 Hsem2].
    cbv zeta in Hst2, Hsem2. subst step.
    apply IH.
    + lia.
    + rewrite Hst2, Hst.
      rewrite insert_app_r_alt by (rewrite repeat_length; lia).
      rewrite repeat_length, Nat.sub_diag. cbn [repeat].
      change (<[0%nat := Finished]> (Created :: repeat Created m))
        with (Finished :: repeat Created m).
      rewrite (repeat_cons k Finished), <- app_assoc. reflexivity.
    + exact Hsem2.
    + apply step_task_rows_written, step_task_rows_written. exact Hinv.
Qed.

End TaskFacts.

Section TokenFacts.
Import Processor Scenario.

Lemma all_str_addressed_filter (hs : list pyval) :
  Forall str_addressed hs ->
  Forall str_addressed
    (List.filter (fun h => Bullx.is_dict h && truthy (Bullx.address_of h)) hs).
Proof.
  intros H. rewrite Forall_forall in *. intros x Hx.
  apply list_elem_of_In, filter_In in Hx. apply H, list_elem_of_In. tauto.
Qed.

Lemma mark_token_processed_stop (a n y : string) (total passed : nat) (p : processor) :
  stop_processing (mark_token_processed a n y total passed p) = stop_processing p.
Proof. reflexivity. Qed.

(** [process_single_token] once the symbol is known and the wallet list
    is in: the checkpoint of an empty list, or the tasks and then the
    checkpoint. *)
Lemma process_single_token_steps (token_address token_name token_symbol : string)
    (post : outcome pyval) (evaluate : pyval -> outcome (string * dict))
    (schedule : list nat) (p : processor) (fetched unique_traders : list pyval) :
  token_symbol_of token_name = Ret token_symbol ->
  stop_processing p = false ->
  Bullx.fetch_top500_traders post = Ret fetched ->
  unique_loop false fetched [] [] = Ret unique_traders ->
  let p1 := notify (FetchTraders token_address)
              (notify (TokenCallback token_name) (set_current token_name p)) in
    process_single_token token_address token_name post evaluate schedule p
    = match unique_traders with
      | [] => (Ret {| res_token_address := token_address;
                      res_token_name := token_name;
                      res_total_traders := 0; res_passed_traders := 0 |},
               mark_token_processed token_address token_name token_symbol 0 0 p1)
      | _ =>
          let r := gather token_address token_name token_symbol unique_traders
                     evaluate schedule
                     {| self := p1; passed_traders := 0; completed := 0;
                        sem := concurrency p1;
                        status := repeat Created (List.length unique_traders) |} in
          if all_finished r then
            let p' := mark_token_processed token_address token_name token_symbol
                        (List.length unique_traders) (passed_traders r) (self r) in
            if stop_processing p' then (Raise stopped_by_user, p')
            else (Ret {| res_token_address := token_address;
                         res_token_name := token_name;
                         res_total_traders := List.length unique_traders;
                         res_passed_traders := passed_traders r |}, p')
          else (Spin, self r)
      end.
Proof.
  intros Hsym Hflag Hfetch Hr p1.
  unfold process_single_token. rewrite Hsym. fold p1.
  unfold fetch_traders_data. rewrite Hfetch. cbn [obind].
  replace (stop_processing p1) with false by (symmetry; exact Hflag).
  rewrite Hr. destruct unique_traders; reflexivity.
Qed.

(** C1, amended. When no evaluation of the target raises an exception
    whose text asks to stop ('429', 'rate limit', 'stopped by user') and
    the stop flag is down, every wallet of the deduplicated list has an
    outcome row once the target is finalized, whatever the order in
    which the tasks ran; the row of a wallet whose evaluation raised is
    the row with reason ERROR and zeroed stats.  The target is finalized
    under some schedule when every evaluation ends and the semaphore
    has a slot. *)
Theorem error_rows_are_written (token_address token_name token_symbol : string)
    (post : outcome pyval) (evaluate : pyval -> outcome (string * dict))
    (schedule : list nat) (p : processor) (fetched : list pyval) :
  token_symbol_of token_name = Ret token_symbol ->
  stop_processing p = false ->
  Bullx.fetch_top500_traders post = Ret fetched ->
  Forall str_addressed fetched ->
  (forall a e, evaluate (PStr a) = Raise e -> stop_text (exn_msg e) = false) ->
  (let run := process_single_token token_address token_name post evaluate schedule p in
   fst run <> Spin ->
   forall a, In a (addresses fetched) ->
     exists row,
       traders (snd run) !! (a, token_address) = Some row /\
       (forall e, evaluate (PStr a) = Raise e ->
                  row = error_row token_name token_symbol)) /\
  ((0 < concurrency p)%nat ->
   (forall a, In a (addresses fetched) -> evaluate (PStr a) <> Spin) ->
   exists finishing,
     fst (process_single_token token_address token_name post evaluate finishing p)
     <> Spin).
Proof.
  intros Hsym Hflag Hfetch Hstr Heval.
  destruct (unique_loop_spec fetched Hstr [] [])
    as (kept & Hr & (Hsub & Hsome & Hnd & Hin & Hfirst)).
  assert (Hsame : forall a, In a (addresses fetched) <-> In a (addresses kept)).
  { intros a. rewrite Hin. cbn [In]. tauto. }
  split.
  - intros run Hend a Ha. unfold run in *.
    rewrite (process_single_token_steps token_address token_name token_symbol post
               evaluate schedule p fetched kept Hsym Hflag Hfetch Hr) in *.
    apply Hsame in Ha.
    destruct kept as [|t kept]; [destruct Ha|].
    set (ts := t :: kept) in *.
    match goal with |- context [gather _ _ _ _ _ _ ?r0] => set (start := r0) in * end.
    assert (Hinv : rows_written token_address token_name token_symbol ts evaluate
                     (gather token_address token_name token_symbol ts evaluate
                        schedule start)).
    { apply gather_rows_written; try assumption.
      apply rows_written_start. exact Hflag. }
    cbv zeta in *.
    destruct (all_finished _) eqn:Hall.
    + destruct (all_rows_written token_address token_name token_symbol ts evaluate
                  _ a Hinv Hall Ha) as (_ & row & Hrow & Herr).
      exists row. split; [|exact Herr].
      rewrite mark_token_processed_stop. destruct Hinv as [-> _].
      cbn [snd mark_token_processed traders]. exact Hrow.
    + cbn [fst] in Hend. congruence.
  - intros Hslot Hends. exists (one_by_one (List.length kept)).
    rewrite (process_single_token_steps token_address token_name token_symbol post
               evaluate _ p fetched kept Hsym Hflag Hfetch Hr).
    destruct kept as [|t kept]; [discriminate|].
    set (ts := t :: kept) in *.
    match goal with |- context [gather _ _ _ _ _ _ ?r0] => set (start := r0) in * end.
    destruct (concurrency p) as [|c] eqn:Hc; [lia|].
    assert (Hall : all_finished
                     (gather token_address token_name token_symbol ts evaluate
                        (one_by_one (List.length ts)) start) = true).
    { apply (one_by_one_finishes token_address token_name token_symbol ts evaluate
               Heval Hsome Hnd c).
      - intros a Ha. apply Hends, Hsame. exact Ha.
      - reflexivity.
      - reflexivity.
      - unfold start. cbn [sem concurrency notify set_current]. exact Hc.
      - apply rows_written_start. exact Hflag. }
    cbv zeta. rewrite Hall, mark_token_processed_stop.
    destruct (stop_processing (self _)); cbn [fst]; discriminate.
Qed.

End TokenFacts.

Section TokenWitnesses.
Import Processor Scenario.

Lemma demo_eval_no_stop (a : string) (e : exn) :
  demo_eval (PStr a) = Raise e -> stop_text (exn_msg e) = false.
Proof.
  unfold demo_eval, evaluate_with. destruct (String.eqb a "A"); vm_compute.
  - intros [= <-]. reflexivity.
  - discriminate.
Qed.

(** The witness of the amended C1: wallet "A" of the list A, B, A, C
    has a broken summary; its row is the ERROR row. *)
Lemma error_rows_are_written_witness :
  traders (snd (process_single_token "T1" "Token One (T1)"
                  (Ret (bullx_body fetched_abac)) demo_eval
                  [0; 1; 2; 0; 1; 2]%nat (fresh 7)))
    !! ("A", "T1")
  = Some (error_row "Token One (T1)" "T1").
Proof.
  destruct (proj1 (error_rows_are_written "T1" "Token One (T1)" "T1"
                     (Ret (bullx_body fetched_abac)) demo_eval
                     [0; 1; 2; 0; 1; 2]%nat (fresh 7) fetched_abac
                     eq_refl eq_refl eq_refl
                     ltac:(repeat constructor; apply str_addressed_trader)
                     demo_eval_no_stop)
              ltac:(vm_compute; discriminate)
              "A" ltac:(left; reflexivity))
    as (row & Hrow & Herr).
  rewrite Hrow. f_equal. eapply Herr. vm_compute. reflexivity.
Defined.

(** C1, as stated, fails: the stop flag is raised while wallet "A" is
    being evaluated, its fetch raises "Processing stopped by user", and
    the target is finalized with no row for the wallet. *)
Lemma cancelled_wallet_has_no_row :
  let run := process_single_token "T1" "Token One (T1)"
               (Ret (bullx_body [trader "A" 10 25])) cancelled_eval
               [0; 0]%nat (fresh 7) in
  In "A" (addresses [trader "A" 10 25]) /\
  cancelled_eval (PStr "A") = Raise Gmgn.stopped_by_user /\
  fst run = Raise stopped_by_user /\
  processed_tokens (snd run) !! "T1"
  = Some {| ck_token_name := "Token One (T1)"; ck_token_symbol := "T1";
            ck_total_holders := 1; ck_passed_traders := 0 |} /\
  traders (snd run) !! ("A", "T1") = None.
Proof. vm_compute. repeat split. left. reflexivity. Qed.

End TokenWitnesses.

(** ** The calls a run makes *)

Section CallFacts.
Import Processor Scenario.

Lemma calls_ext_refl (P : call -> Prop) (p : processor) : calls_ext P p p.
Proof. exists []. split; [rewrite app_nil_r; reflexivity | constructor]. Qed.

Lemma calls_ext_same (P : call -> Prop) (p p' : processor) :
  calls p' = calls p -> calls_ext P p p'.
Proof. intros H. exists []. split; [rewrite app_nil_r; exact H | constructor]. Qed.

Lemma calls_ext_trans (P : call -> Prop) (p1 p2 p3 : processor) :
  calls_ext P p1 p2 -> calls_ext P p2 p3 -> calls_ext P p1 p3.
Proof.
  intros (n1 & H1 & F1) (n2 & H2 & F2). exists (n1 ++ n2)%list. split.
  - rewrite H2, H1, app_assoc. reflexivity.
  - apply Forall_app. split; assumption.
Qed.

Lemma calls_ext_weaken (P Q : call -> Prop) (p p' : processor) :
  (forall c, P c -> Q c) -> calls_ext P p p' -> calls_ext Q p p'.
Proof.
  intros HPQ (n & H & F). exists n. split; [exact H|].
  eapply Forall_impl; [exact F | exact HPQ].
Qed.

Lemma calls_ext_notify (P : call -> Prop) (c : call) (p p' : processor) :
  P c -> calls p' = calls p -> calls_ext P p (notify c p').
Proof.
  intros HP H. exists [c]. split; [cbn; rewrite H; reflexivity|].
  constructor; [exact HP | constructor].
Qed.

Section OneToken.

Variables token_address token_name token_symbol : string.
Variable traders_data : list pyval.
Variable evaluate : pyval -> outcome (string * dict).

Lemma save_evaluated_calls (trader wallet : pyval) (reason : string) (st : dict)
    (r : token_run) :
  calls (self (snd (save_evaluated token_address token_name token_symbol
                      trader wallet reason st r)))
  = calls (self r).
Proof.
  unfold save_evaluated. destruct (obind _ _) as [[w c]|e|]; try reflexivity.
  unfold save_trader_data. destruct (bound_params _); [reflexivity|].
  destruct (String.eqb reason "PASS"); reflexivity.
Qed.

Lemma on_error_ext (wallet : pyval) (e : exn) (r : token_run) :
  calls_ext (only_about token_address) (self r)
    (self (snd (on_error token_address token_name token_symbol wallet e r))).
Proof.
  unfold on_error. destruct (stop_text (exn_msg e)).
  - apply calls_ext_notify; [intros a []|reflexivity].
  - destruct (wallet_str wallet); try apply calls_ext_refl.
    unfold save_trader_data. destruct (bound_params _); apply calls_ext_same; reflexivity.
Qed.

Lemma finish_ext (o : outcome unit) (r : token_run) :
  calls_ext (only_about token_address) (self r) (self (finish traders_data o r)).
Proof.
  unfold finish. destruct o as [u|e|].
  - destruct (_ || _).
    + apply calls_ext_notify; [intros a []|reflexivity].
    + apply calls_ext_same. reflexivity.
  - destruct (throttle_text (exn_msg e)).
    + apply calls_ext_notify; [intros a []|reflexivity].
    + apply calls_ext_same. reflexivity.
  - apply calls_ext_refl.
Qed.

Lemma finish_release_ext (o : outcome unit) (r : token_run) :
  calls_ext (only_about token_address) (self r) (self (finish traders_data o (release r))).
Proof. exact (finish_ext o (release r)). Qed.

Lemma acquire_ext (i : nat) (wallet : pyval) (r : token_run) :
  calls_ext (only_about token_address) (self r) (self (acquire token_address traders_data i wallet r)).
Proof.
  unfold acquire. destruct (sem r) as [|n]; [apply calls_ext_refl|].
  destruct (stop_processing _).
  - exact (finish_ext (Ret tt) (release (set_sem n r))).
  - apply calls_ext_notify; [intros a Ha; exact (eq_sym Ha) | reflexivity].
Qed.

Lemma resume_ext (i : nat) (trader wallet : pyval) (r : token_run) :
  calls_ext (only_about token_address) (self r)
    (self (resume token_address token_name token_symbol traders_data evaluate
             i trader wallet r)).
Proof.
  unfold resume. destruct (evaluate wallet) as [[reason st]|e|].
  - pose proof (save_evaluated_calls trader wallet reason st r) as Hc.
    destruct (save_evaluated _ _ _ _ _ _ _ r) as [o r2]. cbn [snd] in Hc.
    apply calls_ext_trans with (self r2); [apply calls_ext_same; exact Hc|].
    destruct o as [u|e|].
    + exact (finish_release_ext (Ret u) r2).
    + pose proof (on_error_ext wallet e r2) as He.
      destruct (on_error _ _ _ wallet e r2) as [o3 r3]. cbn [snd] in He.
      apply calls_ext_trans with (self r3); [exact He|].
      exact (finish_release_ext o3 r3).
    + exact (finish_release_ext Spin r2).
  - pose proof (on_error_ext wallet e r) as He.
    destruct (on_error _ _ _ wallet e r) as [o3 r3]. cbn [snd] in He.
    apply calls_ext_trans with (self r3); [exact He|].
    exact (finish_release_ext o3 r3).
  - apply calls_ext_refl.
Qed.

Lemma step_task_ext (i : nat) (r : token_run) :
  calls_ext (only_about token_address) (self r)
    (self (step_task token_address token_name token_symbol traders_data evaluate i r)).
Proof.
  unfold step_task.
  destruct (traders_data !! i) as [trader|]; [|apply calls_ext_refl].
  destruct (status r !! i) as [[| | |]|]; try apply calls_ext_refl.
  - destruct (stop_processing (self r)); [apply calls_ext_refl|].
    destruct (wallet_of trader) as [wallet|e|].
    + apply acquire_ext.
    + exact (finish_ext _ r).
    + exact (finish_ext _ r).
  - destruct (wallet_of trader); try apply calls_ext_refl. apply acquire_ext.
  - destruct (wallet_of trader); try apply calls_ext_refl. apply resume_ext.
Qed.

Lemma gather_ext (schedule : list nat) :
  forall r,
    calls_ext (only_about token_address) (self r)
      (self (gather token_address token_name token_symbol traders_data evaluate
               schedule r)).
Proof.
  induction schedule as [|i schedule IH]; intros r; [apply calls_ext_refl|].
  cbn [gather fold_left].
  eapply calls_ext_trans; [apply (step_task_ext i r) | apply IH].
Qed.

End OneToken.

Lemma fetch_traders_data_ext (P : call -> Prop) (fetched : outcome (list pyval))
    (p : processor) :
  (forall m, P (FatalCallback m)) ->
  calls_ext P p (snd (fetch_traders_data fetched p)).
Proof.
  intros HP. unfold fetch_traders_data. destruct (obind _ _) as [u|e|];
    try apply calls_ext_refl.
  destruct (bool_decide _); [apply calls_ext_notify; [apply HP | reflexivity]|].
  destruct (throttle_text _); [apply calls_ext_notify; [apply HP | reflexivity]|].
  apply calls_ext_refl.
Qed.

(** Processing a token calls the scrapers for that token only. *)
Lemma process_single_token_ext (token_address token_name : string)
    (post : outcome pyval) (evaluate : pyval -> outcome (string * dict))
    (schedule : list nat) (p : processor) :
  calls_ext (only_about token_address) p
    (snd (process_single_token token_address token_name post evaluate schedule p)).
Proof.
  unfold process_single_token.
  set (p0 := notify (TokenCallback token_name) (set_current token_name p)).
  assert (H0 : calls_ext (only_about token_address) p p0).
  { apply calls_ext_notify; [intros a []|reflexivity]. }
  destruct (token_symbol_of token_name) as [sym|e|]; try exact H0.
  set (p1 := notify (FetchTraders token_address) p0).
  assert (H1 : calls_ext (only_about token_address) p p1).
  { eapply calls_ext_trans; [exact H0|].
    apply calls_ext_notify; [intros a Ha; exact (eq_sym Ha) | reflexivity]. }
  pose proof (fetch_traders_data_ext (only_about token_address)
                (Bullx.fetch_top500_traders post) p1 ltac:(intros m a [])) as H2.
  destruct (fetch_traders_data _ p1) as [o p2]. cbn [snd] in H2.
  assert (H3 : calls_ext (only_about token_address) p p2)
    by (eapply calls_ext_trans; [exact H1 | exact H2]).
  destruct o as [[|t ts]|e|]; try exact H3.
  match goal with |- context [gather ?a ?n ?y ?td ?ev ?sc ?r0] =>
    pose proof (gather_ext a n y td ev sc r0) as H4;
    set (r := gather a n y td ev sc r0) in * end.
  cbn [self] in H4.
  assert (H5 : calls_ext (only_about token_address) p (self r))
    by (eapply calls_ext_trans; [exact H3 | exact H4]).
  destruct (all_finished r); [|exact H5].
  cbv zeta. rewrite mark_token_processed_stop.
  destruct (stop_processing (self r)); exact H5.
Qed.

(** The loop calls the scrapers for the tokens of its list only. *)
Lemma token_loop_ext (env : environment) (todo : list (string * string)) :
  forall results p,
    calls_ext (fun c => forall a, about a c -> In a (map fst todo)) p
      (snd (token_loop env todo results p)).
Proof.
  induction todo as [|[addr name] rest IH]; intros results p; [apply calls_ext_refl|].
  cbn [token_loop]. destruct (stop_processing p); [apply calls_ext_refl|].
  pose proof (process_single_token_ext addr name (bullx_post env addr)
                (evaluate_of env addr) (schedule_of env addr) p) as H1.
  assert (Hw : forall q q',
            calls_ext (only_about addr) q q' ->
            calls_ext (fun c => forall a, about a c -> In a (map fst ((addr, name) :: rest)))
              q q').
  { intros q q'. apply calls_ext_weaken. intros c Hc a Ha. left. symmetry. exact (Hc a Ha). }
  assert (Hr : forall res q,
            calls_ext (fun c => forall a, about a c -> In a (map fst ((addr, name) :: rest)))
              q (snd (token_loop env rest res q))).
  { intros res q. eapply calls_ext_weaken; [|apply IH].
    intros c Hc a Ha. right. exact (Hc a Ha). }
  destruct (process_single_token _ _ _ _ _ p) as [[res|e|] p']; cbn [snd] in H1.
  - eapply calls_ext_trans; [apply Hw; exact H1 | apply Hr].
  - destruct (throttle_text (exn_msg e)).
    + eapply calls_ext_trans; [apply Hw; exact H1|].
      apply calls_ext_notify; [intros a []|reflexivity].
    + eapply calls_ext_trans; [apply Hw; exact H1 | apply Hr].
  - apply Hw. exact H1.
Qed.

Lemma unprocessed_tokens_spec (tokens : list (string * string)) (p : processor)
    (t : string * string) :
  In t (unprocessed_tokens tokens p) <->
  In t tokens /\ processed_tokens p !! fst t = None.
Proof.
  unfold unprocessed_tokens, get_processed_token_addresses.
  rewrite filter_In, bool_decide_eq_true, not_elem_of_dom. reflexivity.
Qed.

(** A run calls the scrapers for no token that is checkpointed when it
    starts. *)
Lemma process_all_tokens_ext (env : environment) (p : processor) (addr : string) :
  is_Some (processed_tokens p !! addr) ->
  calls_ext (fun c => ~ about addr c) p (snd (process_all_tokens env p)).
Proof.
  intros [ck Hck]. unfold process_all_tokens.
  pose proof (token_loop_ext env (unprocessed_tokens (load_tokens (tokens_file env)) p) [] p)
    as H.
  destruct (unprocessed_tokens _ p) as [|t todo] eqn:Hun; [apply calls_ext_refl|].
  eapply calls_ext_weaken; [|exact H].
  intros c Hc Habout. specialize (Hc addr Habout).
  apply in_map_iff in Hc. destruct Hc as ([a n] & Ha & Hin). cbn in Ha. subst a.
  rewrite <- Hun in Hin. apply unprocessed_tokens_spec in Hin.
  cbn in Hin. destruct Hin as [_ Hnone]. congruence.
Qed.

End CallFacts.

(** ** The run *)

Section RunFacts.
Import Processor Scenario.

Lemma token_loop_stopped (env : environment) (todo : list (string * string))
    (results : list result) (p : processor) :
  stop_processing p = true -> token_loop env todo results p = (Ret results, p).
Proof. intros H. destruct todo as [|[a n] rest]; cbn [token_loop]; rewrite ?H; reflexivity. Qed.

Lemma gather_no_tasks (a n y : string) (evaluate : pyval -> outcome (string * dict))
    (schedule : list nat) :
  forall r, gather a n y [] evaluate schedule r = r.
Proof.
  induction schedule as [|i schedule IH]; intros r; [reflexivity|].
  cbn [gather fold_left]. exact (IH r).
Qed.

Lemma unprocessed_none (tokens : list (string * string)) (p : processor) :
  (forall t, In t tokens -> fst t ∈ get_processed_token_addresses p) ->
  unprocessed_tokens tokens p = [].
Proof.
  intros H. unfold unprocessed_tokens.
  induction tokens as [|t tokens IH]; [reflexivity|]. cbn [List.filter].
  rewrite bool_decide_eq_false_2; [apply IH; intros t' Ht'; apply H; right; exact Ht'|].
  intros Hn. apply Hn, H. left. reflexivity.
Qed.

(** C8. When every target of the list is checkpointed, the unresolved
    list is empty and [process_all_tokens] returns at once: no target is
    processed, nothing is evaluated and nothing is written. *)
Theorem rerun_processes_no_target (env : environment) (p : processor) :
  (forall t, In t (load_tokens (tokens_file env)) ->
             fst t ∈ get_processed_token_addresses p) ->
  unprocessed_tokens (load_tokens (tokens_file env)) p = [] /\
  process_all_tokens env p = (Ret [], p).
Proof.
  intros H. pose proof (unprocessed_none _ p H) as Hun.
  split; [exact Hun|]. unfold process_all_tokens. rewrite Hun. reflexivity.
Qed.

(** C9. When the wallet-list fetch of a target raises an exception
    whose text is not a throttling one, [fetch_traders_data] returns
    the empty list (leaving the processor as it is, unless the exception
    carries a 429 response), and [process_single_token] writes the
    checkpoint 0/0 and returns, no row being written; a target that is
    checkpointed is not in the unresolved list of a later run, and that
    run calls neither scraper for it. *)
Theorem failed_fetch_is_checkpointed (token_address token_name token_symbol : string)
    (e : exn) (evaluate : pyval -> outcome (string * dict)) (schedule : list nat)
    (p : processor) :
  token_symbol_of token_name = Ret token_symbol ->
  throttle_text (exn_msg e) = false ->
  let p1 := notify (FetchTraders token_address)
              (notify (TokenCallback token_name) (set_current token_name p)) in
  let fetched := fetch_traders_data (Bullx.fetch_top500_traders (Raise e)) p1 in
  let done := mark_token_processed token_address token_name token_symbol 0 0
                (snd fetched) in
  fst fetched = Ret [] /\
  (exn_status e <> Some 429 -> snd fetched = p1) /\
  process_single_token token_address token_name (Raise e) evaluate schedule p
  = (Ret {| res_token_address := token_address; res_token_name := token_name;
            res_total_traders := 0; res_passed_traders := 0 |}, done) /\
  processed_tokens done !! token_address
  = Some {| ck_token_name := token_name; ck_token_symbol := token_symbol;
            ck_total_holders := 0; ck_passed_traders := 0 |} /\
  traders done = traders p /\
  forall env q,
    is_Some (processed_tokens q !! token_address) ->
    (forall name, ~ In (token_address, name)
                      (unprocessed_tokens (load_tokens (tokens_file env)) q)) /\
    calls_ext (fun c => ~ about token_address c) q (snd (process_all_tokens env q)).
Proof.
  intros Hsym Htext p1 fetched done.
  assert (Hfetch : fst fetched = Ret [] /\
                   (exn_status e <> Some 429 -> snd fetched = p1) /\
                   traders (snd fetched) = traders p).
  { unfold fetched, fetch_traders_data. cbn [Bullx.fetch_top500_traders obind].
    rewrite Htext. destruct (bool_decide (exn_status e = Some 429)) eqn:Hd.
    - apply bool_decide_eq_true in Hd. repeat split. intros H. contradiction.
    - repeat split. }
  destruct Hfetch as (Hf1 & Hf2 & Hf3).
  split; [exact Hf1|]. split; [exact Hf2|]. split.
  { unfold process_single_token. rewrite Hsym. fold p1. fold fetched.
    unfold done. destruct fetched as [o p2]. cbn [fst snd] in *. rewrite Hf1.
    reflexivity. }
  split; [apply lookup_insert_eq|]. split; [exact Hf3|].
  intros env q Hq. split.
  - intros name Hin. apply unprocessed_tokens_spec in Hin. cbn [fst] in Hin.
    destruct Hin as [_ Hnone]. destruct Hq as [ck Hck]. congruence.
  - apply process_all_tokens_ext. exact Hq.
Qed.

(** C2, amended. A 429 (or rate-limit text) from the wallet-list
    upstream sets the stop flag at once, without a retry, and leaves
    the store as it is.  A target whose tasks are over is checkpointed
    with the size of its wallet list and the passed count reached, also
    when the flag is up, in which case "Processing stopped by user" is
    raised after the checkpoint.  Once the flag is up after a target,
    the rest of the list is not started. *)
Theorem stop_flag_ends_the_run :
  (forall e p,
     exn_status e = Some 429 \/ throttle_text (exn_msg e) = true ->
     let out := fetch_traders_data (Bullx.fetch_top500_traders (Raise e)) p in
     fst out = Ret [] /\ stop_processing (snd out) = true /\
     processed_tokens (snd out) = processed_tokens p /\
     traders (snd out) = traders p) /\
  (forall token_address token_name token_symbol post evaluate schedule p unique p2,
     token_symbol_of token_name = Ret token_symbol ->
     fetch_traders_data (Bullx.fetch_top500_traders post)
       (notify (FetchTraders token_address)
          (notify (TokenCallback token_name) (set_current token_name p)))
     = (Ret unique, p2) ->
     let run := process_single_token token_address token_name post evaluate schedule p in
     fst run <> Spin ->
     processed_tokens (snd run) !! token_address
     = Some {| ck_token_name := token_name; ck_token_symbol := token_symbol;
               ck_total_holders := List.length unique;
               ck_passed_traders :=
                 passed_traders (tasks_of token_address token_name token_symbol
                                   unique evaluate schedule p2) |} /\
     (unique <> [] -> stop_processing (snd run) = true ->
      fst run = Raise stopped_by_user)) /\
  (forall env token_address token_name rest results p,
     stop_processing
       (snd (process_single_token token_address token_name
               (bullx_post env token_address) (evaluate_of env token_address)
               (schedule_of env token_address) p)) = true ->
     token_loop env ((token_address, token_name) :: rest) results p
     = token_loop env [(token_address, token_name)] results p) /\
  (forall env todo results p,
     stop_processing p = true -> token_loop env todo results p = (Ret results, p)).
Proof.
  split; [|split; [|split]].
  - intros e p He out. unfold out, fetch_traders_data.
    cbn [Bullx.fetch_top500_traders obind].
    destruct (bool_decide (exn_status e = Some 429)) eqn:Hd; [cbn; auto|].
    destruct He as [He|He].
    + apply bool_decide_eq_false in Hd. contradiction.
    + rewrite He. cbn. auto.
  - intros a n y post evaluate schedule p unique p2 Hsym Hfetch run Hend.
    unfold run, process_single_token in *. rewrite Hsym, Hfetch in *.
    destruct unique as [|t ts].
    + cbn [snd]. split; [|congruence].
      unfold tasks_of. rewrite gather_no_tasks. apply lookup_insert_eq.
    + fold (tasks_of a n y (t :: ts) evaluate schedule p2) in *.
      destruct (all_finished _); [|cbn [fst] in Hend; congruence].
      cbv zeta in *. rewrite mark_token_processed_stop in *.
      destruct (stop_processing _) eqn:Hs; cbn [fst snd].
      * split; [apply lookup_insert_eq | reflexivity].
      * split; [apply lookup_insert_eq|].
        rewrite mark_token_processed_stop, Hs. discriminate.
  - intros env a n rest results p Hstop. cbn [token_loop].
    destruct (stop_processing p); [reflexivity|].
    destruct (process_single_token _ _ _ _ _ p) as [[res|e|] p']; cbn [snd] in Hstop.
    + apply token_loop_stopped. exact Hstop.
    + destruct (throttle_text (exn_msg e)); [reflexivity|].
      apply token_loop_stopped. exact Hstop.
    + reflexivity.
  - intros env todo results p. apply token_loop_stopped.
Qed.

End RunFacts.

Section RunWitnesses.
Import Processor Scenario.

(** The witness of C8: both tokens of the list are checkpointed. *)
Lemma rerun_processes_no_target_witness :
  process_all_tokens (failing_env unreachable) both_done = (Ret [], both_done).
Proof.
  refine (proj2 (rerun_processes_no_target (failing_env unreachable) both_done _)).
  intros t Ht. vm_compute in Ht.
  destruct Ht as [<-|[<-|[]]]; apply elem_of_dom; eexists; vm_compute; reflexivity.
Defined.

(** The witness of C9: BullX cannot be reached for token T1. *)
Lemma failed_fetch_is_checkpointed_witness :
  processed_tokens
    (snd (process_single_token "T1" "Token One (T1)" (Raise unreachable)
            demo_eval [] (fresh 7))) !! "T1"
  = Some {| ck_token_name := "Token One (T1)"; ck_token_symbol := "T1";
            ck_total_holders := 0; ck_passed_traders := 0 |}.
Proof.
  destruct (failed_fetch_is_checkpointed "T1" "Token One (T1)" "T1" unreachable
              demo_eval [] (fresh 7) eq_refl eq_refl)
    as (_ & _ & Hrun & Hck & _).
  rewrite Hrun. exact Hck.
Defined.

(** The witness of the amended C2: BullX answers 429 for T1, and T2 is
    not started. *)
Lemma stop_flag_ends_the_run_witness :
  token_loop (failing_env rate_limited) [token_one; token_two] [] (fresh 7)
  = token_loop (failing_env rate_limited) [token_one] [] (fresh 7).
Proof.
  apply (proj1 (proj2 (proj2 stop_flag_ends_the_run))
           (failing_env rate_limited) "T1" "Token One (T1)" [token_two] [] (fresh 7)).
  vm_compute. reflexivity.
Defined.

Lemma throttled_eval_spins (fuel : nat) (a : string) :
  throttled_eval fuel (PStr a) = Spin.
Proof.
  unfold throttled_eval, evaluate_with, Gmgn.evaluate_trader, Gmgn.fetch_gmgn_data,
    Gmgn._sync_fetch.
  destruct (throttled_forever always_429 (Some (fun _ _ _ => false))
              (Gmgn.wallet_stat_url a Gmgn.default_period)
              ltac:(reflexivity) ltac:(reflexivity) fuel 0%nat false) as [-> _].
  reflexivity.
Qed.

(** C2, as stated, fails: when the per-wallet upstream answers 429 to
    every request, then whatever the number of attempts and the order of
    the tasks, the target is never finalized and the stop flag is never
    set. *)
Lemma persistent_429_never_sets_stop :
  ~ exists fuel schedule,
      let run := process_single_token "T1" "Token One (T1)"
                   (Ret (bullx_body [trader "A" 10 25])) (throttled_eval fuel)
                   schedule (fresh 7) in
      fst run <> Spin \/ stop_processing (snd run) = true.
Proof.
  intros (fuel & schedule & H). cbv zeta in H.
  destruct (unique_loop_spec [trader "A" 10 25]
              ltac:(repeat constructor; apply str_addressed_trader) [] [])
    as (kept & Hr & (Hsub & Hsome & Hnd & Hin & Hfirst)).
  rewrite (process_single_token_steps "T1" "Token One (T1)" "T1"
             (Ret (bullx_body [trader "A" 10 25])) (throttled_eval fuel) schedule
             (fresh 7) [trader "A" 10 25] kept eq_refl eq_refl eq_refl Hr) in H.
  assert (Hak : In "A" (addresses kept)).
  { apply Hin. split; [left; reflexivity | intros []]. }
  destruct kept as [|t ts]; [destruct Hak|].
  set (kept := t :: ts) in *.
  match type of H with context [gather _ _ _ _ _ _ ?r0] => set (start := r0) in * end.
  assert (Hspin : forall a e, throttled_eval fuel (PStr a) = Raise e ->
                              stop_text (exn_msg e) = false).
  { intros a e He. rewrite throttled_eval_spins in He. discriminate. }
  assert (Hinv : rows_written "T1" "Token One (T1)" "T1" kept (throttled_eval fuel)
                   (gather "T1" "Token One (T1)" "T1" kept (throttled_eval fuel)
                      schedule start)).
  { apply gather_rows_written; try assumption.
    apply rows_written_start. reflexivity. }
  cbv zeta in H.
  destruct (all_finished _) eqn:Hall.
  - destruct (all_rows_written "T1" "Token One (T1)" "T1" kept (throttled_eval fuel)
                _ "A" Hinv Hall Hak) as (Hend & _).
    apply Hend. apply throttled_eval_spins.
  - cbn [fst snd] in H. destruct Hinv as (Hflag & _).
    destruct H as [H|H]; [apply H; reflexivity | congruence].
Qed.

End RunWitnesses.

(** ** Worked runs *)

Section Runs.
Import Gmgn Processor Scenario.

(** A throttled summary is fetched at the third attempt. *)
Example fetch_after_two_429 :
  _sync_fetch (three_wallets (wallet_stat_url "A" default_period)) None "u" 5
  = (Ret (PDict good_summary),
     [EWaitSlot 1; EGet 1; ESleep 1 (3 + uniform 0 2 (1 # 2))%Q;
      EWaitSlot 2; EGet 2; ESleep 2 (3 + uniform 0 2 (1 # 2))%Q;
      EWaitSlot 3; EGet 3]).
Proof. reflexivity. Qed.

(** The check that follows a 429 raises inside the [try]: the generic
    handler sleeps 5 seconds and the loop goes on. *)
Example stop_at_429_check :
  _sync_fetch flaky (Some raised_at_first_429) "u" 2
  = (Spin,
     [EWaitSlot 1; EStopCheck 1 BeforeAttempt false; EGet 1;
      EStopCheck 1 BeforeSleep true; ESleep 1 5;
      EWaitSlot 2; EStopCheck 2 BeforeAttempt false; EGet 2;
      EStopCheck 2 BeforeSleep false; ESleep 2 (3 + uniform 0 2 (1 # 2))%Q]).
Proof. reflexivity. Qed.

(** A ValueError of the first GET finds [resp] unbound in its handler. *)
Example value_error_before_any_response :
  _sync_fetch {| http := fun _ => GetRaises (mk_exn "ValueError" "Invalid header");
                 rnd := fun _ => 0%Q |} None "u" 3
  = (Raise unbound_resp, [EWaitSlot 1; EGet 1]).
Proof. reflexivity. Qed.

Example three_wallets_reasons :
  map (fun a => fst <$> match three_wallets_eval (PStr a) with
                        | Ret x => Some x
                        | _ => None
                        end) ["A"; "B"; "C"]
  = [Some "PASS"; Some "PASS"; Some "ROI_LOW"].
Proof. vm_compute. reflexivity. Qed.

(** The target of the three wallets, with a semaphore of two slots. *)
Example three_wallets_checkpoint :
  let run := process_single_token "T1" "Token One (T1)"
               (Ret (bullx_body [trader "A" 10 25; trader "B" 5 0; trader "C" 1 2]))
               three_wallets_eval [0; 1; 2; 1; 0; 2; 2]%nat (fresh 2) in
  fst run = Ret {| res_token_address := "T1"; res_token_name := "Token One (T1)";
                   res_total_traders := 3; res_passed_traders := 2 |} /\
  processed_tokens (snd run) !! "T1"
  = Some {| ck_token_name := "Token One (T1)"; ck_token_symbol := "T1";
            ck_total_holders := 3; ck_passed_traders := 2 |} /\
  evaluation_result <$> traders (snd run) !! ("C", "T1") = Some "ROI_LOW" /\
  calls (snd run)
  = [TokenCallback "Token One (T1)"; FetchTraders "T1";
     EvaluateTrader "T1" (PStr "A"); EvaluateTrader "T1" (PStr "B");
     EvaluateTrader "T1" (PStr "C"); ProgressCallback 3 3 2].
Proof. vm_compute. repeat split. Qed.

(** A run whose first wallet-list fetch is answered 429. *)
Example run_stopped_by_bullx_429 :
  let run := process_all_tokens (failing_env rate_limited) (fresh 7) in
  fst run = Ret [{| res_token_address := "T1"; res_token_name := "Token One (T1)";
                    res_total_traders := 0; res_passed_traders := 0 |}] /\
  stop_processing (snd run) = true /\
  processed_tokens (snd run) !! "T2" = None /\
  calls (snd run)
  = [TokenCallback "Token One (T1)"; FetchTraders "T1";
     FatalCallback "API Error 429: Rate limit hit. Stopping processor."].
Proof. vm_compute. repeat split. Qed.

Example token_symbols :
  map token_symbol_of ["UNKNOWN"; "Token One (T1)"; "dogwifhat"; "Odd ()"; ""]
  = [Ret "UNKNOWN"; Ret "T1"; Ret "dogwifhat"; Ret "Odd";
     Raise (mk_exn "IndexError" "list index out of range")].
Proof. reflexivity. Qed.

Example tokens_file_lines :
  load_tokens two_tokens = [token_one; token_two].
Proof. reflexivity. Qed.

End Runs.

(** * Further properties of the code *)

(** ** The rate limiter *)

Section LimiterFacts.
Import Gmgn Scenario.

Lemma wait_slot_wakes (next_allowed last now woke : Q) (rest : list (Q * Q)) :
  clock_ok next_allowed last ((now, woke) :: rest) ->
  (next_allowed <= woke)%Q /\ (last <= woke)%Q.
Proof.
  cbn [clock_ok _wait_slot fst snd]. intros (Hlast & Hsleep & _).
  destruct (Qle_bool next_allowed now) eqn:E.
  - apply Qle_bool_iff in E. split; lra.
  - assert (now < next_allowed)%Q by (apply Qnot_le_lt; intros H; apply Qle_bool_iff in H; congruence). split; lra.
Qed.

(** X1: two successive callers of [_wait_slot] go on at least
    [REQUEST_DELAY] = 0.2 s apart, whatever the clock reads, and none
    goes on before the instant the limiter allows. *)
Theorem wait_slot_spacing (clock : list (Q * Q)) :
  forall (next_allowed last : Q),
    clock_ok next_allowed last clock ->
    (forall t, head (wait_slots next_allowed clock) = Some t -> (next_allowed <= t)%Q) /\
    (forall (i : nat) t t',
        wait_slots next_allowed clock !! i = Some t ->
        wait_slots next_allowed clock !! S i = Some t' ->
        (t + (2 # 10) <= t')%Q).
Proof.
  induction clock as [|[now woke] rest IH]; intros next_allowed last Hok.
  - split; intros; discriminate.
  - pose proof (wait_slot_wakes _ _ _ _ _ Hok) as [Hna Hlast].
    destruct Hok as (_ & _ & Hrest). cbn [_wait_slot snd] in Hrest.
    specialize (IH _ _ Hrest) as [IHhead IHgap].
    cbn [wait_slots _wait_slot snd]. split.
    + cbn [head]. intros t [= <-]. exact Hna.
    + intros [|i] t t'; cbn [lookup list_lookup].
      * intros [= <-] Ht'. unfold REQUEST_DELAY in IHhead.
        apply IHhead. destruct (wait_slots _ rest); [discriminate|].
        cbn in Ht'. cbn [head]. exact Ht'.
      * apply IHgap.
Qed.

End LimiterFacts.

Section LimiterWitness.
Import Gmgn Scenario.

(** Three callers: the second arrives 50 ms after the first and sleeps. *)
Lemma wait_slot_spacing_witness :
  wait_slots 0 [(1, 1); (1 + (5 # 100), 1 + (25 # 100)); (3, 3)]%Q !! 1%nat
  = Some (1 + (25 # 100))%Q /\
  (1 + (2 # 10) <= 1 + (25 # 100))%Q.
Proof.
  split; [reflexivity|].
  refine (proj2 (wait_slot_spacing
                   [(1, 1); (1 + (5 # 100), 1 + (25 # 100)); (3, 3)]%Q 0%Q 0%Q _)
            0%nat 1%Q (1 + (25 # 100))%Q _ _).
  - cbn [clock_ok]. repeat split; vm_compute; discriminate.
  - reflexivity.
  - reflexivity.
Defined.

End LimiterWitness.

(** ** The fetch client: how a fetch ends *)

Section FetchEnds.
Import Gmgn Scenario.

Variable up : upstream.
Variable stop : stop_callback.
Variable url : string.

Lemma fetch_ends_later (a a' : nat) (o : outcome pyval) :
  (a <= a')%nat -> fetch_ends up stop url a' o -> fetch_ends up stop url a o.
Proof.
  intros Hle. destruct o as [data|e|]; cbn [fetch_ends]; [| |tauto].
  - intros (k & payload & code & Hk & H). exists k, payload, code. split; [lia|exact H].
  - intros [(-> & k & Hk & H) | (-> & k & e' & Hk & H)]; [left|right]; split; try reflexivity.
    + exists k. split; [lia|exact H].
    + exists k, e'. split; [lia|exact H].
Qed.

Lemma loop_ends (fuel : nat) :
  forall attempt bound,
    (bound = false ->
     forall j, (1 <= j <= attempt)%nat -> binds_resp (http up j) = false) ->
    fetch_ends up stop url attempt
      (fst (sync_fetch_loop up stop url fuel attempt bound)).
Proof.
  induction fuel as [|fuel IH]; intros attempt bound Hinv; [exact I|].
  cbn [sync_fetch_loop].
  destruct (stop_says stop url (S attempt) BeforeAttempt) eqn:Hstop.
  { left. split; [reflexivity|]. exists (S attempt). split; [lia|exact Hstop]. }
  assert (Hagain : forall head secs,
    fetch_ends up stop url attempt
      (fst (after_events (head ++ [ESleep (S attempt) secs])
              (sync_fetch_loop up stop url fuel (S attempt)
                 (bound || binds_resp (http up (S attempt))))))).
  { intros head secs. unfold after_events. cbn [fst].
    apply (fetch_ends_later attempt (S attempt)); [lia|]. apply IH.
    intros Hb j Hj. apply orb_false_iff in Hb as [Hb Hk].
    destruct (Nat.eq_dec j (S attempt)) as [->|Hne]; [exact Hk|].
    apply Hinv; [exact Hb|lia]. }
  destruct (fst (try_body up stop url (S attempt))) as [[secs|data]|e|] eqn:Hbody.
  - apply Hagain.
  - cbn [fst fetch_ends]. unfold try_body in Hbody.
    destruct (http up (S attempt)) as [e| |st| |payload] eqn:Hhttp; cbn [fst] in Hbody;
      try discriminate.
    + destruct (stop_says stop url (S attempt) BeforeSleep); discriminate.
    + destruct (py_get payload "code" (PInt 0)) as [code| |] eqn:Hcode;
        cbn [obind] in Hbody; try discriminate.
      destruct (ne_zero code) eqn:Hz; [discriminate|].
      destruct (py_get payload "data" (PDict [])) as [d| |] eqn:Hdata;
        cbn [obind] in Hbody; try discriminate.
      injection Hbody as <-.
      exists (S attempt), payload, code. auto.
  - destruct (is_value_error e) eqn:Hve; [|apply Hagain].
    destruct (bound || binds_resp (http up (S attempt))) eqn:Hb.
    + apply Hagain.
    + right. split; [reflexivity|]. apply orb_false_iff in Hb as [Hb Hk].
      unfold try_body in Hbody.
      destruct (http up (S attempt)) as [e'| |st| |payload] eqn:Hhttp;
        try discriminate Hk.
      cbn [fst] in Hbody. injection Hbody as ->.
      exists (S attempt), e. refine (conj _ (conj Hhttp (conj Hve _))); [lia|].
      intros j Hj. destruct (Nat.eq_dec j (S attempt)) as [->|Hne].
      * rewrite Hhttp. reflexivity.
      * apply Hinv; [exact Hb|lia].
  - exact I.
Qed.

(** X2: [_sync_fetch] gives back only the data of an answer whose code
    is 0, and the only exceptions that leave it are the cancellation
    before an attempt and the unbound [resp] of a ValueError raised
    before any GET has returned: no transport or decoding error reaches
    the caller. *)
Theorem sync_fetch_ends (fuel : nat) :
  (forall data,
      fst (_sync_fetch up stop url fuel) = Ret data ->
      exists k payload code,
        http up k = Body payload /\
        py_get payload "code" (PInt 0) = Ret code /\ ne_zero code = false /\
        py_get payload "data" (PDict []) = Ret data) /\
  (forall e,
      fst (_sync_fetch up stop url fuel) = Raise e ->
      (e = stopped_by_user /\ exists k, stop_says stop url k BeforeAttempt = true) \/
      (e = unbound_resp /\
       exists k e', http up k = GetRaises e' /\ is_value_error e' = true /\
                    forall j, (1 <= j <= k)%nat -> binds_resp (http up j) = false)).
Proof.
  pose proof (loop_ends fuel 0 false) as H. unfold _sync_fetch.
  destruct (fst (sync_fetch_loop up stop url fuel 0 false)) as [d|e0|];
    (split; [intros data [= <-] | intros e [= <-]]).
  - destruct H as (k & payload & code & _ & H); [intros _ j Hj; lia|].
    exists k, payload, code. exact H.
  - destruct H as [(-> & k & _ & H) | (-> & k & e' & _ & H)]; [intros _ j Hj; lia| |].
    + left. split; [reflexivity|]. exists k. exact H.
    + right. split; [reflexivity|]. exists k, e'. exact H.
Qed.

Lemma gets_app (xs ys : list event) : gets (xs ++ ys) = (gets xs ++ gets ys)%list.
Proof.
  induction xs as [|[] xs IH]; cbn [gets app]; rewrite ?IH; reflexivity.
Qed.

Lemma slots_app (xs ys : list event) : slots (xs ++ ys) = (slots xs ++ slots ys)%list.
Proof.
  induction xs as [|[] xs IH]; cbn [slots app]; rewrite ?IH; reflexivity.
Qed.

Lemma stop_events_quiet (k : nat) (ph : phase) :
  gets (stop_events stop url k ph) = [] /\ slots (stop_events stop url k ph) = [].
Proof. unfold stop_events. destruct stop; split; reflexivity. Qed.

Lemma try_body_quiet (k : nat) :
  gets (snd (try_body up stop url k)) = [] /\
  slots (snd (try_body up stop url k)) = [] /\
  sleeps (snd (try_body up stop url k)) = [].
Proof.
  unfold try_body. destruct (http up k); cbn [snd]; try (repeat split; reflexivity).
  destruct (stop_says stop url k BeforeSleep); cbn [snd];
    (refine (conj _ (conj _ _));
     [apply stop_events_quiet | apply stop_events_quiet | apply sleeps_stop_events]).
Qed.

(** One iteration on a transient answer: a sleep, then the next attempt. *)
Lemma loop_transient (fuel attempt : nat) (bound : bool) :
  stop_says stop url (S attempt) BeforeAttempt = false ->
  transient (http up (S attempt)) = true ->
  exists secs bound',
    sync_fetch_loop up stop url (S fuel) attempt bound
    = after_events
        ((EWaitSlot (S attempt) :: stop_events stop url (S attempt) BeforeAttempt)
           ++ EGet (S attempt) :: snd (try_body up stop url (S attempt))
           ++ [ESleep (S attempt) secs])
        (sync_fetch_loop up stop url fuel (S attempt) bound').
Proof.
  intros Hstop Htr. cbn [sync_fetch_loop]. rewrite Hstop.
  assert (Hshape : forall (xs ys : list event) e z,
            ((xs ++ e :: ys) ++ [z])%list = (xs ++ e :: ys ++ [z])%list).
  { intros. rewrite <- app_assoc. reflexivity. }
  destruct (fst (try_body up stop url (S attempt))) as [[secs|data]|e|] eqn:Hbody.
  - eexists _, _. rewrite Hshape. reflexivity.
  - exfalso. unfold try_body, transient in *.
    destruct (http up (S attempt)) as [e| |st| |payload]; cbn [fst] in Hbody;
      try discriminate.
    + destruct (stop_says stop url (S attempt) BeforeSleep); discriminate.
    + destruct (py_get payload "code" (PInt 0)) as [code| |];
        cbn [obind] in Hbody; try discriminate.
      rewrite Htr in Hbody.  discriminate.
  - destruct (is_value_error e) eqn:Hve;
      [|eexists _, _; rewrite Hshape; reflexivity].
    assert (Hb : bound || binds_resp (http up (S attempt)) = true).
    { unfold try_body, transient in *.
      destruct (http up (S attempt)) as [e0| |st| |payload]; cbn [fst] in Hbody.
      - injection Hbody as ->. rewrite Hve in Htr. discriminate.
      - destruct (stop_says stop url (S attempt) BeforeSleep); [|discriminate].
        injection Hbody as <-. discriminate.
      - injection Hbody as <-. discriminate.
      - apply orb_true_r.
      - apply orb_true_r. }
    rewrite Hb. eexists _, _. rewrite Hshape. reflexivity.
  - exfalso. unfold try_body in Hbody.
    destruct (http up (S attempt)) as [e| |st| |payload]; cbn [fst] in Hbody;
      try discriminate.
    + destruct (stop_says stop url (S attempt) BeforeSleep); discriminate.
    + destruct payload; cbn in Hbody; try discriminate.
      destruct (ne_zero _); discriminate.
Qed.

Lemma loop_succeeds (payload code data : pyval) (m : nat) :
  forall attempt bound fuel,
    (m < fuel)%nat ->
    (forall j, (attempt < j <= attempt + m)%nat -> transient (http up j) = true) ->
    (forall j, (attempt < j <= attempt + m + 1)%nat ->
               stop_says stop url j BeforeAttempt = false) ->
    http up (attempt + m + 1) = Body payload ->
    py_get payload "code" (PInt 0) = Ret code -> ne_zero code = false ->
    py_get payload "data" (PDict []) = Ret data ->
    let run := sync_fetch_loop up stop url fuel attempt bound in
    fst run = Ret data /\ gets (snd run) = seq (S attempt) (S m) /\
    List.length (sleeps (snd run)) = m.
Proof.
  induction m as [|m IH]; intros attempt bound fuel Hfuel Htr Hstop Hhttp Hcode Hz Hdata.
  - destruct fuel as [|fuel]; [lia|]. cbn zeta. cbn [sync_fetch_loop].
    rewrite (Hstop (S attempt)) by lia.
    replace (attempt + 0 + 1)%nat with (S attempt) in Hhttp by lia.
    unfold try_body. rewrite Hhttp, Hcode. cbn [obind fst snd]. rewrite Hz, Hdata.
    cbn [obind fst snd]. refine (conj eq_refl (conj _ _)).
    + rewrite gets_app. cbn [gets].
      rewrite (proj1 (stop_events_quiet _ _)). reflexivity.
    + rewrite sleeps_app. cbn [sleeps].
      rewrite sleeps_stop_events. reflexivity.
  - destruct fuel as [|fuel]; [lia|]. cbn zeta.
    destruct (loop_transient fuel attempt bound) as (secs & bound' & ->).
    { apply Hstop. lia. }
    { apply Htr. lia. }
    unfold after_events. cbn [fst snd].
    specialize (IH (S attempt) bound' fuel). cbn zeta in IH.
    destruct IH as (Hret & Hgets & Hsleeps); try assumption.
    + lia.
    + intros j Hj. apply Htr. lia.
    + intros j Hj. apply Hstop. lia.
    + replace (S attempt + m + 1)%nat with (attempt + S m + 1)%nat by lia. exact Hhttp.
    + refine (conj Hret (conj _ _)).
      * rewrite !gets_app. cbn [gets]. rewrite !gets_app. cbn [gets].
        rewrite (proj1 (stop_events_quiet _ _)), (proj1 (try_body_quiet _)), Hgets.
        reflexivity.
      * rewrite !sleeps_app. cbn [sleeps]. rewrite !sleeps_app. cbn [sleeps].
        rewrite sleeps_stop_events, (proj2 (proj2 (try_body_quiet _))). cbn [app List.length]. rewrite Hsleeps.
        reflexivity.
Qed.

(** X3: when the [n]-th answer is the first with code 0, the answers
    before it are transient failures and no cancellation is requested
    before an attempt, [_sync_fetch] returns the data of that answer
    after exactly [n] GETs and [n - 1] sleeps. *)
Theorem sync_fetch_succeeds (n fuel : nat) (payload code data : pyval) :
  (1 <= n <= fuel)%nat ->
  (forall j, (1 <= j < n)%nat -> transient (http up j) = true) ->
  (forall j, (1 <= j <= n)%nat -> stop_says stop url j BeforeAttempt = false) ->
  http up n = Body payload ->
  py_get payload "code" (PInt 0) = Ret code -> ne_zero code = false ->
  py_get payload "data" (PDict []) = Ret data ->
  fst (_sync_fetch up stop url fuel) = Ret data /\
  gets (snd (_sync_fetch up stop url fuel)) = seq 1 n /\
  List.length (sleeps (snd (_sync_fetch up stop url fuel))) = (n - 1)%nat.
Proof.
  intros Hn Htr Hstop Hhttp Hcode Hz Hdata. unfold _sync_fetch.
  destruct n as [|m]; [lia|].
  replace (S m - 1)%nat with m by lia.
  apply (loop_succeeds payload code data m 0 false fuel); try assumption.
  - lia.
  - intros j Hj. apply Htr. lia.
  - intros j Hj. apply Hstop. lia.
  - replace (0 + m + 1)%nat with (S m) by lia. exact Hhttp.
Qed.

End FetchEnds.

Section FetchEndsWitness.
Import Gmgn Scenario.

(** Two throttled answers and a broken body, then the fourth answer has
    code 0: four GETs and three sleeps. *)
Lemma sync_fetch_succeeds_witness :
  fst (_sync_fetch flaky None "u" 10) = Ret (PDict []) /\
  gets (snd (_sync_fetch flaky None "u" 10)) = [1; 2; 3; 4]%nat /\
  List.length (sleeps (snd (_sync_fetch flaky None "u" 10))) = 3%nat.
Proof.
  apply (sync_fetch_succeeds flaky None "u" 4 10
           (PDict [("code", PInt 0)]) (PInt 0) (PDict [])).
  - lia.
  - intros j Hj. destruct j as [|[|[|[|j]]]]; try lia; reflexivity.
  - intros j Hj. reflexivity.
  - reflexivity.
  - reflexivity.
  - reflexivity.
  - reflexivity.
Defined.

End FetchEndsWitness.

(** ** The fetch client: the order of its attempts *)

Section FetchOrder.
Import Gmgn Scenario.

Variable up : upstream.
Variable stop : stop_callback.
Variable url : string.

(** A list split at an element that its first part does not hold. *)
Lemma split_after (xs ys pre post : list event) (e : event) :
  (xs ++ ys)%list = (pre ++ e :: post)%list -> ~ In e xs ->
  exists pre', pre = (xs ++ pre')%list /\ ys = (pre' ++ e :: post)%list.
Proof.
  revert pre. induction xs as [|x xs IH]; intros pre Heq Hnot.
  - exists pre. split; [reflexivity|exact Heq].
  - destruct pre as [|p pre]; cbn [app] in Heq; injection Heq as Hx Heq.
    + exfalso. apply Hnot. left. exact Hx.
    + subst p. destruct (IH pre Heq) as (pre' & -> & Hys).
      * intros Hin. apply Hnot. right. exact Hin.
      * exists pre'. split; [reflexivity|exact Hys].
Qed.

Lemma loop_slot_before_get (fuel : nat) :
  forall attempt bound pre k post,
    snd (sync_fetch_loop up stop url fuel attempt bound) = (pre ++ EGet k :: post)%list ->
    In (EWaitSlot k) pre.
Proof.
  induction fuel as [|fuel IH]; intros attempt bound pre k post.
  { cbn. destruct pre; discriminate. }
  assert (Hhead : ~ In (EGet k)
                    (EWaitSlot (S attempt) :: stop_events stop url (S attempt) BeforeAttempt)).
  { cbn [In]. intros [H|H]; [discriminate|]. apply in_stop_events in H. discriminate. }
  destruct (loop_trace up stop url fuel attempt bound) as [[_ ->] | (_ & rest & -> & Hrest)].
  - intros Heq. exfalso. apply Hhead. rewrite Heq. apply in_elt.
  - intros Heq. apply split_after in Heq as (pre1 & -> & Heq); [|exact Hhead].
    apply in_or_app. destruct pre1 as [|p pre1]; cbn [app] in Heq; injection Heq as Hp Heq.
    + left. left. congruence.
    + right. right. subst p.
      apply split_after in Heq as (pre2 & -> & Heq).
      2:{ intros H. apply in_try_body in H as [_ H]. discriminate. }
      apply in_or_app. right.
      destruct Hrest as [-> | (secs & b & ->)]; [destruct pre2; discriminate|].
      destruct pre2 as [|p pre2]; cbn [app] in Heq; injection Heq as Hp Heq;
        [discriminate|].
      right. exact (IH _ _ _ _ _ Heq).
Qed.

Lemma loop_attempts (fuel : nat) :
  forall attempt bound,
    exists m, (m <= fuel)%nat /\
      slots (snd (sync_fetch_loop up stop url fuel attempt bound)) = seq (S attempt) m /\
      (gets (snd (sync_fetch_loop up stop url fuel attempt bound)) = seq (S attempt) m \/
       gets (snd (sync_fetch_loop up stop url fuel attempt bound))
       = seq (S attempt) (pred m)).
Proof.
  induction fuel as [|fuel IH]; intros attempt bound.
  { exists 0%nat. cbn. auto. }
  destruct (loop_trace up stop url fuel attempt bound) as [[_ ->] | (_ & rest & -> & Hrest)].
  - exists 1%nat. cbn [slots gets].
    rewrite (proj1 (stop_events_quiet stop url _ _)),
            (proj2 (stop_events_quiet stop url _ _)).
    refine (conj _ (conj eq_refl (or_intror eq_refl))). lia.
  - rewrite !slots_app, !gets_app. cbn [slots gets]. rewrite !slots_app, !gets_app.
    rewrite (proj1 (stop_events_quiet stop url _ _)),
            (proj2 (stop_events_quiet stop url _ _)),
            (proj1 (try_body_quiet up stop url _)),
            (proj1 (proj2 (try_body_quiet up stop url _))).
    cbn [app].
    destruct Hrest as [-> | (secs & b & ->)].
    + exists 1%nat. refine (conj _ (conj eq_refl (or_introl eq_refl))). lia.
    + destruct (IH (S attempt) b) as (m & Hm & Hslots & Hgets).
      exists (S m). cbn [slots gets]. rewrite Hslots. refine (conj _ (conj eq_refl _)); [lia|].
      destruct Hgets as [-> | ->].
      * left. reflexivity.
      * destruct m as [|m].
        -- left. (* the next iteration did not start *)
           cbn in Hslots. reflexivity.
        -- right. reflexivity.
Qed.

(** X4: every GET of [_sync_fetch] comes after its own attempt has taken
    a slot of the rate limiter; the attempts are numbered 1, 2, 3, ...
    without a gap, each takes one slot and issues at most one GET. *)
Theorem slot_before_every_get (fuel : nat) :
  let trace := snd (_sync_fetch up stop url fuel) in
  (forall pre k post, trace = (pre ++ EGet k :: post)%list -> In (EWaitSlot k) pre) /\
  exists m, (m <= fuel)%nat /\ slots trace = seq 1 m /\
            (gets trace = seq 1 m \/ gets trace = seq 1 (pred m)).
Proof.
  cbn zeta. unfold _sync_fetch. split.
  - apply loop_slot_before_get.
  - apply loop_attempts.
Qed.

End FetchOrder.

(** ** The evaluator: its reasons *)

Section EvaluatorMore.
Import Gmgn Scenario.

Variable float_of_str : string -> option Q.

Lemma build_stats_keys (data top_hold : pyval) (stats : dict) :
  build_stats float_of_str data top_hold = Ret stats -> map fst stats = stats_keys.
Proof.
  unfold build_stats.
  repeat (match goal with
          | |- obind ?m _ = _ -> _ => destruct m; cbn [obind]; try discriminate
          end).
  intros [= <-]. reflexivity.
Qed.

Lemma apply_filters_reasons (stats stats' : dict) (min_pnl30 min_roi : Q) (reason : string) :
  apply_filters stats min_pnl30 min_roi = Ret (reason, stats') ->
  In reason ["TAG_sandwich_bot"; "PNL30_LOW"; "ROI_LOW"; "PASS"] /\ stats' = stats.
Proof.
  unfold apply_filters.
  destruct (py_str_in _ _) as [[]| |]; cbn [obind]; try discriminate.
  { intros [= <- <-]. cbn [In]. intuition. }
  destruct (py_le _ _) as [[]| |]; cbn [obind]; try discriminate.
  { intros [= <- <-]. cbn [In]. intuition. }
  destruct (py_iter _) as [hs| |]; cbn [obind]; try discriminate.
  destruct (all_roi_below _ _) as [[]| |]; cbn [obind]; try discriminate;
    intros [= <- <-]; cbn [In]; intuition.
Qed.

(** X5: [evaluate_trader] returns one of five reasons and never
    ["ERROR"]. ["JSON_FAIL"] is returned exactly when the summary is
    falsy, with an empty stats dict; with every other reason the stats
    dict has the nine keys that the store reads. *)
Theorem evaluate_trader_reasons (fetch : fetcher) (wallet period : string)
    (min_pnl30 min_roi : Q) (top_n : Z) (reason : string) (stats : dict) :
  evaluate_trader float_of_str fetch wallet period min_pnl30 min_roi top_n
  = Ret (reason, stats) ->
  exists data,
    fetch (wallet_stat_url wallet period) = Ret data /\
    ((truthy data = false /\ reason = "JSON_FAIL" /\ stats = []) \/
     (truthy data = true /\
      In reason ["TAG_sandwich_bot"; "PNL30_LOW"; "ROI_LOW"; "PASS"] /\
      map fst stats = stats_keys)).
Proof.
  unfold evaluate_trader.
  destruct (fetch (wallet_stat_url wallet period)) as [data| |]; cbn [obind];
    try discriminate.
  intros H. exists data. split; [reflexivity|].
  destruct (truthy data); cbn [negb] in H.
  - right. split; [reflexivity|].
    destruct (get_wallet_holdings fetch wallet) as [h| |]; cbn [obind] in H;
      try discriminate.
    destruct (py_slice_to h top_n) as [t| |]; cbn [obind] in H; try discriminate.
    destruct (build_stats float_of_str data t) as [s| |] eqn:Hs; cbn [obind] in H;
      try discriminate.
    apply apply_filters_reasons in H as [Hin ->].
    split; [exact Hin|]. exact (build_stats_keys _ _ _ Hs).
  - left. injection H as <- <-. auto.
Qed.

Lemma all_roi_below_reaches (tops : list pyval) (min_roi : Q) :
  Forall (fun h => exists q, roi_of h = PFloat q) tops ->
  all_roi_below tops min_roi = Ret (negb (existsb (reaches min_roi) tops)).
Proof.
  induction 1 as [|h tops [q Hq] _ IH]; [reflexivity|].
  cbn [all_roi_below existsb]. unfold reaches at 1. rewrite Hq.
  cbn [py_lt py_num obind]. destruct (Qle_bool min_roi q); cbn [negb orb].
  - reflexivity.
  - exact IH.
Qed.

Lemma holding_entries_roi (hs tops : list pyval) :
  omapM (holding_entry float_of_str) hs = Ret tops ->
  Forall (fun h => exists q, roi_of h = PFloat q) tops /\
  List.length tops = List.length hs.
Proof.
  revert tops. induction hs as [|h hs IH]; intros tops; cbn [omapM obind].
  - intros [= <-]. split; [constructor|reflexivity].
  - destruct (holding_entry float_of_str h) as [e| |] eqn:He; cbn [obind];
      try discriminate.
    destruct (omapM _ hs) as [es| |]; cbn [obind]; try discriminate.
    intros [= <-]. destruct (IH es eq_refl) as [Hall Hlen]. split.
    + constructor; [exact (holding_entry_roi float_of_str _ _ He)|exact Hall].
    + cbn [List.length]. rewrite Hlen. reflexivity.
Qed.

(** X6: the ROI filter.  A wallet past the tag and PnL filters gets
    ["PASS"] when one of its top holdings has an ROI of at least
    [min_roi], the threshold included, and ["ROI_LOW"] otherwise. *)
Theorem roi_filter_is_inclusive (fetch : fetcher) (wallet period : string)
    (min_pnl30 min_roi : Q) (top_n : Z) (d : dict) (stats : dict) (x : Q) :
  fetch (wallet_stat_url wallet period) = Ret (PDict d) ->
  d <> [] ->
  fetched_stats float_of_str fetch wallet (PDict d) top_n = Ret stats ->
  py_str_in "sandwich_bot" (dict_get d "tags" (PList [])) = Ret false ->
  py_num (dict_get d "pnl_30d" (PFloat 0)) = Some x ->
  (min_pnl30 < x)%Q ->
  exists tops,
    field stats "top_holdings" = PList tops /\
    Forall (fun h => exists q, roi_of h = PFloat q) tops /\
    evaluate_trader float_of_str fetch wallet period min_pnl30 min_roi top_n
    = Ret (if existsb (reaches min_roi) tops then "PASS" else "ROI_LOW", stats).
Proof.
  intros Hfetch Hd Hstats Htag Hx Hlt.
  rewrite (evaluate_trader_filters float_of_str _ _ _ _ _ _ d stats Hfetch Hd Hstats).
  unfold fetched_stats in Hstats.
  destruct (get_wallet_holdings fetch wallet) as [h| |]; cbn [obind] in Hstats;
    try discriminate.
  destruct (py_slice_to h top_n) as [t| |]; cbn [obind] in Hstats; try discriminate.
  destruct (build_stats_fields float_of_str _ _ _ Hstats)
    as (Htags & Hpnl & hs & tops & _ & Htops & Hfield).
  destruct (holding_entries_roi _ _ Htops) as [Hroi _].
  exists tops. refine (conj Hfield (conj Hroi _)).
  unfold apply_filters. rewrite Htags, Htag. cbn [obind].
  rewrite Hpnl. unfold py_le. rewrite Hx. cbn [obind].
  assert (Hle : Qle_bool x min_pnl30 = false).
  { destruct (Qle_bool x min_pnl30) eqn:E; [|reflexivity].
    apply Qle_bool_iff in E. lra. }
  rewrite Hle, Hfield. cbn [py_iter obind].
  rewrite (all_roi_below_reaches tops min_roi Hroi). cbn [obind].
  destruct (existsb (reaches min_roi) tops); reflexivity.
Qed.

(** X7: only the first [top_n] holdings are read.  Two holdings lists
    with the same first [top_n] entries give the same evaluation, and
    the stats of a wallet hold at most [top_n] top holdings. *)
Theorem only_first_holdings_are_read (fetch fetch' : fetcher) (wallet period : string)
    (min_pnl30 min_roi : Q) (top_n : Z) (l l' : list pyval) :
  0 <= top_n ->
  fetch (wallet_stat_url wallet period) = fetch' (wallet_stat_url wallet period) ->
  get_wallet_holdings fetch wallet = Ret (PList l) ->
  get_wallet_holdings fetch' wallet = Ret (PList l') ->
  firstn (Z.to_nat top_n) l = firstn (Z.to_nat top_n) l' ->
  evaluate_trader float_of_str fetch wallet period min_pnl30 min_roi top_n
  = evaluate_trader float_of_str fetch' wallet period min_pnl30 min_roi top_n /\
  forall reason stats tops,
    evaluate_trader float_of_str fetch wallet period min_pnl30 min_roi top_n
    = Ret (reason, stats) ->
    field stats "top_holdings" = PList tops ->
    (List.length tops <= Z.to_nat top_n)%nat.
Proof.
  intros Hn Hsame Hl Hl' Hfirst. unfold evaluate_trader.
  rewrite <- Hsame, Hl, Hl'. cbn [obind py_slice_to].
  assert (Hstop : forall len, slice_stop len top_n = Z.to_nat top_n).
  { intros len. unfold slice_stop. destruct (top_n <? 0) eqn:E; [lia|reflexivity]. }
  rewrite !Hstop, <- Hfirst. split; [reflexivity|].
  intros reason stats tops.
  destruct (fetch (wallet_stat_url wallet period)) as [data| |]; cbn [obind];
    try discriminate.
  destruct (truthy data); cbn [negb].
  2:{ intros [= <- <-]. discriminate. }
  destruct (build_stats float_of_str data _) as [s| |] eqn:Hs; cbn [obind];
    try discriminate.
  intros H Hfield. apply apply_filters_reasons in H as [_ ->].
  destruct data as [| | | | |d0|d0]; try discriminate Hs.
  destruct (build_stats_fields float_of_str _ _ _ Hs)
    as (_ & _ & hs & tops' & Hiter & Htops & Hfield').
  rewrite Hfield in Hfield'. injection Hfield' as ->.
  destruct (holding_entries_roi _ _ Htops) as [_ ->].
  cbn [py_iter] in Hiter. injection Hiter as <-.
  rewrite length_firstn. lia.
Qed.

End EvaluatorMore.

Section EvaluatorMoreWitnesses.
Import Gmgn Scenario.

(** A wallet whose summary is an empty dict. *)
Lemma evaluate_trader_reasons_witness :
  exists data,
    fetch_of [] [] (wallet_stat_url "W0" default_period) = Ret data /\
    ((truthy data = false /\ "JSON_FAIL" = "JSON_FAIL" /\ @nil (string * pyval) = []) \/
     (truthy data = true /\
      In "JSON_FAIL" ["TAG_sandwich_bot"; "PNL30_LOW"; "ROI_LOW"; "PASS"] /\
      map fst (@nil (string * pyval)) = stats_keys)).
Proof.
  apply (evaluate_trader_reasons parse_demo (fetch_of [] []) "W0" default_period
           default_min_pnl30 default_min_roi default_top_n "JSON_FAIL" []).
  reflexivity.
Defined.

(** A wallet whose second holding has an ROI of 0.5. *)
Lemma roi_filter_is_inclusive_witness :
  exists stats tops,
    field stats "top_holdings" = PList tops /\
    Forall (fun h => exists q, roi_of h = PFloat q) tops /\
    evaluate_trader parse_demo
      (fetch_of good_summary [("holdings", PList [holding "AAA" "0.1"; holding "BBB" "0.5"])])
      "W4" default_period default_min_pnl30 default_min_roi default_top_n
    = Ret (if existsb (reaches default_min_roi) tops then "PASS" else "ROI_LOW", stats).
Proof.
  eexists.
  apply (roi_filter_is_inclusive parse_demo
           (fetch_of good_summary
              [("holdings", PList [holding "AAA" "0.1"; holding "BBB" "0.5"])])
           "W4" default_period default_min_pnl30 default_min_roi default_top_n
           good_summary _ 0.9%Q).
  - reflexivity.
  - discriminate.
  - reflexivity.
  - reflexivity.
  - reflexivity.
  - reflexivity.
Defined.

(** Two holdings lists that differ in their fourth entry only. *)
Lemma only_first_holdings_are_read_witness :
  let first3 := [holding "AAA" "0.1"; holding "BBB" "0.1"; holding "CCC" "0.1"] in
  evaluate_trader parse_demo
    (fetch_of good_summary [("holdings", PList (first3 ++ [holding "DDD" "0.5"]))])
    "W5" default_period default_min_pnl30 default_min_roi default_top_n
  = evaluate_trader parse_demo
      (fetch_of good_summary [("holdings", PList (first3 ++ [holding "EEE" "0.1"]))])
      "W5" default_period default_min_pnl30 default_min_roi default_top_n.
Proof.
  cbn zeta.
  refine (proj1 (only_first_holdings_are_read parse_demo
                   (fetch_of good_summary _) (fetch_of good_summary _)
                   "W5" default_period default_min_pnl30 default_min_roi default_top_n
                   _ _ _ _ _ _ _)).
  - unfold default_top_n. lia.
  - reflexivity.
  - reflexivity.
  - reflexivity.
  - reflexivity.
Defined.

End EvaluatorMoreWitnesses.

(** ** The wallet filters *)

Section WalletFilters.
Import Gmgn Scenario.

Variable float_of_str : string -> option Q.

Lemma py_abs_num (v : pyval) (x : Q) :
  py_num v = Some x -> exists w, py_abs v = Ret w /\ py_num w = Some (Qabs x).
Proof.
  destruct v as [|[]|z|q| | |]; cbn [py_num py_abs]; intros [= <-];
    eexists; (split; [reflexivity|]); reflexivity.
Qed.

Lemma Qle_bool_abs (n x : Q) :
  Qle_bool x 0 = false -> Qle_bool n (Qabs x) = Qle_bool n x.
Proof.
  intros Hpos.
  assert (Hx : (0 <= x)%Q).
  { destruct (Qlt_le_dec x 0) as [Hlt|Hle]; [|exact Hle].
    assert (Qle_bool x 0 = true) by (apply Qle_bool_iff; lra). congruence. }
  pose proof (Qabs_pos x Hx) as Habs.
  destruct (Qle_bool n x) eqn:E.
  - apply Qle_bool_iff. apply Qle_bool_iff in E. rewrite Habs. exact E.
  - destruct (Qle_bool n (Qabs x)) eqn:E'; [|reflexivity].
    apply Qle_bool_iff in E'. rewrite Habs in E'. apply Qle_bool_iff in E'. congruence.
Qed.

(** X8: [is_wallet_active] on numeric fields.  A wallet is active
    exactly when its realized PnL, the absolute value of its unrealized
    PnL, its revenue and its spending all reach 5000; a missing field
    counts as 0.0, and a large unrealized loss counts like a gain. *)
Theorem is_wallet_active_thresholds (d : dict) (realized unrealized rev spent : Q) :
  d <> [] ->
  py_num (dict_get d "realizedPnlUsd" (PFloat 0)) = Some realized ->
  py_num (dict_get d "unrealizedPnlUsd" (PFloat 0)) = Some unrealized ->
  py_num (dict_get d "totalRevenueUsd" (PFloat 0)) = Some rev ->
  py_num (dict_get d "totalSpentUsd" (PFloat 0)) = Some spent ->
  is_wallet_active (PDict d)
  = Ret (Qle_bool 5000 realized && Qle_bool 5000 (Qabs unrealized)
         && Qle_bool 5000 rev && Qle_bool 5000 spent).
Proof.
  intros Hd Hr Hu Hv Hs. unfold is_wallet_active.
  rewrite (truthy_dict d Hd). cbn [negb py_get obind].
  unfold py_le0. rewrite Hr. cbn [obind].
  destruct (Qle_bool realized 0) eqn:Hloss.
  - assert (Qle_bool 5000 realized = false) as ->; [|reflexivity].
    destruct (Qle_bool 5000 realized) eqn:E; [|reflexivity].
    apply Qle_bool_iff in E, Hloss. lra.
  - destruct (py_abs_num _ _ Hr) as (ar & -> & Har).
    destruct (py_abs_num _ _ Hu) as (au & -> & Hau).
    cbn [obind]. unfold py_ge_int, MIN_THRESHOLD. rewrite Har, Hau, Hv, Hs. cbn [obind].
    rewrite (Qle_bool_abs _ _ Hloss).
    change (inject_Z 5000) with 5000%Q.
    destruct (Qle_bool 5000 realized); cbn [negb andb]; [|reflexivity].
    destruct (Qle_bool 5000 (Qabs unrealized)); cbn [negb andb]; [|reflexivity].
    destruct (Qle_bool 5000 rev); cbn [negb andb]; reflexivity.
Qed.

Lemma get_gmgn_risk_floats (fetch : fetcher) (wallet : string) (d r : dict)
    (a b c : Q) :
  fetch (wallet_stat_url wallet "7d") = Ret (PDict d) ->
  d <> [] ->
  (if truthy (dict_get d "risk" PNone) then dict_get d "risk" PNone else PDict [])
  = PDict r ->
  py_float float_of_str (dict_get r "no_buy_hold_ratio" (PFloat 0)) = Ret (PFloat a) ->
  py_float float_of_str (dict_get r "fast_tx_ratio" (PFloat 0)) = Ret (PFloat b) ->
  py_float float_of_str (dict_get r "sell_pass_buy_ratio" (PFloat 0)) = Ret (PFloat c) ->
  get_gmgn_risk float_of_str fetch wallet
  = Ret [("didnt_buy_ratio", PFloat a); ("buy_sell_under_5s_ratio", PFloat b);
         ("sold_gt_bought_ratio", PFloat c)].
Proof.
  intros Hfetch Hd Hrisk Ha Hb Hc. unfold get_gmgn_risk.
  rewrite Hfetch. cbn [obind]. rewrite (truthy_dict d Hd). cbn [negb py_get obind].
  rewrite Hrisk. cbn [py_get obind]. rewrite Ha. cbn [obind]. rewrite Hb. cbn [obind].
  rewrite Hc. reflexivity.
Qed.

(** X9: [is_wallet_safe] on a summary with a risk section whose three
    ratios are numbers: the wallet is safe exactly when the no-buy ratio
    is below 0.6, the fast-trade ratio below 0.40 and the
    sold-more-than-bought ratio below 0.10, all three strictly. *)
Theorem is_wallet_safe_thresholds (fetch : fetcher) (wallet : string) (d r : dict)
    (a b c : Q) :
  fetch (wallet_stat_url wallet "7d") = Ret (PDict d) ->
  d <> [] ->
  dict_get d "risk" PNone = PDict r ->
  r <> [] ->
  py_float float_of_str (dict_get r "no_buy_hold_ratio" (PFloat 0)) = Ret (PFloat a) ->
  py_float float_of_str (dict_get r "fast_tx_ratio" (PFloat 0)) = Ret (PFloat b) ->
  py_float float_of_str (dict_get r "sell_pass_buy_ratio" (PFloat 0)) = Ret (PFloat c) ->
  is_wallet_safe float_of_str fetch wallet
  = Ret (negb (Qle_bool 0.6 a) && negb (Qle_bool 0.40 b) && negb (Qle_bool 0.10 c)).
Proof.
  intros Hfetch Hd Hrisk Hr Ha Hb Hc. unfold is_wallet_safe.
  rewrite (get_gmgn_risk_floats fetch wallet d r a b c Hfetch Hd); try assumption.
  2:{ rewrite Hrisk, (truthy_dict r Hr). reflexivity. }
  cbn [obind truthy negb]. cbn.
  destruct (Qle_bool 0.6 a); cbn [negb andb]; [reflexivity|].
  destruct (Qle_bool 0.40 b); cbn [negb andb]; reflexivity.
Qed.

(** X10: without data the wallet is unsafe, but a summary that has
    data and no risk section (the key is missing, null or empty) makes
    the wallet safe: the three ratios default to 0.0. *)
Theorem is_wallet_safe_without_risk_section (fetch : fetcher) (wallet : string)
    (data : pyval) :
  fetch (wallet_stat_url wallet "7d") = Ret data ->
  (truthy data = false -> is_wallet_safe float_of_str fetch wallet = Ret false) /\
  (forall d, data = PDict d -> d <> [] ->
             truthy (dict_get d "risk" PNone) = false ->
             is_wallet_safe float_of_str fetch wallet = Ret true).
Proof.
  intros Hfetch. split.
  - intros Hfalsy. unfold is_wallet_safe, get_gmgn_risk.
    rewrite Hfetch. cbn [obind]. rewrite Hfalsy. reflexivity.
  - intros d -> Hd Hrisk. unfold is_wallet_safe.
    rewrite (get_gmgn_risk_floats fetch wallet d [] 0 0 0 Hfetch Hd);
      try reflexivity.
    rewrite Hrisk. reflexivity.
Qed.

Lemma py_item_get (h : pyval) (k : string) (v dflt : pyval) :
  py_item h k = Ret v -> py_get h k dflt = Ret v.
Proof.
  destruct h; cbn [py_item py_get]; try discriminate.
  unfold dict_get. destruct (assoc k d); [intros [= ->]; reflexivity|discriminate].
Qed.

Lemma py_float_is_float (v r : pyval) :
  py_float float_of_str v = Ret r -> exists q, r = PFloat q.
Proof.
  unfold py_float. destruct v; cbn [py_num];
    try (intros [= <-]; eexists; reflexivity); try discriminate.
  destruct (float_of_str s); [intros [= <-]; eexists; reflexivity | discriminate].
Qed.

Lemma winner_is_big_win (min_profit_usd min_roi : Q) (h e : pyval) :
  big_win float_of_str min_profit_usd min_roi h = Ret true ->
  winner_entry float_of_str h = Ret e ->
  is_big_win min_profit_usd min_roi e.
Proof.
  unfold big_win, winner_entry. intros Hbig.
  destruct (py_item h "token") as [tok| |]; cbn [obind]; try discriminate.
  destruct (py_item tok "symbol") as [sym| |]; cbn [obind]; try discriminate.
  destruct (py_item h "total_profit") as [p| |] eqn:Hp; cbn [obind]; try discriminate.
  rewrite (py_item_get _ _ _ (PInt 0) Hp) in Hbig. cbn [obind] in Hbig.
  destruct (py_float float_of_str p) as [pf| |] eqn:Hpf; cbn [obind] in *;
    try discriminate.
  destruct (py_item h "total_profit_pnl") as [r| |] eqn:Hr; cbn [obind]; try discriminate.
  rewrite (py_item_get _ _ _ (PInt 0) Hr) in Hbig.
  destruct (py_float float_of_str r) as [rf| |] eqn:Hrf; cbn [obind] in *;
    try (destruct (py_ge pf min_profit_usd) as [[]| |]; discriminate).
  destruct (py_float_is_float _ _ Hpf) as [x ->].
  destruct (py_float_is_float _ _ Hrf) as [y ->].
  cbn [py_ge py_num obind] in Hbig.
  destruct (Qle_bool min_profit_usd x) eqn:Hx; cbn [negb] in Hbig; [|discriminate].
  rewrite Hrf in Hbig. cbn [py_ge py_num obind] in Hbig.
  injection Hbig as Hy. intros [= <-].
  exists sym, x, y. refine (conj eq_refl (conj _ _)); apply Qle_bool_iff; assumption.
Qed.

Lemma winners_of_big (min_profit_usd min_roi : Q) (hs : list pyval) :
  forall winners,
    winners_of float_of_str min_profit_usd min_roi hs = Ret winners ->
    Forall (is_big_win min_profit_usd min_roi) winners /\
    (List.length winners <= List.length hs)%nat.
Proof.
  induction hs as [|h hs IH]; intros winners; cbn [winners_of obind].
  - intros [= <-]. split; [constructor|reflexivity].
  - destruct (big_win float_of_str min_profit_usd min_roi h) as [keep| |] eqn:Hbig;
      cbn [obind]; try discriminate.
    destruct keep.
    + destruct (winner_entry float_of_str h) as [e| |] eqn:He; cbn [obind];
        try discriminate.
      destruct (winners_of _ _ _ hs) as [ws| |]; cbn [obind]; try discriminate.
      intros [= <-]. destruct (IH ws eq_refl) as [Hall Hlen]. split.
      * constructor; [exact (winner_is_big_win _ _ _ _ Hbig He)|exact Hall].
      * cbn [app List.length]. lia.
    + cbn [obind].
      destruct (winners_of _ _ _ hs) as [ws| |]; cbn [obind]; try discriminate.
      intros [= <-]. destruct (IH ws eq_refl) as [Hall Hlen]. split; [exact Hall|].
      cbn [app List.length]. lia.
Qed.

(** X11: [get_gmgn_big_wins] returns at most [top_n] winners, each with
    a profit of at least [min_profit_usd] and an ROI of at least
    [min_roi]; [has_big_wins] is true exactly when [top_n] winners are
    returned, so never for a wallet with fewer than [top_n] holdings. *)
Theorem big_wins_are_big (fetch : fetcher) (wallet : string)
    (min_profit_usd min_roi : Q) (top_n : Z) (out : dict) (hs : list pyval) :
  0 <= top_n ->
  get_wallet_holdings fetch wallet = Ret (PList hs) ->
  get_gmgn_big_wins float_of_str fetch wallet min_profit_usd min_roi top_n = Ret out ->
  exists winners has,
    out = [("has_big_wins", PBool has); ("winners", PList winners)] /\
    Forall (is_big_win min_profit_usd min_roi) winners /\
    (List.length winners <= Z.to_nat top_n)%nat /\
    (has = true <-> List.length winners = Z.to_nat top_n) /\
    (has = true -> (Z.to_nat top_n <= List.length hs)%nat).
Proof.
  intros Hn Hhold. unfold get_gmgn_big_wins. rewrite Hhold. cbn [obind py_iter].
  destruct (winners_of _ _ _ hs) as [ws| |] eqn:Hws; cbn [obind]; try discriminate.
  intros [= <-]. destruct (winners_of_big _ _ _ _ Hws) as [Hall Hlen].
  assert (Hstop : slice_stop (List.length ws) top_n = Z.to_nat top_n).
  { unfold slice_stop. destruct (top_n <? 0) eqn:E; [lia|reflexivity]. }
  rewrite Hstop. eexists _, _. split; [reflexivity|].
  refine (conj _ (conj _ (conj _ _))).
  - apply Forall_take. exact Hall.
  - rewrite length_firstn. lia.
  - rewrite length_firstn. rewrite Z.leb_le. lia.
  - rewrite Z.leb_le. lia.
Qed.

End WalletFilters.

Section WalletFiltersWitnesses.
Import Gmgn Scenario.

(** A wallet with a realized gain of 6000 and an unrealized loss of 7000. *)
Lemma is_wallet_active_thresholds_witness :
  is_wallet_active
    (PDict [("realizedPnlUsd", PInt 6000); ("unrealizedPnlUsd", PFloat (-7000));
            ("totalRevenueUsd", PInt 9000); ("totalSpentUsd", PInt 5000)])
  = Ret true.
Proof.
  refine (is_wallet_active_thresholds
            [("realizedPnlUsd", PInt 6000); ("unrealizedPnlUsd", PFloat (-7000));
             ("totalRevenueUsd", PInt 9000); ("totalSpentUsd", PInt 5000)]
            6000 (-7000) 9000 5000 _ _ _ _ _).
  - discriminate.
  - reflexivity.
  - reflexivity.
  - reflexivity.
  - reflexivity.
Defined.

(** A wallet whose fast-trade ratio is 0.5. *)
Lemma is_wallet_safe_thresholds_witness :
  is_wallet_safe parse_demo
    (fetch_of [("risk", PDict [("no_buy_hold_ratio", PFloat 0.1);
                               ("fast_tx_ratio", PStr "0.5")])] [])
    "W6"
  = Ret false.
Proof.
  refine (is_wallet_safe_thresholds parse_demo
            (fetch_of [("risk", PDict [("no_buy_hold_ratio", PFloat 0.1);
                                       ("fast_tx_ratio", PStr "0.5")])] [])
            "W6" _ [("no_buy_hold_ratio", PFloat 0.1); ("fast_tx_ratio", PStr "0.5")]
            0.1 (1 # 2) 0 _ _ _ _ _ _ _).
  - reflexivity.
  - discriminate.
  - reflexivity.
  - discriminate.
  - reflexivity.
  - reflexivity.
  - reflexivity.
Defined.

(** A summary with tags and a PnL, and no risk section. *)
Lemma is_wallet_safe_without_risk_section_witness :
  is_wallet_safe parse_demo (fetch_of good_summary []) "W7" = Ret true.
Proof.
  refine (proj2 (is_wallet_safe_without_risk_section parse_demo
                   (fetch_of good_summary []) "W7" (PDict good_summary) _)
            good_summary _ _ _).
  - reflexivity.
  - reflexivity.
  - discriminate.
  - reflexivity.
Defined.

(** One holding out of two is a big win; one winner is asked for. *)
Lemma big_wins_are_big_witness :
  exists winners has,
    [("has_big_wins", PBool true);
     ("winners", PList [PDict [("symbol", PStr "BBB"); ("profit_usd", PFloat 9000);
                               ("roi", PFloat (1 # 2))]])]
    = [("has_big_wins", PBool has); ("winners", PList winners)] /\
    Forall (is_big_win 5000 0.3) winners /\
    (List.length winners <= Z.to_nat 1)%nat /\
    (has = true <-> List.length winners = Z.to_nat 1) /\
    (has = true -> (Z.to_nat 1 <= 2)%nat).
Proof.
  refine (big_wins_are_big parse_demo
            (fetch_of []
               [("holdings",
                 PList [PDict [("token", PDict [("symbol", PStr "AAA")]);
                               ("total_profit", PInt 100);
                               ("total_profit_pnl", PStr "0.5")];
                        PDict [("token", PDict [("symbol", PStr "BBB")]);
                               ("total_profit", PInt 9000);
                               ("total_profit_pnl", PStr "0.5")]])])
            "W8" 5000 0.3 1 _
            [PDict [("token", PDict [("symbol", PStr "AAA")]);
                    ("total_profit", PInt 100);
                    ("total_profit_pnl", PStr "0.5")];
             PDict [("token", PDict [("symbol", PStr "BBB")]);
                    ("total_profit", PInt 9000);
                    ("total_profit_pnl", PStr "0.5")]] _ _ _).
  - lia.
  - reflexivity.
  - reflexivity.
Defined.

End WalletFiltersWitnesses.

(** ** The store: what a token's processing leaves alone *)

Section FrameFacts.
Import Processor Scenario.

Lemma keeps_refl (a : string) (p : processor) : keeps a p p.
Proof. split; reflexivity. Qed.

Lemma keeps_same (a : string) (p p' : processor) :
  processed_tokens p' = processed_tokens p -> traders p' = traders p -> keeps a p p'.
Proof. intros H1 H2. unfold keeps. rewrite H1, H2. split; reflexivity. Qed.

Lemma keeps_trans (a : string) (p1 p2 p3 : processor) :
  keeps a p1 p2 -> keeps a p2 p3 -> keeps a p1 p3.
Proof.
  intros [H1 H1'] [H2 H2']. split.
  - rewrite H2. exact H1.
  - intros w. rewrite H2'. apply H1'.
Qed.

Lemma keeps_put_row (a w token_address : string) (row : trader_row) (p : processor) :
  token_address <> a -> keeps a p (put_row w token_address row p).
Proof.
  intros Hne. split; [reflexivity|]. intros w'. cbn [put_row traders].
  apply lookup_insert_ne. congruence.
Qed.

Lemma keeps_mark (a token_address n y : string) (total passed : nat) (p : processor) :
  token_address <> a -> keeps a p (mark_token_processed token_address n y total passed p).
Proof.
  intros Hne. split; [|reflexivity]. cbn [mark_token_processed processed_tokens].
  apply lookup_insert_ne. exact Hne.
Qed.

Lemma keeps_save (a w token_address n y reason : string) (stats : dict) (p : processor) :
  token_address <> a ->
  keeps a p (snd (save_trader_data w token_address n y reason stats p)).
Proof.
  intros Hne. unfold save_trader_data. destruct (bound_params _); cbn [snd].
  - apply keeps_refl.
  - apply keeps_put_row. exact Hne.
Qed.

Section OneToken.

Variables a token_address token_name token_symbol : string.
Variable traders_data : list pyval.
Variable evaluate : pyval -> outcome (string * dict).
Hypothesis other : token_address <> a.

Lemma save_evaluated_keeps (trader wallet : pyval) (reason : string) (st : dict)
    (r : token_run) :
  keeps a (self r)
    (self (snd (save_evaluated token_address token_name token_symbol
                  trader wallet reason st r))).
Proof.
  unfold save_evaluated. destruct (obind _ _) as [[w c]|e|]; try apply keeps_refl.
  pose proof (keeps_save a w token_address token_name token_symbol reason c (self r) other)
    as H.
  destruct (save_trader_data _ _ _ _ _ _ _) as [[u|e|] p]; cbn [snd] in *; try exact H.
  destruct (String.eqb reason "PASS"); exact H.
Qed.

Lemma on_error_keeps (wallet : pyval) (e : exn) (r : token_run) :
  keeps a (self r)
    (self (snd (on_error token_address token_name token_symbol wallet e r))).
Proof.
  unfold on_error. destruct (stop_text (exn_msg e)).
  - apply keeps_same; reflexivity.
  - destruct (wallet_str wallet) as [w|e'|]; try apply keeps_refl.
    pose proof (keeps_save a w token_address token_name token_symbol "ERROR"
                  error_stats (self r) other) as H.
    destruct (save_trader_data _ _ _ _ _ _ _) as [o p]. exact H.
Qed.

Lemma finish_keeps (o : outcome unit) (r : token_run) :
  keeps a (self r) (self (finish traders_data o r)).
Proof.
  unfold finish. destruct o as [u|e|].
  - destruct (_ || _); apply keeps_same; reflexivity.
  - destruct (throttle_text (exn_msg e)); apply keeps_same; reflexivity.
  - apply keeps_refl.
Qed.

Lemma acquire_keeps (i : nat) (wallet : pyval) (r : token_run) :
  keeps a (self r) (self (acquire token_address traders_data i wallet r)).
Proof.
  unfold acquire. destruct (sem r) as [|n]; [apply keeps_refl|].
  destruct (stop_processing _).
  - exact (finish_keeps (Ret tt) (release (set_sem n r))).
  - apply keeps_same; reflexivity.
Qed.

Lemma resume_keeps (i : nat) (trader wallet : pyval) (r : token_run) :
  keeps a (self r)
    (self (resume token_address token_name token_symbol traders_data evaluate
             i trader wallet r)).
Proof.
  unfold resume. destruct (evaluate wallet) as [[reason st]|e|].
  - pose proof (save_evaluated_keeps trader wallet reason st r) as Hc.
    destruct (save_evaluated _ _ _ _ _ _ _ r) as [o r2]. cbn [snd] in Hc.
    apply keeps_trans with (self r2); [exact Hc|].
    destruct o as [u|e|].
    + exact (finish_keeps (Ret u) (release r2)).
    + pose proof (on_error_keeps wallet e r2) as He.
      destruct (on_error _ _ _ wallet e r2) as [o3 r3]. cbn [snd] in He.
      apply keeps_trans with (self r3); [exact He|].
      exact (finish_keeps o3 (release r3)).
    + exact (finish_keeps Spin (release r2)).
  - pose proof (on_error_keeps wallet e r) as He.
    destruct (on_error _ _ _ wallet e r) as [o3 r3]. cbn [snd] in He.
    apply keeps_trans with (self r3); [exact He|].
    exact (finish_keeps o3 (release r3)).
  - apply keeps_refl.
Qed.

Lemma step_task_keeps (i : nat) (r : token_run) :
  keeps a (self r)
    (self (step_task token_address token_name token_symbol traders_data evaluate i r)).
Proof.
  unfold step_task.
  destruct (traders_data !! i) as [trader|]; [|apply keeps_refl].
  destruct (status r !! i) as [[| | |]|]; try apply keeps_refl.
  - destruct (stop_processing (self r)); [apply keeps_refl|].
    destruct (wallet_of trader) as [wallet|e|].
    + apply acquire_keeps.
    + exact (finish_keeps _ r).
    + exact (finish_keeps _ r).
  - destruct (wallet_of trader); try apply keeps_refl. apply acquire_keeps.
  - destruct (wallet_of trader); try apply keeps_refl. apply resume_keeps.
Qed.

Lemma gather_keeps (schedule : list nat) :
  forall r,
    keeps a (self r)
      (self (gather token_address token_name token_symbol traders_data evaluate
               schedule r)).
Proof.
  induction schedule as [|i schedule IH]; intros r; [apply keeps_refl|].
  cbn [gather fold_left].
  eapply keeps_trans; [apply (step_task_keeps i r) | apply IH].
Qed.

End OneToken.

Lemma fetch_traders_data_keeps (a : string) (fetched : outcome (list pyval))
    (p : processor) :
  keeps a p (snd (fetch_traders_data fetched p)).
Proof.
  unfold fetch_traders_data. destruct (obind _ _) as [u|e|]; try apply keeps_refl.
  destruct (bool_decide _); [apply keeps_same; reflexivity|].
  destruct (throttle_text _); [apply keeps_same; reflexivity|].
  apply keeps_refl.
Qed.

Lemma process_single_token_keeps (a token_address token_name : string)
    (post : outcome pyval) (evaluate : pyval -> outcome (string * dict))
    (schedule : list nat) (p : processor) :
  token_address <> a ->
  keeps a p (snd (process_single_token token_address token_name post evaluate schedule p)).
Proof.
  intros Hne. unfold process_single_token.
  set (p0 := notify (TokenCallback token_name) (set_current token_name p)).
  assert (H0 : keeps a p p0) by (apply keeps_same; reflexivity).
  destruct (token_symbol_of token_name) as [sym|e|]; try exact H0.
  set (p1 := notify (FetchTraders token_address) p0).
  assert (H1 : keeps a p p1) by (apply keeps_same; reflexivity).
  pose proof (fetch_traders_data_keeps a (Bullx.fetch_top500_traders post) p1) as H2.
  destruct (fetch_traders_data _ p1) as [o p2]. cbn [snd] in H2.
  assert (H3 : keeps a p p2) by (eapply keeps_trans; [exact H1 | exact H2]).
  destruct o as [[|t ts]|e|]; try exact H3.
  { cbn [snd]. eapply keeps_trans; [exact H3|]. apply keeps_mark. exact Hne. }
  match goal with |- context [gather ?ta ?n ?y ?td ?ev ?sc ?r0] =>
    pose proof (gather_keeps a ta n y td ev Hne sc r0) as H4;
    set (r := gather ta n y td ev sc r0) in * end.
  cbn [self] in H4.
  assert (H5 : keeps a p (self r)) by (eapply keeps_trans; [exact H3 | exact H4]).
  destruct (all_finished r); [|exact H5].
  cbv zeta. rewrite mark_token_processed_stop.
  assert (H6 : keeps a p (mark_token_processed token_address token_name sym
                            (List.length (t :: ts)) (passed_traders r) (self r))).
  { eapply keeps_trans; [exact H5|]. apply keeps_mark. exact Hne. }
  destruct (stop_processing (self r)); exact H6.
Qed.

(** X12: processing a target writes the checkpoint and the rows of that
    target only: the checkpoint and the rows of any other target are
    what they were, however the processing ends. *)
Theorem other_targets_are_untouched (a token_address token_name : string)
    (post : outcome pyval) (evaluate : pyval -> outcome (string * dict))
    (schedule : list nat) (p : processor) :
  token_address <> a ->
  let p' := snd (process_single_token token_address token_name post evaluate schedule p) in
  processed_tokens p' !! a = processed_tokens p !! a /\
  forall w, traders p' !! (w, a) = traders p !! (w, a).
Proof.
  intros Hne.
  exact (process_single_token_keeps a token_address token_name post evaluate schedule p Hne).
Qed.

Lemma token_loop_keeps (a : string) (env : environment) (todo : list (string * string)) :
  ~ In a (map fst todo) ->
  forall results p, keeps a p (snd (token_loop env todo results p)).
Proof.
  induction todo as [|[addr name] rest IH]; intros Hnot results p; [apply keeps_refl|].
  cbn [token_loop]. destruct (stop_processing p); [apply keeps_refl|].
  assert (Hne : addr <> a) by (intros ->; apply Hnot; left; reflexivity).
  assert (Hrest : ~ In a (map fst rest)) by (intros H; apply Hnot; right; exact H).
  pose proof (process_single_token_keeps a addr name (bullx_post env addr)
                (evaluate_of env addr) (schedule_of env addr) p Hne) as H1.
  destruct (process_single_token _ _ _ _ _ p) as [[res|e|] p']; cbn [snd] in H1.
  - eapply keeps_trans; [exact H1 | apply IH; exact Hrest].
  - destruct (throttle_text (exn_msg e)).
    + eapply keeps_trans; [exact H1|]. apply keeps_same; reflexivity.
    + eapply keeps_trans; [exact H1 | apply IH; exact Hrest].
  - exact H1.
Qed.

(** X13: a run leaves every target that is checkpointed when it starts
    as it is: its checkpoint is neither deleted nor rewritten, and none
    of its rows is added, changed or removed. *)
Theorem checkpointed_targets_are_kept (env : environment) (p : processor) (a : string)
    (ck : checkpoint) :
  processed_tokens p !! a = Some ck ->
  let p' := snd (process_all_tokens env p) in
  processed_tokens p' !! a = Some ck /\
  forall w, traders p' !! (w, a) = traders p !! (w, a).
Proof.
  intros Hck. cbn zeta.
  assert (H : keeps a p (snd (process_all_tokens env p))).
  { unfold process_all_tokens.
    pose proof (token_loop_keeps a env
                  (unprocessed_tokens (load_tokens (tokens_file env)) p)) as H.
    destruct (unprocessed_tokens _ p) as [|t todo] eqn:Hun; [apply keeps_refl|].
    apply H. intros Hin. apply in_map_iff in Hin as ([a' n] & Ha & Hin).
    cbn in Ha. subst a'. rewrite <- Hun in Hin.
    apply unprocessed_tokens_spec in Hin. cbn in Hin. destruct Hin as [_ Hnone].
    congruence. }
  destruct H as [H1 H2]. split; [rewrite H1; exact Hck | exact H2].
Qed.

End FrameFacts.

Section FrameWitnesses.
Import Processor Scenario.

(** The target T1 is processed while T2 is checkpointed. *)
Lemma other_targets_are_untouched_witness :
  let p := mark_token_processed "T2" "Token Two (T2)" "T2" 3 1 (fresh 2) in
  let p' := snd (process_single_token "T1" "Token One (T1)"
                   (Ret (bullx_body [trader "A" 10 25; trader "B" 5 0]))
                   demo_eval [0; 1; 0; 1]%nat p) in
  processed_tokens p' !! "T2" = processed_tokens p !! "T2" /\
  forall w, traders p' !! (w, "T2") = traders p !! (w, "T2").
Proof.
  apply (other_targets_are_untouched "T2" "T1" "Token One (T1)").
  discriminate.
Defined.

(** A run over the two targets when T2 is checkpointed. *)
Lemma checkpointed_targets_are_kept_witness :
  let p := mark_token_processed "T2" "Token Two (T2)" "T2" 3 1 (fresh 2) in
  let env := {| tokens_file := two_tokens;
                bullx_post := fun _ => Ret (bullx_body [trader "A" 10 25]);
                evaluate_of := fun _ => demo_eval;
                schedule_of := fun _ => [0; 0]%nat |} in
  let p' := snd (process_all_tokens env p) in
  processed_tokens p' !! "T2"
  = Some {| ck_token_name := "Token Two (T2)"; ck_token_symbol := "T2";
            ck_total_holders := 3; ck_passed_traders := 1 |} /\
  forall w, traders p' !! (w, "T2") = traders p !! (w, "T2").
Proof.
  apply (checkpointed_targets_are_kept
           {| tokens_file := two_tokens;
              bullx_post := fun _ => Ret (bullx_body [trader "A" 10 25]);
              evaluate_of := fun _ => demo_eval;
              schedule_of := fun _ => [0; 0]%nat |}
           (mark_token_processed "T2" "Token Two (T2)" "T2" 3 1 (fresh 2)) "T2").
  reflexivity.
Defined.

End FrameWitnesses.

(** ** The counters of a token's tasks *)

Section CounterFacts.
Import Processor Scenario.

Lemma count_finished_le (sts : list task_status) :
  (count_finished sts <= List.length sts)%nat.
Proof.
  unfold count_finished. induction sts as [|s sts IH]; [reflexivity|].
  cbn [List.filter]. destruct (is_finished s); cbn [List.length]; lia.
Qed.

Lemma count_finished_insert (sts : list task_status) :
  forall i st st',
    sts !! i = Some st -> is_finished st = false ->
    count_finished (<[i := st']> sts)
    = ((if is_finished st' then 1 else 0) + count_finished sts)%nat.
Proof.
  unfold count_finished.
  induction sts as [|s sts IH]; intros i st st' Hi Hst; [discriminate|].
  destruct i as [|i]; cbn in Hi.
  - injection Hi as ->. cbn [insert list_insert List.filter]. rewrite Hst.
    destruct (is_finished st'); reflexivity.
  - change (<[S i := st']> (s :: sts)) with (s :: <[i := st']> sts).
    cbn [List.filter].
    destruct (is_finished s); cbn [List.length]; rewrite (IH i st st' Hi Hst); lia.
Qed.

Lemma count_finished_lt (sts : list task_status) (i : nat) (st : task_status) :
  sts !! i = Some st -> is_finished st = false ->
  (count_finished sts < List.length sts)%nat.
Proof.
  intros Hi Hst. pose proof (count_finished_insert sts i st Finished Hi Hst) as H.
  pose proof (count_finished_le (<[i := Finished]> sts)) as Hle.
  rewrite length_insert in Hle. cbn in H. lia.
Qed.

Lemma quiet_step_refl (p : processor) : quiet_step p p.
Proof. split; [reflexivity | apply calls_ext_refl]. Qed.

Lemma quiet_step_same (p p' : processor) :
  processed_tokens p' = processed_tokens p -> calls p' = calls p -> quiet_step p p'.
Proof. intros H1 H2. split; [exact H1 | apply calls_ext_same; exact H2]. Qed.

Lemma quiet_step_trans (p1 p2 p3 : processor) :
  quiet_step p1 p2 -> quiet_step p2 p3 -> quiet_step p1 p3.
Proof.
  intros [H1 C1] [H2 C2]. split; [rewrite H2; exact H1|].
  eapply calls_ext_trans; [exact C1 | exact C2].
Qed.

Lemma quiet_step_notify (c : call) (p p' : processor) :
  progress_ordered c -> processed_tokens p' = processed_tokens p ->
  calls p' = calls p -> quiet_step p (notify c p').
Proof.
  intros Hc H1 H2. split; [exact H1|]. apply calls_ext_notify; assumption.
Qed.

Lemma quiet_step_save (w token_address n y reason : string) (stats : dict) (p : processor) :
  quiet_step p (snd (save_trader_data w token_address n y reason stats p)).
Proof.
  unfold save_trader_data. destruct (bound_params _); cbn [snd].
  - apply quiet_step_refl.
  - apply quiet_step_same; reflexivity.
Qed.

Section OneToken.

Variables token_address token_name token_symbol : string.
Variable traders_data : list pyval.
Variable evaluate : pyval -> outcome (string * dict).

Lemma save_evaluated_counts (trader wallet : pyval) (reason : string) (st : dict)
    (r : token_run) :
  let out := save_evaluated token_address token_name token_symbol
               trader wallet reason st r in
  status (snd out) = status r /\ completed (snd out) = completed r /\
  quiet_step (self r) (self (snd out)) /\
  (passed_traders (snd out)
   <= passed_traders r + match fst out with Ret _ => 1 | _ => 0 end)%nat.
Proof.
  cbn zeta. unfold save_evaluated.
  destruct (obind _ _) as [[w c]|e|];
    try (refine (conj eq_refl (conj eq_refl (conj (quiet_step_refl _) _))); cbn; lia).
  pose proof (quiet_step_save w token_address token_name token_symbol reason c (self r))
    as H.
  destruct (save_trader_data _ _ _ _ _ _ _) as [[u|e|] p]; cbn [snd fst] in *;
    try (refine (conj eq_refl (conj eq_refl (conj H _))); cbn; lia).
  destruct (String.eqb reason "PASS");
    refine (conj eq_refl (conj eq_refl (conj H _))); cbn; lia.
Qed.

Lemma on_error_counts (wallet : pyval) (e : exn) (r : token_run) :
  let out := on_error token_address token_name token_symbol wallet e r in
  status (snd out) = status r /\ completed (snd out) = completed r /\
  passed_traders (snd out) = passed_traders r /\
  quiet_step (self r) (self (snd out)).
Proof.
  cbn zeta. unfold on_error. destruct (stop_text (exn_msg e)).
  - refine (conj eq_refl (conj eq_refl (conj eq_refl _))).
    apply quiet_step_notify; [exact I | reflexivity | reflexivity].
  - destruct (wallet_str wallet) as [w|e'|];
      [|exact (conj eq_refl (conj eq_refl (conj eq_refl (quiet_step_refl _))))..].
    pose proof (quiet_step_save w token_address token_name token_symbol "ERROR"
                  error_stats (self r)) as H.
    destruct (save_trader_data _ _ _ _ _ _ _) as [o p].
    exact (conj eq_refl (conj eq_refl (conj eq_refl H))).
Qed.

(** The end of a task: [completed] is counted and the task is finished. *)
Lemma finish_counts (o : outcome unit) (r : token_run) (i : nat) (st : task_status) :
  List.length (status r) = List.length traders_data ->
  status r !! i = Some st -> is_finished st = false ->
  (completed r <= count_finished (status r))%nat ->
  (passed_traders r <= completed r + match o with Ret _ => 1 | _ => 0 end)%nat ->
  counters_ok (List.length traders_data)
    (set_status i Finished (finish traders_data o r)) /\
  quiet_step (self r) (self (finish traders_data o r)).
Proof.
  intros Hlen Hi Hst Hdone Hpassed.
  pose proof (count_finished_insert (status r) i st Finished Hi Hst) as Hins.
  pose proof (count_finished_lt (status r) i st Hi Hst) as Hlt.
  cbn [is_finished] in Hins.
  assert (Hok : forall r',
            status r' = status r -> passed_traders r' = passed_traders r ->
            (completed r' <= S (completed r))%nat ->
            (passed_traders r <= completed r')%nat ->
            counters_ok (List.length traders_data) (set_status i Finished r')).
  { intros r' Hs Hp Hc Hpc. unfold counters_ok. cbn [set_status status passed_traders completed].
    rewrite Hs, length_insert, Hins, Hp. lia. }
  unfold finish. destruct o as [u|e|].
  - destruct (_ || _).
    + split; [apply Hok; cbn; try reflexivity; lia|].
      apply quiet_step_notify; [|reflexivity|reflexivity].
      cbn [progress_ordered add_completed completed passed_traders]. lia.
    + split; [apply Hok; cbn; try reflexivity; lia|]. apply quiet_step_same; reflexivity.
  - destruct (throttle_text (exn_msg e)).
    + split; [apply Hok; cbn; try reflexivity; lia|].
      apply quiet_step_notify; [exact I|reflexivity|reflexivity].
    + split; [apply Hok; cbn; try reflexivity; lia|]. apply quiet_step_same; reflexivity.
  - split; [apply Hok; try reflexivity; lia | apply quiet_step_refl].
Qed.

Lemma unfinished_step (i : nat) (st st' : task_status) (r r' : token_run) :
  counters_ok (List.length traders_data) r ->
  status r !! i = Some st -> is_finished st = false -> is_finished st' = false ->
  status r' = status r -> passed_traders r' = passed_traders r ->
  completed r' = completed r ->
  counters_ok (List.length traders_data) (set_status i st' r').
Proof.
  intros (Hlen & Hp & Hc) Hi Hst Hst' Hs Hpr Hcr. unfold counters_ok.
  cbn [set_status status passed_traders completed].
  rewrite Hs, length_insert, (count_finished_insert _ _ _ st' Hi Hst), Hst', Hpr, Hcr.
  cbn. auto.
Qed.

Lemma acquire_counts (i : nat) (st : task_status) (wallet : pyval) (r : token_run) :
  counters_ok (List.length traders_data) r ->
  status r !! i = Some st -> is_finished st = false ->
  counters_ok (List.length traders_data) (acquire token_address traders_data i wallet r) /\
  quiet_step (self r) (self (acquire token_address traders_data i wallet r)).
Proof.
  intros Hok Hi Hst. unfold acquire. destruct (sem r) as [|n].
  - split; [|apply quiet_step_refl].
    apply (unfinished_step i st Waiting r r); auto.
  - destruct (stop_processing _).
    + destruct Hok as (Hlen & Hp & Hc).
      apply (finish_counts (Ret tt) (release (set_sem n r)) i st); cbn; auto. lia.
    + split; [|apply quiet_step_notify; [exact I|reflexivity|reflexivity]].
      apply (unfinished_step i st Evaluating r); auto.
Qed.

Lemma finish_after (o : outcome unit) (r r2 : token_run) (i : nat) (st : task_status) :
  counters_ok (List.length traders_data) r ->
  status r !! i = Some st -> is_finished st = false ->
  status r2 = status r -> completed r2 = completed r ->
  (passed_traders r2
   <= passed_traders r + match o with Ret _ => 1 | _ => 0 end)%nat ->
  counters_ok (List.length traders_data)
    (set_status i Finished (finish traders_data o (release r2))) /\
  quiet_step (self r2) (self (finish traders_data o (release r2))).
Proof.
  intros (Hlen & Hp & Hc) Hi Hst Hs2 Hc2 Hp2.
  apply (finish_counts o (release r2) i st); cbn [release set_sem status completed
                                                   passed_traders].
  - rewrite Hs2. exact Hlen.
  - rewrite Hs2. exact Hi.
  - exact Hst.
  - rewrite Hs2, Hc2. exact Hc.
  - rewrite Hc2. destruct o; lia.
Qed.

Lemma resume_counts (i : nat) (st : task_status) (trader wallet : pyval) (r : token_run) :
  counters_ok (List.length traders_data) r ->
  status r !! i = Some st -> is_finished st = false ->
  let r' := resume token_address token_name token_symbol traders_data evaluate
              i trader wallet r in
  counters_ok (List.length traders_data) r' /\ quiet_step (self r) (self r').
Proof.
  intros Hok Hi Hst. cbn zeta. unfold resume.
  assert (Herr : forall e r2,
            status r2 = status r -> completed r2 = completed r ->
            (passed_traders r2 <= passed_traders r)%nat ->
            quiet_step (self r) (self r2) ->
            counters_ok (List.length traders_data)
              (let '(o, r3) := on_error token_address token_name token_symbol wallet e r2 in
               set_status i Finished (finish traders_data o (release r3))) /\
            quiet_step (self r)
              (self (let '(o, r3) := on_error token_address token_name token_symbol
                                       wallet e r2 in
                     set_status i Finished (finish traders_data o (release r3))))).
  { intros e r2 Hs2 Hc2 Hp2 Hq2.
    pose proof (on_error_counts wallet e r2) as (Hs3 & Hc3 & Hp3 & Hq3).
    destruct (on_error _ _ _ wallet e r2) as [o3 r3]. cbn [snd] in *.
    assert (Hfin := finish_after o3 r r3 i st Hok Hi Hst).
    destruct Hfin as [Hk Hq].
    { rewrite Hs3. exact Hs2. }
    { rewrite Hc3. exact Hc2. }
    { rewrite Hp3. lia. }
    split; [exact Hk|].
    eapply quiet_step_trans; [exact Hq2|]. eapply quiet_step_trans; [exact Hq3|exact Hq]. }
  destruct (evaluate wallet) as [[reason gs]|e|].
  - pose proof (save_evaluated_counts trader wallet reason gs r) as (Hs2 & Hc2 & Hq2 & Hp2).
    destruct (save_evaluated _ _ _ _ _ _ _ r) as [o r2]. cbn [snd fst] in *.
    destruct o as [u|e|].
    + destruct (finish_after (Ret u) r r2 i st Hok Hi Hst Hs2 Hc2 Hp2) as [Hk Hq].
      split; [exact Hk|]. eapply quiet_step_trans; [exact Hq2|exact Hq].
    + apply Herr; auto. lia.
    + destruct (finish_after Spin r r2 i st Hok Hi Hst Hs2 Hc2 Hp2) as [Hk Hq].
      split; [exact Hk|]. eapply quiet_step_trans; [exact Hq2|exact Hq].
  - apply Herr; auto. apply quiet_step_refl.
  - split; [exact Hok | apply quiet_step_refl].
Qed.

Lemma step_task_counts (i : nat) (r : token_run) :
  counters_ok (List.length traders_data) r ->
  let r' := step_task token_address token_name token_symbol traders_data evaluate i r in
  counters_ok (List.length traders_data) r' /\ quiet_step (self r) (self r').
Proof.
  intros Hok. cbn zeta. unfold step_task.
  destruct (traders_data !! i) as [trader|]; [|split; [exact Hok|apply quiet_step_refl]].
  destruct (status r !! i) as [[| | |]|] eqn:Hi;
    try (split; [exact Hok|apply quiet_step_refl]).
  - destruct (stop_processing (self r)).
    + split; [|apply quiet_step_refl]. destruct Hok as (Hlen & Hp & Hc).
      unfold counters_ok. cbn [set_status status passed_traders completed].
      rewrite length_insert, (count_finished_insert _ _ _ Finished Hi eq_refl).
      cbn. split; [exact Hlen|]. split; [exact Hp|lia].
    + destruct (wallet_of trader) as [wallet|e|].
      * apply (acquire_counts i Created); auto.
      * destruct Hok as (Hlen & Hp & Hc).
        apply (finish_counts _ r i Created); cbn; auto. lia.
      * destruct Hok as (Hlen & Hp & Hc).
        apply (finish_counts _ r i Created); cbn; auto. lia.
  - destruct (wallet_of trader); try (split; [exact Hok|apply quiet_step_refl]).
    apply (acquire_counts i Waiting); auto.
  - destruct (wallet_of trader); try (split; [exact Hok|apply quiet_step_refl]).
    apply (resume_counts i Evaluating); auto.
Qed.

Lemma gather_counts (schedule : list nat) :
  forall r,
    counters_ok (List.length traders_data) r ->
    let r' := gather token_address token_name token_symbol traders_data evaluate
                schedule r in
    counters_ok (List.length traders_data) r' /\ quiet_step (self r) (self r').
Proof.
  induction schedule as [|i schedule IH]; intros r Hok;
    [split; [exact Hok|apply quiet_step_refl]|].
  cbn zeta. cbn [gather fold_left].
  destruct (step_task_counts i r Hok) as [Hok1 Hq1].
  destruct (IH _ Hok1) as [Hok2 Hq2].
  split; [exact Hok2|]. eapply quiet_step_trans; [exact Hq1|exact Hq2].
Qed.

End OneToken.

End CounterFacts.

Section CounterClaims.
Import Processor Scenario.

Lemma counts_ordered_quiet (p p' : processor) :
  counts_ordered p -> quiet_step p p' -> counts_ordered p'.
Proof. intros Hp [Heq _] a ck. rewrite Heq. apply Hp. Qed.

Lemma counts_ordered_mark (a n y : string) (total passed : nat) (p : processor) :
  counts_ordered p -> (passed <= total)%nat ->
  counts_ordered (mark_token_processed a n y total passed p).
Proof.
  intros Hp Hle a' ck. cbn [mark_token_processed processed_tokens].
  destruct (decide (a = a')) as [->|Hne].
  - rewrite lookup_insert_eq. intros [= <-]. exact Hle.
  - rewrite lookup_insert_ne by exact Hne. apply Hp.
Qed.

Lemma fetch_traders_data_quiet (fetched : outcome (list pyval)) (p : processor) :
  quiet_step p (snd (fetch_traders_data fetched p)).
Proof.
  unfold fetch_traders_data. destruct (obind _ _) as [u|e|]; try apply quiet_step_refl.
  destruct (bool_decide _);
    [apply quiet_step_notify; [exact I|reflexivity|reflexivity]|].
  destruct (throttle_text _);
    [apply quiet_step_notify; [exact I|reflexivity|reflexivity]|].
  apply quiet_step_refl.
Qed.

Lemma process_single_token_counts (token_address token_name : string)
    (post : outcome pyval) (evaluate : pyval -> outcome (string * dict))
    (schedule : list nat) (p : processor) :
  counts_ordered p ->
  let out := process_single_token token_address token_name post evaluate schedule p in
  counts_ordered (snd out) /\ calls_ext progress_ordered p (snd out) /\
  forall res, fst out = Ret res -> (res_passed_traders res <= res_total_traders res)%nat.
Proof.
  intros Hp. cbn zeta. unfold process_single_token.
  set (p0 := notify (TokenCallback token_name) (set_current token_name p)).
  assert (H0 : quiet_step p p0)
    by (apply quiet_step_notify; [exact I|reflexivity|reflexivity]).
  assert (Hend : forall q, quiet_step p q ->
            counts_ordered q /\ calls_ext progress_ordered p q).
  { intros q Hq. split; [exact (counts_ordered_quiet _ _ Hp Hq)|exact (proj2 Hq)]. }
  destruct (token_symbol_of token_name) as [sym|e|];
    try (destruct (Hend p0 H0) as [Ha Hb]; refine (conj Ha (conj Hb _)); discriminate).
  set (p1 := notify (FetchTraders token_address) p0).
  assert (H1 : quiet_step p p1).
  { eapply quiet_step_trans; [exact H0|].
    apply quiet_step_notify; [exact I|reflexivity|reflexivity]. }
  pose proof (fetch_traders_data_quiet (Bullx.fetch_top500_traders post) p1) as H2.
  destruct (fetch_traders_data _ p1) as [o p2]. cbn [snd] in H2.
  assert (H3 : quiet_step p p2) by (eapply quiet_step_trans; [exact H1 | exact H2]).
  destruct o as [[|t ts]|e|];
    try (destruct (Hend p2 H3) as [Ha Hb]; refine (conj Ha (conj Hb _)); discriminate).
  { cbn [fst snd]. refine (conj _ (conj _ _)).
    - apply counts_ordered_mark; [exact (proj1 (Hend p2 H3))|lia].
    - exact (proj2 H3).
    - intros res [= <-]. cbn. lia. }
  match goal with |- context [gather ?ta ?n ?y ?td ?ev ?sc ?r0] =>
    destruct (gather_counts ta n y td ev sc r0) as [Hk H4];
    [|set (r := gather ta n y td ev sc r0) in *] end.
  { unfold counters_ok. cbn [status passed_traders completed].
    rewrite repeat_length. split; [reflexivity|]. split; lia. }
  cbn [self] in H4.
  assert (H5 : quiet_step p (self r)) by (eapply quiet_step_trans; [exact H3 | exact H4]).
  assert (Hle : (passed_traders r <= List.length (t :: ts))%nat).
  { destruct Hk as (Hlen & Hpc & Hcf).
    pose proof (count_finished_le (status r)). lia. }
  destruct (all_finished r).
  2:{ destruct (Hend _ H5) as [Ha Hb]. refine (conj Ha (conj Hb _)). discriminate. }
  cbv zeta. rewrite mark_token_processed_stop.
  assert (Hm : counts_ordered (mark_token_processed token_address token_name sym
                                 (List.length (t :: ts)) (passed_traders r) (self r))).
  { apply counts_ordered_mark; [exact (proj1 (Hend _ H5))|exact Hle]. }
  destruct (stop_processing (self r)); cbn [fst snd];
    refine (conj Hm (conj (proj2 H5) _)); [discriminate|].
  intros res [= <-]. exact Hle.
Qed.

Lemma token_loop_counts (env : environment) (todo : list (string * string)) :
  forall results p,
    counts_ordered p ->
    Forall (fun res => (res_passed_traders res <= res_total_traders res)%nat) results ->
    let out := token_loop env todo results p in
    counts_ordered (snd out) /\ calls_ext progress_ordered p (snd out) /\
    forall rs, fst out = Ret rs ->
               Forall (fun res => (res_passed_traders res <= res_total_traders res)%nat) rs.
Proof.
  induction todo as [|[addr name] rest IH]; intros results p Hp Hres; cbn zeta.
  { cbn. refine (conj Hp (conj (calls_ext_refl _ _) _)). intros rs [= <-]. exact Hres. }
  cbn [token_loop]. destruct (stop_processing p).
  { cbn. refine (conj Hp (conj (calls_ext_refl _ _) _)). intros rs [= <-]. exact Hres. }
  pose proof (process_single_token_counts addr name (bullx_post env addr)
                (evaluate_of env addr) (schedule_of env addr) p Hp) as (Hp1 & Hc1 & Hr1).
  destruct (process_single_token _ _ _ _ _ p) as [[res|e|] p']; cbn [fst snd] in *.
  - destruct (IH (results ++ [res])%list p' Hp1) as (Ha & Hb & Hc).
    { apply Forall_app. split; [exact Hres|]. constructor; [|constructor].
      apply Hr1. reflexivity. }
    refine (conj Ha (conj _ Hc)). eapply calls_ext_trans; [exact Hc1|exact Hb].
  - destruct (throttle_text (exn_msg e)).
    + cbn [fst snd]. refine (conj _ (conj _ _)).
      * intros a ck. apply Hp1.
      * eapply calls_ext_trans; [exact Hc1|].
        apply calls_ext_notify; [exact I|reflexivity].
      * intros rs [= <-]. exact Hres.
    + destruct (IH results p' Hp1 Hres) as (Ha & Hb & Hc).
      refine (conj Ha (conj _ Hc)). eapply calls_ext_trans; [exact Hc1|exact Hb].
  - refine (conj Hp1 (conj Hc1 _)). discriminate.
Qed.

(** X14: the counts of a run stay in order, under every schedule of
    the tasks and whatever the upstreams answer: every progress
    notification has passed <= completed <= total, every result has
    passed <= total, and every checkpoint of the store counts no more
    passed wallets than wallets. *)
Theorem counts_stay_ordered (env : environment) (p : processor) :
  counts_ordered p ->
  let out := process_all_tokens env p in
  counts_ordered (snd out) /\
  calls_ext progress_ordered p (snd out) /\
  forall results,
    fst out = Ret results ->
    Forall (fun res => (res_passed_traders res <= res_total_traders res)%nat) results.
Proof.
  intros Hp. cbn zeta. unfold process_all_tokens.
  pose proof (token_loop_counts env
                (unprocessed_tokens (load_tokens (tokens_file env)) p) [] p Hp
                (List.Forall_nil _)) as H.
  destruct (unprocessed_tokens _ p) as [|t todo]; [|exact H].
  cbn. refine (conj Hp (conj (calls_ext_refl _ _) _)). intros rs [= <-]. constructor.
Qed.

End CounterClaims.

Section CounterWitness.
Import Processor Scenario.

(** A run over the two targets from an empty store. *)
Lemma counts_stay_ordered_witness :
  let env := {| tokens_file := two_tokens;
                bullx_post := fun _ => Ret (bullx_body [trader "A" 10 25; trader "B" 5 0]);
                evaluate_of := fun _ => demo_eval;
                schedule_of := fun _ => [0; 1; 0; 1]%nat |} in
  let out := process_all_tokens env (fresh 2) in
  counts_ordered (snd out) /\
  calls_ext progress_ordered (fresh 2) (snd out) /\
  forall results,
    fst out = Ret results ->
    Forall (fun res => (res_passed_traders res <= res_total_traders res)%nat) results.
Proof.
  apply (counts_stay_ordered
           {| tokens_file := two_tokens;
              bullx_post := fun _ => Ret (bullx_body [trader "A" 10 25; trader "B" 5 0]);
              evaluate_of := fun _ => demo_eval;
              schedule_of := fun _ => [0; 1; 0; 1]%nat |} (fresh 2)).
  intros a ck H. discriminate H.
Defined.

End CounterWitness.

(** ** The wallet list and the rows *)

Section ListAndRows.
Import Processor Scenario.

Lemma unique_loop_has_wallet (stopped : bool) (todo : list pyval) :
  forall seen unique l,
    unique_loop stopped todo seen unique = Ret l ->
    Forall has_wallet unique -> Forall has_wallet l.
Proof.
  induction todo as [|t todo IH]; intros seen unique l; cbn [unique_loop].
  - intros [= <-] H. exact H.
  - destruct stopped; [intros [= <-] _; constructor|].
    destruct t as [| | | | | |d]; try apply IH.
    destruct (truthy (dict_get d "address" PNone)) eqn:Ht; [|apply IH].
    destruct (hashable (dict_get d "address" PNone)) eqn:Hh; [|discriminate].
    destruct (existsb _ seen); [apply IH|].
    intros Hl Hall. apply (IH _ _ _ Hl). apply Forall_app. split; [exact Hall|].
    constructor; [|constructor]. exists (dict_get d "address" PNone).
    refine (conj _ (conj Ht Hh)). unfold wallet_of, dict_get in *.
    destruct (assoc "address" d); [reflexivity|discriminate].
Qed.

(** X15: [fetch_traders_data] never raises, whatever the wallet-list
    upstream does, and every entry of the list it returns is a dict
    whose ['address'] is there, truthy and hashable: the tasks can read
    the wallet of each entry. *)
Theorem wallet_list_is_addressed (fetched : outcome (list pyval)) (p : processor) :
  (forall e, fst (fetch_traders_data fetched p) <> Raise e) /\
  (forall l, fst (fetch_traders_data fetched p) = Ret l -> Forall has_wallet l).
Proof.
  unfold fetch_traders_data.
  destruct (obind _ _) as [u|e|] eqn:Hloop; cbn [fst].
  - split; [discriminate|]. intros l [= <-].
    destruct fetched as [ts|e|]; cbn [obind] in Hloop; try discriminate.
    apply (unique_loop_has_wallet _ _ _ _ _ Hloop). constructor.
  - destruct (bool_decide _); [|destruct (throttle_text _)]; cbn [fst];
      (split; [discriminate|]); intros l [= <-]; constructor.
  - split; discriminate.
Qed.

(** X16: when the stop flag is up as the wallet list arrives, the list
    is dropped and the target is checkpointed with 0 wallets and 0
    passed, whatever the list holds; no wallet is evaluated and no row
    is written. *)
Theorem stop_during_fetch_checkpoints_nothing (token_address name symbol : string)
    (post : outcome pyval) (fetched : list pyval)
    (evaluate : pyval -> outcome (string * dict)) (schedule : list nat) (p : processor) :
  stop_processing p = true ->
  token_symbol_of name = Ret symbol ->
  Bullx.fetch_top500_traders post = Ret fetched ->
  let out := process_single_token token_address name post evaluate schedule p in
  fst out = Ret {| res_token_address := token_address; res_token_name := name;
                   res_total_traders := 0; res_passed_traders := 0 |} /\
  processed_tokens (snd out) !! token_address
  = Some {| ck_token_name := name; ck_token_symbol := symbol;
            ck_total_holders := 0; ck_passed_traders := 0 |} /\
  traders (snd out) = traders p /\
  calls (snd out) = (calls p ++ [TokenCallback name; FetchTraders token_address])%list.
Proof.
  intros Hstop Hsym Hfetched. cbn zeta. unfold process_single_token.
  rewrite Hsym, Hfetched. unfold fetch_traders_data. cbn [obind].
  cbn [notify set_current stop_processing]. rewrite Hstop.
  assert (Hloop : unique_loop true fetched [] [] = Ret []) by (destruct fetched; reflexivity).
  rewrite Hloop. cbn [fst snd mark_token_processed processed_tokens traders calls].
  refine (conj eq_refl (conj _ (conj eq_refl _))).
  - apply lookup_insert_eq.
  - cbn [notify set_current calls]. rewrite <- app_assoc. reflexivity.
Qed.




Lemma blank_has_no_paren (s : string) : lstrip s = "" -> contains "(" s = false.
Proof.
  induction s as [|c s IH]; [reflexivity|]. cbn [lstrip contains prefixb].
  destruct (is_space c) eqn:Hc; [|discriminate].
  intros H. rewrite (IH H), orb_false_r.
  destruct (Ascii.eqb_spec "(" c) as [<-|_]; [discriminate Hc|reflexivity].
Qed.

(** X19: a target whose name is blank.  Its symbol cannot be derived:
    [process_single_token] raises IndexError before the wallet list is
    asked for, nothing is written, and the loop of [process_all_tokens]
    goes on with the next target; the target gets no checkpoint. *)
Theorem blank_name_is_skipped_unfetched (env : environment) (token_address name : string)
    (rest : list (string * string)) (results : list result) (p : processor) :
  stop_processing p = false ->
  lstrip name = "" ->
  process_single_token token_address name (bullx_post env token_address)
    (evaluate_of env token_address) (schedule_of env token_address) p
  = (Raise (mk_exn "IndexError" "list index out of range"),
     notify (TokenCallback name) (set_current name p)) /\
  token_loop env ((token_address, name) :: rest) results p
  = token_loop env rest results (notify (TokenCallback name) (set_current name p)).
Proof.
  intros Hflag Hblank.
  assert (Hsym : token_symbol_of name
                 = Raise (mk_exn "IndexError" "list index out of range")).
  { unfold token_symbol_of. rewrite (blank_has_no_paren name Hblank). cbn [andb].
    assert (Hu : String.eqb name "UNKNOWN" = false).
    { destruct (String.eqb_spec name "UNKNOWN") as [->|_]; [discriminate Hblank|reflexivity]. }
    rewrite Hu. unfold split0, first_word. rewrite Hblank. reflexivity. }
  assert (Hone : process_single_token token_address name (bullx_post env token_address)
                   (evaluate_of env token_address) (schedule_of env token_address) p
                 = (Raise (mk_exn "IndexError" "list index out of range"),
                    notify (TokenCallback name) (set_current name p))).
  { unfold process_single_token. rewrite Hsym. reflexivity. }
  split; [exact Hone|]. cbn [token_loop]. rewrite Hflag, Hone. reflexivity.
Qed.

End ListAndRows.

Section ListAndRowsWitnesses.
Import Processor Scenario.

(** The flag is up when the list of T1, one wallet long, arrives. *)
Lemma stop_during_fetch_checkpoints_nothing_witness :
  let out := process_single_token "T1" "Token One (T1)"
               (Ret (bullx_body [trader "A" 10 25])) demo_eval [0; 0]%nat
               (stop (fresh 2)) in
  fst out = Ret {| res_token_address := "T1"; res_token_name := "Token One (T1)";
                   res_total_traders := 0; res_passed_traders := 0 |} /\
  processed_tokens (snd out) !! "T1"
  = Some {| ck_token_name := "Token One (T1)"; ck_token_symbol := "T1";
            ck_total_holders := 0; ck_passed_traders := 0 |} /\
  traders (snd out) = traders (stop (fresh 2)) /\
  calls (snd out)
  = (calls (stop (fresh 2)) ++ [TokenCallback "Token One (T1)"; FetchTraders "T1"])%list.
Proof.
  apply (stop_during_fetch_checkpoints_nothing "T1" "Token One (T1)" "T1"
           (Ret (bullx_body [trader "A" 10 25])) [trader "A" 10 25]).
  - reflexivity.
  - reflexivity.
  - reflexivity.
Defined.



(** A line of tokens.txt that ends after the comma gives an empty name. *)
Lemma blank_name_is_skipped_unfetched_witness :
  process_single_token "T0" "" (bullx_post (failing_env unreachable) "T0")
    (evaluate_of (failing_env unreachable) "T0")
    (schedule_of (failing_env unreachable) "T0") (fresh 2)
  = (Raise (mk_exn "IndexError" "list index out of range"),
     notify (TokenCallback "") (set_current "" (fresh 2))) /\
  token_loop (failing_env unreachable) [("T0", ""); token_one] [] (fresh 2)
  = token_loop (failing_env unreachable) [token_one] []
      (notify (TokenCallback "") (set_current "" (fresh 2))).
Proof.
  apply (blank_name_is_skipped_unfetched (failing_env unreachable) "T0" ""
           [token_one] [] (fresh 2)).
  - reflexivity.
  - reflexivity.
Defined.

End ListAndRowsWitnesses.

(** ** Strings and lines *)

Section StringFacts.
Import Scenario.

Lemma append_cons (c : ascii) (a b : string) : String c a ++ b = String c (a ++ b).
Proof. reflexivity. Qed.

Lemma append_nil_l (b : string) : "" ++ b = b.
Proof. reflexivity. Qed.

Lemma append_nil_r (s : string) : s ++ "" = s.
Proof.
  induction s as [|c s IH]; [reflexivity|]. rewrite append_cons. f_equal. exact IH.
Qed.

Lemma append_assoc (a b c : string) : (a ++ b) ++ c = a ++ (b ++ c).
Proof.
  induction a as [|x a IH]; [reflexivity|]. rewrite !append_cons. f_equal. exact IH.
Qed.

Lemma prefixb_app (a b : string) : prefixb a (a ++ b) = true.
Proof.
  induction a as [|c a IH]; [reflexivity|]. rewrite append_cons. cbn [prefixb].
  rewrite Ascii.eqb_refl. exact IH.
Qed.

Lemma lstrip_length (s : string) :
  lstrip s = s \/ (String.length (lstrip s) < String.length s)%nat.
Proof.
  induction s as [|c s IH]; [left; reflexivity|]. cbn [lstrip].
  destruct (is_space c); [|left; reflexivity]. right. cbn [String.length].
  destruct IH as [->|H]; lia.
Qed.

Lemma rstrip_by_length (p : ascii -> bool) (s : string) :
  (String.length (rstrip_by p s) <= String.length s)%nat.
Proof.
  induction s as [|c s IH]; [reflexivity|]. cbn [rstrip_by].
  destruct (p c && String.eqb (rstrip_by p s) ""); cbn [String.length]; lia.
Qed.

(** A string that [strip] leaves as it is has no whitespace at either
    end. *)
Lemma strip_fixed (s : string) :
  strip s = s -> lstrip s = s /\ rstrip_by is_space s = s.
Proof.
  unfold strip. intros H. destruct (lstrip_length s) as [Hl|Hl].
  - rewrite Hl in H. split; [exact Hl|exact H].
  - pose proof (rstrip_by_length is_space (lstrip s)) as Hr. rewrite H in Hr. lia.
Qed.

Lemma lstrip_head (c : ascii) (s : string) :
  lstrip (String c s) = String c s -> is_space c = false.
Proof.
  cbn [lstrip]. destruct (is_space c); [|reflexivity].
  intros H. pose proof (lstrip_length s) as [Hl|Hl]; rewrite H in Hl.
  - apply (f_equal String.length) in Hl. cbn in Hl. lia.
  - cbn in Hl. lia.
Qed.

Lemma lstrip_app (a b : string) : a <> "" -> lstrip a = a -> lstrip (a ++ b) = a ++ b.
Proof.
  destruct a as [|c a]; [congruence|]. intros _ H. rewrite append_cons.
  cbn [lstrip]. rewrite (lstrip_head c a H). reflexivity.
Qed.

Lemma rstrip_by_app (p : ascii -> bool) (a b : string) :
  rstrip_by p b <> "" -> rstrip_by p (a ++ b) = a ++ rstrip_by p b.
Proof.
  intros Hb. induction a as [|c a IH]; [reflexivity|]. rewrite !append_cons.
  cbn [rstrip_by]. rewrite IH.
  assert (Hne : String.eqb (a ++ rstrip_by p b) "" = false).
  { destruct a; [|reflexivity]. rewrite append_nil_l.
    destruct (rstrip_by p b); [congruence|reflexivity]. }
  rewrite Hne, andb_false_r. reflexivity.
Qed.

Lemma rstrip_by_last (p : ascii -> bool) (s : string) (c : ascii) :
  p c = true -> rstrip_by p (s ++ String c "") = rstrip_by p s.
Proof.
  intros Hc. induction s as [|x s IH].
  - rewrite append_nil_l. cbn [rstrip_by]. rewrite Hc. reflexivity.
  - rewrite append_cons. cbn [rstrip_by]. rewrite IH. reflexivity.
Qed.

(** What [rstrip] removes is a suffix. *)
Lemma rstrip_by_suffix (p : ascii -> bool) (s : string) :
  exists u, s = rstrip_by p s ++ u.
Proof.
  induction s as [|c s [u IH]]; [exists ""; reflexivity|]. cbn [rstrip_by].
  destruct (p c && String.eqb (rstrip_by p s) "").
  - exists (String c s). reflexivity.
  - exists u. rewrite append_cons, <- IH. reflexivity.
Qed.

(** The result of [strip] does not start with whitespace. *)
Lemma lstrip_strip (s : string) : lstrip (strip s) = strip s.
Proof.
  unfold strip.
  assert (H : forall t, lstrip t = t -> lstrip (rstrip_by is_space t) = rstrip_by is_space t).
  { intros [|c t]; [reflexivity|]. intros Ht. pose proof (lstrip_head c t Ht) as Hc.
    cbn [rstrip_by]. rewrite Hc. cbn [andb lstrip]. rewrite Hc. reflexivity. }
  apply H. induction s as [|c s IH]; [reflexivity|]. cbn [lstrip].
  destruct (is_space c) eqn:Hc; [exact IH|]. cbn [lstrip]. rewrite Hc. reflexivity.
Qed.

Lemma no_char_app (bad : ascii -> bool) (a b : string) :
  no_char bad (a ++ b) = no_char bad a && no_char bad b.
Proof.
  induction a as [|c a IH]; [reflexivity|]. rewrite append_cons. cbn [no_char].
  rewrite IH, andb_assoc. reflexivity.
Qed.

Lemma split_char_plain (sep : ascii) (s : string) :
  no_char (Ascii.eqb sep) s = true -> split_char sep s = [s].
Proof.
  induction s as [|c s IH]; [reflexivity|]. cbn [no_char split_char].
  intros H. apply andb_true_iff in H as [Hc Hs]. rewrite (IH Hs).
  rewrite Ascii.eqb_sym. apply negb_true_iff in Hc. rewrite Hc. reflexivity.
Qed.

Lemma split_char_app (sep : ascii) (a b : string) :
  no_char (Ascii.eqb sep) a = true ->
  split_char sep (a ++ String sep b) = a :: split_char sep b.
Proof.
  induction a as [|c a IH].
  - intros _. rewrite append_nil_l. cbn [split_char]. rewrite Ascii.eqb_refl. reflexivity.
  - cbn [no_char]. intros H. apply andb_true_iff in H as [Hc Ha].
    rewrite append_cons. cbn [split_char]. rewrite (IH Ha).
    rewrite Ascii.eqb_sym. apply negb_true_iff in Hc. rewrite Hc. reflexivity.
Qed.

(** The first part of a split is a prefix of the string, followed by
    the separator when there is a second part. *)
Lemma split_char_head (sep : ascii) (s : string) :
  forall p0 p1 rest,
    split_char sep s = p0 :: p1 :: rest -> exists t, s = p0 ++ String sep t.
Proof.
  induction s as [|c s IH]; intros p0 p1 rest; cbn [split_char]; [discriminate|].
  destruct (Ascii.eqb_spec c sep) as [->|Hne].
  - intros [= <- _]. exists s. reflexivity.
  - destruct (split_char sep s) as [|x [|y ys]] eqn:Hs; try discriminate.
    intros [= <- <- <-]. destruct (IH x y ys eq_refl) as [t ->].
    exists t. reflexivity.
Qed.

(** *** Lines *)

Lemma read_lines_plain (body : string) :
  forall cur,
    no_char is_newline body = true ->
    read_lines false cur body = if String.eqb (cur ++ body) "" then [] else [cur ++ body].
Proof.
  induction body as [|c body IH]; intros cur; cbn [no_char read_lines].
  - intros _. rewrite append_nil_r. reflexivity.
  - intros H. apply andb_true_iff in H as [Hc Hb]. unfold is_newline in Hc.
    apply negb_true_iff, orb_false_iff in Hc as [-> ->].
    rewrite (IH _ Hb), append_assoc. reflexivity.
Qed.

Lemma read_lines_line (body rest : string) :
  forall cur,
    no_char is_newline body = true ->
    read_lines false cur (body ++ newline ++ rest)
    = (cur ++ body ++ newline) :: read_lines false "" rest.
Proof.
  induction body as [|c body IH]; intros cur.
  - intros _. reflexivity.
  - cbn [no_char]. intros H. apply andb_true_iff in H as [Hc Hb]. unfold is_newline in Hc.
    apply negb_true_iff, orb_false_iff in Hc as [Hlf Hcr].
    rewrite append_cons. cbn [read_lines]. rewrite Hlf, Hcr, (IH _ Hb), append_assoc.
    reflexivity.
Qed.

Lemma read_lines_app (s1 s2 : string) :
  forall after_cr cur,
    (after_cr = true -> cur = "") ->
    read_lines after_cr cur (s1 ++ newline ++ s2)
    = (read_lines after_cr cur (s1 ++ newline) ++ read_lines false "" s2)%list.
Proof.
  induction s1 as [|c s1 IH]; intros after_cr cur Hcr.
  - change ("" ++ newline ++ s2) with (String "010" s2).
    change ("" ++ newline) with (String "010" "").
    cbn [read_lines Ascii.eqb Bool.eqb]. destruct after_cr.
    + rewrite (Hcr eq_refl). reflexivity.
    + reflexivity.
  - rewrite !append_cons. cbn [read_lines]. destruct (Ascii.eqb c "010").
    + destruct after_cr.
      * apply IH. intros _. apply Hcr. reflexivity.
      * cbn [app]. f_equal. apply IH. discriminate.
    + destruct (Ascii.eqb c "013").
      * cbn [app]. f_equal. apply IH. reflexivity.
      * apply IH. discriminate.
Qed.

End StringFacts.

(** ** The tokens file *)

Section TokensFile.
Import Processor TokenManager Scenario.

Variable str_of : pyval -> string.

Lemma clean_line_is_plain (addr name : string) :
  clean_field addr -> clean_field name ->
  no_char is_newline (addr ++ "," ++ name) = true.
Proof.
  intros (_ & _ & _ & Ha) (_ & _ & _ & Hn).
  rewrite no_char_app, Ha. change ("," ++ name) with (String "," name).
  cbn [no_char andb]. rewrite Hn. reflexivity.
Qed.

Lemma strip_clean_line (addr name : string) :
  clean_field addr -> clean_field name ->
  strip ((addr ++ "," ++ name) ++ newline) = addr ++ "," ++ name.
Proof.
  intros (Ha & Hsa & _ & _) (Hn & Hsn & _ & _).
  destruct (strip_fixed addr Hsa) as [Hla _].
  destruct (strip_fixed name Hsn) as [_ Hrn].
  unfold strip. rewrite !append_assoc. rewrite (lstrip_app _ _ Ha Hla).
  assert (H1 : rstrip_by is_space (name ++ newline) = name).
  { unfold newline. rewrite rstrip_by_last by reflexivity. exact Hrn. }
  assert (H2 : rstrip_by is_space ("," ++ name ++ newline) = "," ++ name).
  { rewrite rstrip_by_app; rewrite H1; [reflexivity|exact Hn]. }
  rewrite rstrip_by_app; rewrite H2; [reflexivity|discriminate].
Qed.

(** The line [add_token] writes for two clean fields is read back as
    these fields. *)
Lemma parse_clean_line (addr name : string) :
  clean_field addr -> prefixb "#" addr = false -> clean_field name ->
  parse_token_line ((addr ++ "," ++ name) ++ newline) = Some (addr, name).
Proof.
  intros Ha Hhash Hn. unfold parse_token_line.
  rewrite (strip_clean_line addr name Ha Hn).
  destruct Ha as (Hane & Hsa & Hca & _). destruct Hn as (Hnne & Hsn & Hcn & _).
  assert (H1 : String.eqb (addr ++ "," ++ name) "" = false).
  { destruct addr; [congruence|reflexivity]. }
  assert (H2 : prefixb "#" (addr ++ "," ++ name) = false).
  { destruct addr as [|c addr]; [congruence|]. rewrite append_cons.
    cbn [prefixb] in *. destruct (Ascii.eqb "#" c); [discriminate|reflexivity]. }
  rewrite H1, H2. cbn [negb andb].
  change ("," ++ name) with (String "," name).
  rewrite (split_char_app "," addr name Hca), (split_char_plain "," name Hcn).
  rewrite Hsa, Hsn. reflexivity.
Qed.

Lemma readlines_append_line (content line : string) :
  ends_lines content -> no_char is_newline line = true ->
  readlines (content ++ line ++ newline)
  = (readlines content ++ [(line ++ newline)%string])%list.
Proof.
  intros Hends Hplain. unfold readlines.
  assert (Hline : read_lines false "" (line ++ newline) = [line ++ newline]).
  { rewrite <- (append_nil_r newline) at 1.
    rewrite (read_lines_line line "" "" Hplain). reflexivity. }
  destruct Hends as [->|[c ->]].
  - rewrite append_nil_l, Hline. reflexivity.
  - rewrite append_assoc, read_lines_app by discriminate. rewrite Hline. reflexivity.
Qed.

Lemma add_line_round_trip (addr name : string) (file : option string) :
  clean_field addr -> prefixb "#" addr = false -> clean_field name ->
  ends_lines (default "" file) ->
  tokens_of (Some (default "" file ++ addr ++ "," ++ name ++ newline))
  = (tokens_of file ++ [(addr, name)])%list.
Proof.
  intros Ha Hhash Hn Hends. unfold tokens_of, load_tokens. cbn [option_map].
  replace (addr ++ "," ++ name ++ newline) with ((addr ++ "," ++ name) ++ newline)
    by (rewrite !append_assoc; reflexivity).
  rewrite (readlines_append_line _ _ Hends (clean_line_is_plain _ _ Ha Hn)).
  rewrite omap_app. cbn [omap list_omap]. rewrite (parse_clean_line _ _ Ha Hhash Hn).
  destruct file as [content|]; cbn [default option_map]; reflexivity.
Qed.

(** X20: a token added with [add_token] is read back by [load_tokens].
    When the file's lines are all ended and the address and the name are
    clean (not empty, no surrounding whitespace, no comma, no line
    break) and the address does not start with '#', the tokens read
    after the call are those read before it followed by the new pair. *)
Theorem add_token_round_trip (addr name : string) (resp : option pyval)
    (file : option string) :
  clean_field addr -> prefixb "#" addr = false -> clean_field name ->
  ends_lines (default "" file) ->
  tokens_of (add_token str_of addr (Some name) resp file)
  = (tokens_of file ++ [(addr, name)])%list.
Proof.
  intros Ha Hhash Hn Hends. unfold add_token.
  assert (Hne : String.eqb name "" = false).
  { destruct Hn as (Hne & _). destruct name; [congruence|reflexivity]. }
  rewrite Hne. cbn [py_format]. exact (add_line_round_trip addr name file Ha Hhash Hn Hends).
Qed.

(** X21: a token added without a name when the name service fails: the
    request raises, or its answer has no pairs.  The token is listed
    under the name ["UNKNOWN"], whose symbol is ["UNKNOWN"]. *)
Theorem unnamed_token_is_unknown (addr : string) (token_name : option string)
    (resp : option pyval) (file : option string) :
  clean_field addr -> prefixb "#" addr = false ->
  ends_lines (default "" file) ->
  token_name = None \/ token_name = Some "" ->
  resp = None \/
  (exists d, resp = Some (PDict d) /\ truthy (dict_get d "pairs" (PList [])) = false) ->
  tokens_of (add_token str_of addr token_name resp file)
  = (tokens_of file ++ [(addr, "UNKNOWN")])%list /\
  token_symbol_of "UNKNOWN" = Ret "UNKNOWN".
Proof.
  intros Ha Hhash Hends Hname Hresp. split; [|reflexivity].
  assert (Hfetch : fetch_token_name resp = PStr "UNKNOWN").
  { destruct Hresp as [->|(d & -> & Hp)]; [reflexivity|].
    unfold fetch_token_name. cbn [py_get obind]. rewrite Hp. reflexivity. }
  unfold add_token.
  assert (Hwritten : match token_name with
                     | Some n => if String.eqb n "" then fetch_token_name resp else PStr n
                     | None => fetch_token_name resp
                     end = PStr "UNKNOWN").
  { destruct Hname as [->| ->]; exact Hfetch. }
  rewrite Hwritten. cbn [py_format].
  apply (add_line_round_trip addr "UNKNOWN" file Ha Hhash); [|exact Hends].
  unfold clean_field. repeat split; discriminate || reflexivity.
Qed.

End TokensFile.

Section TokensFileWitnesses.
Import Processor TokenManager Scenario.

(** A third token is added to a file of two. *)
Lemma add_token_round_trip_witness :
  tokens_of (add_token (fun _ => "") "T3" (Some "Token Three (T3)") None
               (Some ("T1,Token One (T1)" ++ newline ++ "T2,Token Two (T2)" ++ newline)))
  = [("T1", "Token One (T1)"); ("T2", "Token Two (T2)"); ("T3", "Token Three (T3)")].
Proof.
  refine (add_token_round_trip (fun _ => "") "T3" "Token Three (T3)" None
            (Some ("T1,Token One (T1)" ++ newline ++ "T2,Token Two (T2)" ++ newline))
            _ _ _ _).
  - unfold clean_field. repeat split; discriminate || reflexivity.
  - reflexivity.
  - unfold clean_field. repeat split; discriminate || reflexivity.
  - right. exists ("T1,Token One (T1)" ++ newline ++ "T2,Token Two (T2)"). reflexivity.
Defined.

(** The first token of a new file, with the name service unreachable. *)
Lemma unnamed_token_is_unknown_witness :
  tokens_of (add_token (fun _ => "") "T1" None None None) = [("T1", "UNKNOWN")] /\
  token_symbol_of "UNKNOWN" = Ret "UNKNOWN".
Proof.
  refine (unnamed_token_is_unknown (fun _ => "") "T1" None None None _ _ _ _ _).
  - unfold clean_field. repeat split; discriminate || reflexivity.
  - reflexivity.
  - left. reflexivity.
  - left. reflexivity.
  - left. reflexivity.
Defined.

End TokensFileWitnesses.

(** ** Removing a token *)

Section RemoveFacts.
Import Processor WebApp Scenario.

Lemma file_lines_cons (l : string) (rest : list string) :
  complete_line l -> file_lines rest -> file_lines (l :: rest).
Proof.
  intros Hl Hrest. cbn [file_lines]. destruct rest; [left; exact Hl|split; assumption].
Qed.

Lemma file_lines_tail (l : string) (rest : list string) :
  file_lines (l :: rest) -> file_lines rest.
Proof. cbn [file_lines]. destruct rest; [intros _; exact I|intros [_ H]; exact H]. Qed.

Lemma read_lines_file_lines (s : string) :
  forall after_cr cur,
    no_char is_newline cur = true -> file_lines (read_lines after_cr cur s).
Proof.
  induction s as [|c s IH]; intros after_cr cur Hcur; cbn [read_lines].
  - destruct (String.eqb_spec cur ""); [exact I|]. right. split; assumption.
  - assert (Hline : complete_line (cur ++ newline)) by (exists cur; auto).
    destruct (Ascii.eqb c "010") eqn:Hlf.
    + destruct after_cr; [apply IH; exact Hcur|].
      apply file_lines_cons; [exact Hline|apply IH; reflexivity].
    + destruct (Ascii.eqb c "013") eqn:Hcr.
      * apply file_lines_cons; [exact Hline|apply IH; reflexivity].
      * apply IH. rewrite no_char_app, Hcur. cbn [no_char andb]. unfold is_newline.
        rewrite Hlf, Hcr. reflexivity.
Qed.

Lemma file_lines_filter (keep : string -> bool) (ls : list string) :
  file_lines ls -> file_lines (List.filter keep ls).
Proof.
  induction ls as [|l rest IH]; [exact (fun H => H)|]. intros H.
  pose proof (IH (file_lines_tail _ _ H)) as Hrest. cbn [List.filter].
  destruct (keep l); [|exact Hrest].
  cbn [file_lines] in H. destruct rest as [|r rs].
  - exact H.
  - destruct H as [Hl _]. apply file_lines_cons; assumption.
Qed.

(** Lines written one after the other are read back as they were. *)
Lemma readlines_concat (ls : list string) :
  file_lines ls -> readlines (String.concat "" ls) = ls.
Proof.
  unfold readlines. induction ls as [|l rest IH]; [reflexivity|]. intros H.
  destruct rest as [|r rs].
  - cbn [String.concat]. destruct H as [(body & -> & Hb) | (Hne & Hp)].
    + rewrite <- (append_nil_r newline) at 1. rewrite (read_lines_line body "" "" Hb).
      reflexivity.
    + rewrite (read_lines_plain l "" Hp). rewrite append_nil_l.
      destruct (String.eqb_spec l ""); [congruence|reflexivity].
  - destruct H as [(body & -> & Hb) Hrest].
    change (String.concat "" ((body ++ newline) :: r :: rs))
      with ((body ++ newline) ++ "" ++ String.concat "" (r :: rs)).
    rewrite append_nil_l, append_assoc, (read_lines_line body _ "" Hb), (IH Hrest).
    reflexivity.
Qed.

(** The address of a token is a prefix of its stripped line. *)
Lemma parsed_address_is_prefix (line a n : string) :
  parse_token_line line = Some (a, n) -> prefixb a (strip line) = true.
Proof.
  unfold parse_token_line. pose proof (lstrip_strip line) as Hhead.
  destruct (negb (String.eqb (strip line) "") && negb (prefixb "#" (strip line)));
    [|discriminate].
  destruct (split_char "," (strip line)) as [|p0 [|p1 rest]] eqn:Hsplit; try discriminate.
  intros [= <- _]. destruct (split_char_head _ _ _ _ _ Hsplit) as [t Ht].
  rewrite Ht in Hhead |- *.
  destruct p0 as [|c p0]; [reflexivity|].
  rewrite append_cons in Hhead. pose proof (lstrip_head _ _ Hhead) as Hc.
  unfold strip at 1. cbn [lstrip]. rewrite Hc.
  destruct (rstrip_by_suffix is_space (String c p0)) as [u Hu].
  rewrite Hu at 2. rewrite append_assoc. apply prefixb_app.
Qed.

Variable sql_text : pyval -> string.

(** X22: [remove_token] with a str address.  The checkpoint and every
    row of the target are deleted and those of the other targets are
    kept; every token that is still read from the file was read from it
    before and has another address.  The removed target is unresolved
    and unlisted afterwards. *)
Theorem remove_token_removes (a : string) (p : processor) (file : option string) :
  a <> "" ->
  let out := remove_token sql_text (PStr a) p file in
  let p' := snd (fst out) in
  status (fst (fst out)) = 200%nat /\
  processed_tokens p' !! a = None /\
  (forall w, traders p' !! (w, a) = None) /\
  (forall a', a' <> a ->
     processed_tokens p' !! a' = processed_tokens p !! a' /\
     forall w, traders p' !! (w, a') = traders p !! (w, a')) /\
  (forall t, In t (tokens_of (snd out)) -> fst t <> a /\ In t (tokens_of file)).
Proof.
  intros Ha. cbn zeta. unfold remove_token.
  assert (Ht : truthy (PStr a) = true).
  { cbn [truthy]. destruct (String.eqb_spec a ""); [congruence|reflexivity]. }
  rewrite Ht. cbn [negb bind_error fst snd status delete_token processed_tokens traders].
  refine (conj eq_refl (conj _ (conj _ (conj _ _)))).
  - apply lookup_delete_eq.
  - intros w. apply map_lookup_filter_None. right. intros row _ Hkeep. apply Hkeep.
    reflexivity.
  - intros a' Hne. split; [apply lookup_delete_ne; congruence|].
    intros w. destruct (traders p !! (w, a')) as [row|] eqn:Hrow.
    + apply map_lookup_filter_Some. split; [exact Hrow|]. cbn. exact Hne.
    + apply map_lookup_filter_None. left. exact Hrow.
  - intros t. destruct file as [content|]; cbn [option_map]; [|intros []].
    unfold tokens_of, load_tokens. cbn [option_map].
    rewrite readlines_concat.
    2:{ apply file_lines_filter. apply read_lines_file_lines. reflexivity. }
    rewrite <- !list_elem_of_In, !list_elem_of_omap.
    intros (line & Hin & Hparse). apply list_elem_of_In in Hin.
    unfold filtered_lines in Hin. apply filter_In in Hin as [Hin Hkeep].
    split.
    + intros Heq. destruct t as [a0 n]. cbn in Heq. subst a0.
      rewrite (parsed_address_is_prefix _ _ _ Hparse) in Hkeep. discriminate.
    + exists line. split; [apply list_elem_of_In; exact Hin|exact Hparse].
Qed.

End RemoveFacts.

Section RemoveWitness.
Import Processor WebApp Scenario.

(** T1 is removed from a store and a file that hold both targets. *)
Lemma remove_token_removes_witness :
  let file := Some ("T1,Token One (T1)" ++ newline ++ "T2,Token Two (T2)" ++ newline) in
  let out := remove_token (fun _ => "") (PStr "T1") both_done file in
  let p' := snd (fst out) in
  status (fst (fst out)) = 200%nat /\
  processed_tokens p' !! "T1" = None /\
  (forall w, traders p' !! (w, "T1") = None) /\
  (forall a', a' <> "T1" ->
     processed_tokens p' !! a' = processed_tokens both_done !! a' /\
     forall w, traders p' !! (w, a') = traders both_done !! (w, a')) /\
  (forall t, In t (tokens_of (snd out)) -> fst t <> "T1" /\ In t (tokens_of file)).
Proof.
  apply (remove_token_removes (fun _ => "") "T1" both_done
           (Some ("T1,Token One (T1)" ++ newline ++ "T2,Token Two (T2)" ++ newline))).
  discriminate.
Defined.

End RemoveWitness.

(** ** The symbol of a token *)

Section SymbolFacts.
Import Processor Scenario.

Lemma contains_app (needle a b : string) :
  prefixb needle b = true -> contains needle (a ++ b) = true.
Proof.
  intros H. induction a as [|c a IH].
  - rewrite append_nil_l. destruct b; cbn [contains]; rewrite H; reflexivity.
  - rewrite append_cons. cbn [contains]. rewrite IH. apply orb_true_r.
Qed.

Lemma rstrip_by_none (p : ascii -> bool) (s : string) :
  no_char p s = true -> rstrip_by p s = s.
Proof.
  induction s as [|c s IH]; [reflexivity|]. cbn [no_char rstrip_by].
  intros H. apply andb_true_iff in H as [Hc Hs]. rewrite (IH Hs).
  apply negb_true_iff in Hc. rewrite Hc. reflexivity.
Qed.

(** The last part of a split at [sep] is the last part of what follows
    any occurrence of [sep]. *)
Lemma split_char_last (sep : ascii) (b : string) (a : string) :
  exists p0 p1 rest,
    split_char sep (a ++ String sep b) = p0 :: p1 :: rest /\
    List.last (p1 :: rest) "" = List.last (split_char sep b) "".
Proof.
  induction a as [|c a (p0 & p1 & rest & Hsplit & Hlast)].
  - rewrite append_nil_l. cbn [split_char]. rewrite Ascii.eqb_refl.
    destruct (split_char sep b) as [|x xs] eqn:Hb.
    + destruct b; cbn [split_char] in Hb; [discriminate|].
      destruct (Ascii.eqb a sep); [discriminate|].
      destruct (split_char sep b); discriminate.
    + exists "", x, xs. split; reflexivity.
  - rewrite append_cons. cbn [split_char]. rewrite Hsplit.
    destruct (Ascii.eqb c sep).
    + exists "", p0, (p1 :: rest). split; [reflexivity|]. exact Hlast.
    + exists (String c p0), p1, rest. split; [reflexivity|exact Hlast].
Qed.

(** X23: the symbol of a name that ends in a parenthesised symbol,
    as in ["Token One (T1)"], is what stands between the last ["("] and
    the closing [")"]. *)
Theorem symbol_in_parentheses (pre sym : string) :
  sym <> "" ->
  no_char (Ascii.eqb "(") sym = true ->
  no_char (Ascii.eqb ")") sym = true ->
  token_symbol_of (pre ++ "(" ++ sym ++ ")") = Ret sym.
Proof.
  intros Hne Hopen Hclose. unfold token_symbol_of.
  assert (H1 : contains "(" (pre ++ "(" ++ sym ++ ")") = true).
  { apply contains_app. reflexivity. }
  assert (H2 : contains ")" (pre ++ "(" ++ sym ++ ")") = true).
  { rewrite <- !append_assoc. apply contains_app. reflexivity. }
  assert (H0 : String.eqb (pre ++ "(" ++ sym ++ ")") "UNKNOWN" = false).
  { destruct (String.eqb_spec (pre ++ "(" ++ sym ++ ")") "UNKNOWN") as [E|_];
      [|reflexivity]. rewrite E in H1. discriminate H1. }
  rewrite H0, H1, H2. cbn [andb].
  destruct (split_char_last "(" (sym ++ ")") pre) as (p0 & p1 & rest & Hsplit & Hlast).
  change ("(" ++ sym ++ ")") with (String "(" (sym ++ ")")).
  rewrite Hsplit.
  change (List.last (p0 :: p1 :: rest) "") with (List.last (p1 :: rest) "").
  rewrite Hlast, split_char_plain.
  2:{ rewrite no_char_app, Hopen. reflexivity. }
  cbn [List.last].
  change (sym ++ ")") with (sym ++ String ")" "").
  rewrite rstrip_by_last by reflexivity. rewrite (rstrip_by_none _ _ Hclose).
  destruct sym; [congruence|reflexivity].
Qed.

End SymbolFacts.

Section SymbolWitness.
Import Processor Scenario.

Lemma symbol_in_parentheses_witness :
  token_symbol_of ("Wrapped (old) Coin " ++ "(" ++ "WOC" ++ ")") = Ret "WOC".
Proof.
  apply (symbol_in_parentheses "Wrapped (old) Coin " "WOC").
  - discriminate.
  - reflexivity.
  - reflexivity.
Defined.

End SymbolWitness.

(** ** The semaphore *)

Section SemaphoreFacts.
Import Processor Scenario.

Lemma in_flight_insert (sts : list task_status) :
  forall i st st',
    sts !! i = Some st ->
    (in_flight (<[i := st']> sts) + (if is_evaluating st then 1 else 0)
     = in_flight sts + (if is_evaluating st' then 1 else 0))%nat.
Proof.
  unfold in_flight.
  induction sts as [|s sts IH]; intros i st st' Hi; [discriminate|].
  destruct i as [|i]; cbn in Hi.
  - injection Hi as ->. cbn [insert list_insert List.filter].
    destruct (is_evaluating st), (is_evaluating st'); cbn [List.length]; lia.
  - change (<[S i := st']> (s :: sts)) with (s :: <[i := st']> sts).
    cbn [List.filter]. specialize (IH i st st' Hi).
    destruct (is_evaluating s); cbn [List.length]; lia.
Qed.

Section OneToken.

Variables token_address token_name token_symbol : string.
Variable traders_data : list pyval.
Variable evaluate : pyval -> outcome (string * dict).

Lemma save_evaluated_sem (trader wallet : pyval) (reason : string) (st : dict)
    (r : token_run) :
  let out := save_evaluated token_address token_name token_symbol
               trader wallet reason st r in
  sem (snd out) = sem r /\ status (snd out) = status r.
Proof.
  cbn zeta. unfold save_evaluated.
  destruct (obind _ _) as [[w c]|e|]; try (split; reflexivity).
  destruct (save_trader_data _ _ _ _ _ _ _) as [[u|e|] p]; try (split; reflexivity).
  destruct (String.eqb reason "PASS"); split; reflexivity.
Qed.

Lemma on_error_sem (wallet : pyval) (e : exn) (r : token_run) :
  let out := on_error token_address token_name token_symbol wallet e r in
  sem (snd out) = sem r /\ status (snd out) = status r.
Proof.
  cbn zeta. unfold on_error. destruct (stop_text (exn_msg e)); [split; reflexivity|].
  destruct (wallet_str wallet) as [w|e'|]; try (split; reflexivity).
Qed.

Lemma finish_sem (o : outcome unit) (r : token_run) :
  sem (finish traders_data o r) = sem r /\ status (finish traders_data o r) = status r.
Proof.
  unfold finish. destruct o as [u|e|]; [| |split; reflexivity].
  - destruct (_ || _); split; reflexivity.
  - destruct (throttle_text (exn_msg e)); split; reflexivity.
Qed.

(** A task that does not hold the semaphore takes a slot, waits for
    one, or gives its slot back at once. *)
Lemma acquire_balance (c i : nat) (st : task_status) (wallet : pyval) (r : token_run) :
  (sem r + in_flight (status r) = c)%nat ->
  status r !! i = Some st -> is_evaluating st = false ->
  let r' := acquire token_address traders_data i wallet r in
  (sem r' + in_flight (status r') = c)%nat.
Proof.
  intros Hbal Hi Hst. cbn zeta. unfold acquire. destruct (sem r) as [|n] eqn:Hsem.
  - cbn [set_status sem status]. pose proof (in_flight_insert _ i st Waiting Hi) as H.
    rewrite Hst in H. cbn [is_evaluating] in H. lia.
  - destruct (stop_processing _).
    + destruct (finish_sem (Ret tt) (release (set_sem n r))) as [Hs Hst'].
      cbn [set_status sem status]. rewrite Hs, Hst'. cbn [release set_sem sem status].
      pose proof (in_flight_insert _ i st Finished Hi) as H.
      rewrite Hst in H. cbn [is_evaluating] in H. lia.
    + cbn [set_status with_self set_sem sem status].
      pose proof (in_flight_insert _ i st Evaluating Hi) as H.
      rewrite Hst in H. cbn [is_evaluating] in H. lia.
Qed.

(** A task whose evaluation is over gives its slot back. *)
Lemma resume_balance (c i : nat) (trader wallet : pyval) (r : token_run) :
  (sem r + in_flight (status r) = c)%nat ->
  status r !! i = Some Evaluating ->
  let r' := resume token_address token_name token_symbol traders_data evaluate
              i trader wallet r in
  (sem r' + in_flight (status r') = c)%nat.
Proof.
  intros Hbal Hi. cbn zeta. unfold resume.
  assert (Hend : forall o r2,
            sem r2 = sem r -> status r2 = status r ->
            (sem (set_status i Finished (finish traders_data o (release r2)))
             + in_flight (status (set_status i Finished
                                    (finish traders_data o (release r2)))) = c)%nat).
  { intros o r2 Hs Hst. destruct (finish_sem o (release r2)) as [Hs' Hst'].
    cbn [set_status sem status]. rewrite Hs', Hst'. cbn [release set_sem sem status].
    rewrite Hs, Hst. pose proof (in_flight_insert _ i Evaluating Finished Hi) as H.
    cbn [is_evaluating] in H. lia. }
  assert (Herr : forall e r2,
            sem r2 = sem r -> status r2 = status r ->
            let r' := (let '(o, r3) := on_error token_address token_name token_symbol
                                         wallet e r2 in
                       set_status i Finished (finish traders_data o (release r3))) in
            (sem r' + in_flight (status r') = c)%nat).
  { intros e r2 Hs Hst. pose proof (on_error_sem wallet e r2) as [Hs3 Hst3].
    destruct (on_error _ _ _ wallet e r2) as [o3 r3]. cbn [snd] in *.
    apply Hend; congruence. }
  destruct (evaluate wallet) as [[reason gs]|e|].
  - pose proof (save_evaluated_sem trader wallet reason gs r) as [Hs2 Hst2].
    destruct (save_evaluated _ _ _ _ _ _ _ r) as [o r2]. cbn [snd] in *.
    destruct o as [u|e|]; [apply Hend|apply Herr|apply Hend]; assumption.
  - apply Herr; reflexivity.
  - exact Hbal.
Qed.

Lemma step_task_balance (c i : nat) (r : token_run) :
  (sem r + in_flight (status r) = c)%nat ->
  let r' := step_task token_address token_name token_symbol traders_data evaluate i r in
  (sem r' + in_flight (status r') = c)%nat.
Proof.
  intros Hbal. cbn zeta. unfold step_task.
  destruct (traders_data !! i) as [trader|]; [|exact Hbal].
  destruct (status r !! i) as [[| | |]|] eqn:Hi; try exact Hbal.
  - assert (Hfin : forall r2, sem r2 = sem r -> status r2 = status r ->
              (sem (set_status i Finished r2)
               + in_flight (status (set_status i Finished r2)) = c)%nat).
    { intros r2 Hs Hst. cbn [set_status sem status]. rewrite Hs, Hst.
      pose proof (in_flight_insert _ i Created Finished Hi) as H.
      cbn [is_evaluating] in H. lia. }
    destruct (stop_processing (self r)); [apply Hfin; reflexivity|].
    destruct (wallet_of trader) as [wallet|e|].
    + apply (acquire_balance c i Created); auto.
    + apply Hfin; apply finish_sem.
    + apply Hfin; apply finish_sem.
  - destruct (wallet_of trader); try exact Hbal.
    apply (acquire_balance c i Waiting); auto.
  - destruct (wallet_of trader); try exact Hbal.
    apply (resume_balance c i); auto.
Qed.

Lemma gather_balance (c : nat) (schedule : list nat) :
  forall r,
    (sem r + in_flight (status r) = c)%nat ->
    let r' := gather token_address token_name token_symbol traders_data evaluate
                schedule r in
    (sem r' + in_flight (status r') = c)%nat.
Proof.
  induction schedule as [|i schedule IH]; intros r Hbal; [exact Hbal|].
  cbn zeta. cbn [gather fold_left]. apply IH. apply step_task_balance. exact Hbal.
Qed.

End OneToken.

Lemma in_flight_created (n : nat) : in_flight (repeat Created n) = 0%nat.
Proof. induction n as [|n IH]; [reflexivity|exact IH]. Qed.

(** X24: the semaphore bounds the evaluations in flight.  Under every
    schedule and at every point of it, the free slots and the tasks
    that are awaiting [evaluate_trader] add up to [concurrency]: never
    more than [concurrency] wallets are being evaluated at once. *)
Theorem evaluations_in_flight_are_bounded (token_address token_name token_symbol : string)
    (traders_data : list pyval) (evaluate : pyval -> outcome (string * dict))
    (schedule : list nat) (p : processor) :
  let r := tasks_of token_address token_name token_symbol traders_data evaluate
             schedule p in
  (sem r + in_flight (status r) = concurrency p)%nat /\
  (in_flight (status r) <= concurrency p)%nat.
Proof.
  cbn zeta.
  assert (H : (sem (tasks_of token_address token_name token_symbol traders_data evaluate
                      schedule p)
               + in_flight (status (tasks_of token_address token_name token_symbol
                                      traders_data evaluate schedule p))
               = concurrency p)%nat).
  { unfold tasks_of. apply gather_balance. cbn [sem status].
    rewrite in_flight_created. lia. }
  split; [exact H|lia].
Qed.

End SemaphoreFacts.

(** ** The stop flag *)

Section FlagFacts.
Import Processor Scenario.

Lemma stops_loudly_refl (p : processor) : stops_loudly p p.
Proof.
  exists []. rewrite app_nil_r. refine (conj eq_refl (conj (fun H => H) _)). congruence.
Qed.

Lemma stops_loudly_same (p p' : processor) :
  stop_processing p' = stop_processing p -> calls p' = calls p -> stops_loudly p p'.
Proof.
  intros Hf Hc. exists []. rewrite app_nil_r, Hf.
  refine (conj Hc (conj (fun H => H) _)). congruence.
Qed.

Lemma stops_loudly_notify (c : call) (p p' : processor) :
  stop_processing p' = stop_processing p -> calls p' = calls p ->
  stops_loudly p (notify c p').
Proof.
  intros Hf Hc. exists [c]. cbn [notify calls stop_processing]. rewrite Hf, Hc.
  refine (conj eq_refl (conj (fun H => H) _)). congruence.
Qed.

Lemma stops_loudly_fatal (message : string) (p p' : processor) :
  calls p' = calls p ->
  stops_loudly p (notify (FatalCallback message) (set_stop p')).
Proof.
  intros Hc. exists [FatalCallback message]. cbn [notify set_stop calls stop_processing].
  rewrite Hc. refine (conj eq_refl (conj (fun _ => eq_refl) _)).
  intros _ _. exists message. left. reflexivity.
Qed.

Lemma stops_loudly_trans (p1 p2 p3 : processor) :
  stops_loudly p1 p2 -> stops_loudly p2 p3 -> stops_loudly p1 p3.
Proof.
  intros (n1 & C1 & U1 & L1) (n2 & C2 & U2 & L2). exists (n1 ++ n2)%list.
  refine (conj _ (conj _ _)).
  - rewrite C2, C1, app_assoc. reflexivity.
  - intros H. apply U2, U1, H.
  - intros H1 H3. destruct (stop_processing p2) eqn:H2.
    + destruct (L1 H1 eq_refl) as [m Hm]. exists m. apply in_or_app. left. exact Hm.
    + destruct (L2 eq_refl H3) as [m Hm]. exists m. apply in_or_app. right. exact Hm.
Qed.

Lemma stops_loudly_save (w token_address n y reason : string) (stats : dict) (p : processor) :
  stops_loudly p (snd (save_trader_data w token_address n y reason stats p)).
Proof.
  unfold save_trader_data. destruct (bound_params _); cbn [snd].
  - apply stops_loudly_refl.
  - apply stops_loudly_same; reflexivity.
Qed.

Section OneToken.

Variables token_address token_name token_symbol : string.
Variable traders_data : list pyval.
Variable evaluate : pyval -> outcome (string * dict).

Lemma save_evaluated_loud (trader wallet : pyval) (reason : string) (st : dict)
    (r : token_run) :
  stops_loudly (self r)
    (self (snd (save_evaluated token_address token_name token_symbol
                  trader wallet reason st r))).
Proof.
  unfold save_evaluated. destruct (obind _ _) as [[w c]|e|]; try apply stops_loudly_refl.
  pose proof (stops_loudly_save w token_address token_name token_symbol reason c (self r))
    as H.
  destruct (save_trader_data _ _ _ _ _ _ _) as [[u|e|] p]; cbn [snd] in *; try exact H.
  destruct (String.eqb reason "PASS"); exact H.
Qed.

Lemma on_error_loud (wallet : pyval) (e : exn) (r : token_run) :
  stops_loudly (self r)
    (self (snd (on_error token_address token_name token_symbol wallet e r))).
Proof.
  unfold on_error. destruct (stop_text (exn_msg e)).
  - apply stops_loudly_fatal. reflexivity.
  - destruct (wallet_str wallet) as [w|e'|]; try apply stops_loudly_refl.
    pose proof (stops_loudly_save w token_address token_name token_symbol "ERROR"
                  error_stats (self r)) as H.
    destruct (save_trader_data _ _ _ _ _ _ _) as [o p]. exact H.
Qed.

Lemma finish_loud (o : outcome unit) (r : token_run) :
  stops_loudly (self r) (self (finish traders_data o r)).
Proof.
  unfold finish. destruct o as [u|e|].
  - destruct (_ || _); [apply stops_loudly_notify|apply stops_loudly_same]; reflexivity.
  - destruct (throttle_text (exn_msg e));
      [apply stops_loudly_fatal|apply stops_loudly_same]; reflexivity.
  - apply stops_loudly_refl.
Qed.

Lemma acquire_loud (i : nat) (wallet : pyval) (r : token_run) :
  stops_loudly (self r) (self (acquire token_address traders_data i wallet r)).
Proof.
  unfold acquire. destruct (sem r) as [|n]; [apply stops_loudly_refl|].
  destruct (stop_processing _).
  - exact (finish_loud (Ret tt) (release (set_sem n r))).
  - apply stops_loudly_notify; reflexivity.
Qed.

Lemma resume_loud (i : nat) (trader wallet : pyval) (r : token_run) :
  stops_loudly (self r)
    (self (resume token_address token_name token_symbol traders_data evaluate
             i trader wallet r)).
Proof.
  unfold resume. destruct (evaluate wallet) as [[reason st]|e|].
  - pose proof (save_evaluated_loud trader wallet reason st r) as Hc.
    destruct (save_evaluated _ _ _ _ _ _ _ r) as [o r2]. cbn [snd] in Hc.
    apply stops_loudly_trans with (self r2); [exact Hc|].
    destruct o as [u|e|].
    + exact (finish_loud (Ret u) (release r2)).
    + pose proof (on_error_loud wallet e r2) as He.
      destruct (on_error _ _ _ wallet e r2) as [o3 r3]. cbn [snd] in He.
      apply stops_loudly_trans with (self r3); [exact He|].
      exact (finish_loud o3 (release r3)).
    + exact (finish_loud Spin (release r2)).
  - pose proof (on_error_loud wallet e r) as He.
    destruct (on_error _ _ _ wallet e r) as [o3 r3]. cbn [snd] in He.
    apply stops_loudly_trans with (self r3); [exact He|].
    exact (finish_loud o3 (release r3)).
  - apply stops_loudly_refl.
Qed.

Lemma step_task_loud (i : nat) (r : token_run) :
  stops_loudly (self r)
    (self (step_task token_address token_name token_symbol traders_data evaluate i r)).
Proof.
  unfold step_task.
  destruct (traders_data !! i) as [trader|]; [|apply stops_loudly_refl].
  destruct (status r !! i) as [[| | |]|]; try apply stops_loudly_refl.
  - destruct (stop_processing (self r)); [apply stops_loudly_refl|].
    destruct (wallet_of trader) as [wallet|e|].
    + apply acquire_loud.
    + exact (finish_loud _ r).
    + exact (finish_loud _ r).
  - destruct (wallet_of trader); try apply stops_loudly_refl. apply acquire_loud.
  - destruct (wallet_of trader); try apply stops_loudly_refl. apply resume_loud.
Qed.

Lemma gather_loud (schedule : list nat) :
  forall r,
    stops_loudly (self r)
      (self (gather token_address token_name token_symbol traders_data evaluate
               schedule r)).
Proof.
  induction schedule as [|i schedule IH]; intros r; [apply stops_loudly_refl|].
  cbn [gather fold_left].
  eapply stops_loudly_trans; [apply (step_task_loud i r) | apply IH].
Qed.

End OneToken.

Lemma fetch_traders_data_loud (fetched : outcome (list pyval)) (p : processor) :
  stops_loudly p (snd (fetch_traders_data fetched p)).
Proof.
  unfold fetch_traders_data. destruct (obind _ _) as [u|e|]; try apply stops_loudly_refl.
  destruct (bool_decide _); [apply stops_loudly_fatal; reflexivity|].
  destruct (throttle_text _); [apply stops_loudly_fatal; reflexivity|].
  apply stops_loudly_refl.
Qed.

Lemma process_single_token_loud (token_address token_name : string)
    (post : outcome pyval) (evaluate : pyval -> outcome (string * dict))
    (schedule : list nat) (p : processor) :
  stops_loudly p
    (snd (process_single_token token_address token_name post evaluate schedule p)).
Proof.
  unfold process_single_token.
  set (p0 := notify (TokenCallback token_name) (set_current token_name p)).
  assert (H0 : stops_loudly p p0) by (apply stops_loudly_notify; reflexivity).
  destruct (token_symbol_of token_name) as [sym|e|]; try exact H0.
  set (p1 := notify (FetchTraders token_address) p0).
  assert (H1 : stops_loudly p p1).
  { eapply stops_loudly_trans; [exact H0|]. apply stops_loudly_notify; reflexivity. }
  pose proof (fetch_traders_data_loud (Bullx.fetch_top500_traders post) p1) as H2.
  destruct (fetch_traders_data _ p1) as [o p2]. cbn [snd] in H2.
  assert (H3 : stops_loudly p p2) by (eapply stops_loudly_trans; [exact H1 | exact H2]).
  destruct o as [[|t ts]|e|]; try exact H3.
  match goal with |- context [gather ?ta ?n ?y ?td ?ev ?sc ?r0] =>
    pose proof (gather_loud ta n y td ev sc r0) as H4;
    set (r := gather ta n y td ev sc r0) in * end.
  cbn [self] in H4.
  assert (H5 : stops_loudly p (self r)) by (eapply stops_loudly_trans; [exact H3 | exact H4]).
  destruct (all_finished r); [|exact H5].
  cbv zeta. rewrite mark_token_processed_stop.
  assert (H6 : stops_loudly p (mark_token_processed token_address token_name sym
                                 (List.length (t :: ts)) (passed_traders r) (self r))).
  { eapply stops_loudly_trans; [exact H5|]. apply stops_loudly_same; reflexivity. }
  destruct (stop_processing (self r)); exact H6.
Qed.

Lemma token_loop_loud (env : environment) (todo : list (string * string)) :
  forall results p, stops_loudly p (snd (token_loop env todo results p)).
Proof.
  induction todo as [|[addr name] rest IH]; intros results p; [apply stops_loudly_refl|].
  cbn [token_loop]. destruct (stop_processing p) eqn:Hflag; [apply stops_loudly_refl|].
  pose proof (process_single_token_loud addr name (bullx_post env addr)
                (evaluate_of env addr) (schedule_of env addr) p) as H1.
  destruct (process_single_token _ _ _ _ _ p) as [[res|e|] p']; cbn [snd] in H1.
  - eapply stops_loudly_trans; [exact H1 | apply IH].
  - destruct (throttle_text (exn_msg e)).
    + eapply stops_loudly_trans; [exact H1|]. apply stops_loudly_fatal. reflexivity.
    + eapply stops_loudly_trans; [exact H1 | apply IH].
  - exact H1.
Qed.

(** X25: a run never lowers the stop flag, and never raises it
    silently: when the flag is down before [process_all_tokens] and up
    after it, a fatal notification was made during the run. *)
Theorem stop_flag_is_raised_loudly (env : environment) (p : processor) :
  let p' := snd (process_all_tokens env p) in
  exists new,
    calls p' = (calls p ++ new)%list /\
    (stop_processing p = true -> stop_processing p' = true) /\
    (stop_processing p = false -> stop_processing p' = true ->
     exists message, In (FatalCallback message) new).
Proof.
  cbn zeta. fold (stops_loudly p (snd (process_all_tokens env p))).
  unfold process_all_tokens.
  destruct (unprocessed_tokens _ p) as [|t todo]; [apply stops_loudly_refl|].
  apply token_loop_loud.
Qed.

End FlagFacts.

(** ** The passed counter and the rows *)

Section PassedFacts.
Import Processor Scenario.

Lemma has_pass_row_same (p p' : processor) (token_address a : string) :
  traders p' !! (a, token_address) = traders p !! (a, token_address) ->
  has_pass_row p' token_address a = has_pass_row p token_address a.
Proof. unfold has_pass_row. intros ->. reflexivity. Qed.

Lemma passed_rows_same (p p' : processor) (token_address : string) (ts : list pyval) :
  forall sts,
    (forall t a, In t ts -> address_str t = Some a ->
                 traders p' !! (a, token_address) = traders p !! (a, token_address)) ->
    passed_rows p' token_address ts sts = passed_rows p token_address ts sts.
Proof.
  induction ts as [|t ts IH]; intros sts Hsame; [reflexivity|].
  destruct sts as [|st sts]; [reflexivity|]. cbn [passed_rows].
  rewrite IH by (intros t' a Hin; apply Hsame; right; exact Hin).
  destruct (address_str t) as [a|] eqn:Ha; [|reflexivity].
  rewrite (has_pass_row_same p p' token_address a); [reflexivity|].
  apply (Hsame t a); [left; reflexivity|exact Ha].
Qed.

Lemma passed_rows_unfinished (p : processor) (token_address : string) (ts : list pyval) :
  forall sts i st0 st,
    sts !! i = Some st0 -> is_finished st0 = false -> is_finished st = false ->
    passed_rows p token_address ts (<[i := st]> sts) = passed_rows p token_address ts sts.
Proof.
  induction ts as [|t ts IH]; intros sts i st0 st Hi H0 Hst; [reflexivity|].
  destruct sts as [|s sts]; [discriminate|]. destruct i as [|i]; cbn in Hi.
  - injection Hi as ->. cbn [insert list_insert passed_rows]. rewrite H0, Hst. reflexivity.
  - change (<[S i := st]> (s :: sts)) with (s :: <[i := st]> sts).
    cbn [passed_rows]. rewrite (IH sts i st0 st Hi H0 Hst). reflexivity.
Qed.

(** A task is finished and the row of its wallet is written. *)
Lemma passed_rows_finished (p p' : processor) (token_address : string) (row : trader_row)
    (a : string) (ts : list pyval) :
  NoDup (addresses ts) ->
  traders p' = <[(a, token_address) := row]> (traders p) ->
  forall sts i t st0,
    ts !! i = Some t -> address_str t = Some a ->
    sts !! i = Some st0 -> is_finished st0 = false ->
    passed_rows p' token_address ts (<[i := Finished]> sts)
    = (passed_rows p token_address ts sts
       + if String.eqb (evaluation_result row) "PASS" then 1 else 0)%nat.
Proof.
  intros Hnd Hp'. induction ts as [|t0 ts IH]; intros sts i t st0 Ht Ha Hi H0;
    [discriminate|].
  destruct sts as [|s sts]; [discriminate|].
  rewrite addresses_cons in Hnd.
  assert (Hother : forall b, b <> a ->
            traders p' !! (b, token_address) = traders p !! (b, token_address)).
  { intros b Hb. rewrite Hp'. apply lookup_insert_ne. congruence. }
  destruct i as [|i]; cbn in Ht, Hi.
  - injection Ht as ->. injection Hi as ->. rewrite Ha in Hnd.
    apply NoDup_cons in Hnd as [Hnotin _].
    cbn [insert list_insert passed_rows is_finished andb]. rewrite Ha, H0. cbn [andb].
    rewrite (passed_rows_same p p' token_address ts sts).
    2:{ intros t' b Hin Hb. apply Hother. intros ->. apply Hnotin.
        apply list_elem_of_In. apply (in_addresses t' a ts); [|exact Hb].
        apply list_elem_of_In. exact Hin. }
    unfold has_pass_row. rewrite Hp', lookup_insert_eq.
    destruct (String.eqb (evaluation_result row) "PASS"); lia.
  - change (<[S i := Finished]> (s :: sts)) with (s :: <[i := Finished]> sts).
    cbn [passed_rows].
    assert (Hin : In a (addresses ts)).
    { apply (in_addresses t a ts); [|exact Ha].
      apply list_elem_of_lookup. exists i. exact Ht. }
    assert (Hnd' : NoDup (addresses ts)).
    { destruct (address_str t0); [apply NoDup_cons in Hnd; tauto | exact Hnd]. }
    rewrite (IH Hnd' sts i t st0 Ht Ha Hi H0).
    destruct (address_str t0) as [b|] eqn:Hb.
    + rewrite (has_pass_row_same p p' token_address b); [lia|].
      apply Hother. intros ->. apply NoDup_cons in Hnd as [Hnotin _].
      apply Hnotin. apply list_elem_of_In. exact Hin.
    + lia.
Qed.

Lemma passed_rows_start (p : processor) (token_address : string) (ts : list pyval) :
  forall n, passed_rows p token_address ts (repeat Created n) = 0%nat.
Proof.
  induction ts as [|t ts IH]; intros [|n]; try reflexivity.
  cbn [repeat passed_rows is_finished andb]. apply IH.
Qed.

Lemma passed_rows_end (p : processor) (token_address : string) (ts : list pyval) :
  forall sts,
    Forall (fun t => is_Some (address_str t)) ts ->
    List.length sts = List.length ts ->
    forallb is_finished sts = true ->
    passed_rows p token_address ts sts
    = List.length (List.filter (has_pass_row p token_address) (addresses ts)).
Proof.
  induction ts as [|t ts IH]; intros sts Hall Hlen Hfin.
  - destruct sts; reflexivity.
  - destruct sts as [|st sts]; [discriminate|].
    apply Forall_cons in Hall as [[a Ha] Hall].
    cbn [forallb] in Hfin. apply andb_true_iff in Hfin as [Hst Hfin].
    cbn [passed_rows]. rewrite addresses_cons, Ha, Hst. cbn [andb List.filter].
    rewrite (IH sts Hall) by (cbn in Hlen; lia || exact Hfin).
    destruct (has_pass_row p token_address a); reflexivity.
Qed.

Section OneToken.

Variables token_address token_name token_symbol : string.
Variable traders_data : list pyval.
Variable evaluate : pyval -> outcome (string * dict).

Hypothesis evaluate_no_stop :
  forall a e, evaluate (PStr a) = Raise e -> stop_text (exn_msg e) = false.

Lemma save_evaluated_passed (d : dict) (a reason : string) (gmgn_stats : dict)
    (r : token_run) :
  let res := save_evaluated token_address token_name token_symbol
               (PDict d) (PStr a) reason gmgn_stats r in
  (fst res = Ret tt ->
   exists row,
     traders (self (snd res)) = <[(a, token_address) := row]> (traders (self r)) /\
     evaluation_result row = reason /\
     passed_traders (snd res)
     = (passed_traders r + if String.eqb reason "PASS" then 1 else 0)%nat) /\
  (forall e, fst res = Raise e -> passed_traders (snd res) = passed_traders r).
Proof.
  cbn zeta. unfold save_evaluated. cbn [wallet_str py_get obind].
  destruct (py_sub _ _) as [profit|e|]; cbn [obind fst snd];
    try (split; [discriminate|intros; reflexivity]).
  destruct (py_gt0 _) as [positive|e|]; cbn [obind fst snd];
    try (split; [discriminate|intros; reflexivity]).
  assert (Hsave : forall ratio,
    let res :=
      match save_trader_data a token_address token_name token_symbol reason
              (dict_update gmgn_stats
                 [("total_bought_usd", dict_get d "totalBoughtUSD" (PFloat 0));
                  ("total_sold_usd", dict_get d "totalSoldUSD" (PFloat 0));
                  ("realized_profit_usd", profit); ("realized_profit_ratio", ratio);
                  ("currently_holding_amount",
                   dict_get d "currentlyHoldingAmount" (PFloat 0));
                  ("total_buy_transactions",
                   dict_get d "totalBuyTransactions" (PInt 0));
                  ("total_sell_transactions",
                   dict_get d "totalSellTransactions" (PInt 0))]) (self r) with
      | (Ret _, p) =>
          (Ret tt, if String.eqb reason "PASS" then add_passed (put_self p r)
                   else put_self p r)
      | (Raise e, p) => (Raise e, put_self p r)
      | (Spin, p) => (Spin, put_self p r)
      end in
    (fst res = Ret tt ->
     exists row,
       traders (self (snd res)) = <[(a, token_address) := row]> (traders (self r)) /\
       evaluation_result row = reason /\
       passed_traders (snd res)
       = (passed_traders r + if String.eqb reason "PASS" then 1 else 0)%nat) /\
    (forall e, fst res = Raise e -> passed_traders (snd res) = passed_traders r)).
  { intros ratio. unfold save_trader_data.
    destruct (bound_params _) as [e|]; cbn [fst snd].
    - split; [discriminate|intros; reflexivity].
    - split; [|destruct (String.eqb reason "PASS"); discriminate].
      intros _. eexists. destruct (String.eqb reason "PASS");
        cbn [snd self add_passed put_self with_self put_row traders passed_traders];
        (split; [reflexivity|]); (split; [reflexivity|lia]). }
  destruct positive.
  - destruct (py_div _ _) as [q|e|]; cbn [obind fst snd];
      try (split; [discriminate|intros; reflexivity]).
    destruct q; apply Hsave.
  - cbn [obind]. apply Hsave.
Qed.

(** The end of a task whose evaluation is over: the row and the count. *)
Lemma resume_passed (i : nat) (d : dict) (a : string) (r : token_run) :
  stop_processing (self r) = false ->
  let r' := resume token_address token_name token_symbol traders_data evaluate
              i (PDict d) (PStr a) r in
  r' = r \/
  exists r1 row,
    r' = set_status i Finished r1 /\ status r1 = status r /\
    traders (self r1) = <[(a, token_address) := row]> (traders (self r)) /\
    passed_traders r1
    = (passed_traders r
       + if String.eqb (evaluation_result row) "PASS" then 1 else 0)%nat.
Proof.
  intros Hflag. cbn zeta. unfold resume.
  assert (Herr : forall e r2,
            stop_text (exn_msg e) = false ->
            status r2 = status r -> traders (self r2) = traders (self r) ->
            passed_traders r2 = passed_traders r ->
            exists r1 row,
              (let '(o, r3) := on_error token_address token_name token_symbol
                                 (PStr a) e r2 in
               set_status i Finished (finish traders_data o (release r3)))
              = set_status i Finished r1 /\ status r1 = status r /\
              traders (self r1) = <[(a, token_address) := row]> (traders (self r)) /\
              passed_traders r1
              = (passed_traders r
                 + if String.eqb (evaluation_result row) "PASS" then 1 else 0)%nat).
  { intros e r2 He Hs Ht Hp.
    rewrite (on_error_saves token_address token_name token_symbol a e r2 He).
    eexists (finish traders_data (Ret tt) (release _)),
            (error_row token_name token_symbol).
    match goal with |- context [finish _ _ (release ?x)] =>
      destruct (finish_ret traders_data (release x)) as (F1 & _ & _ & F4 & _ & F6) end.
    split; [reflexivity|]. split; [rewrite F1; exact Hs|].
    split; [rewrite F4; cbn; rewrite Ht; reflexivity|].
    rewrite F6. cbn. rewrite Hp. lia. }
  destruct (evaluate (PStr a)) as [[reason gs]|e|] eqn:Hev.
  - right.
    pose proof (save_evaluated_cases token_address token_name token_symbol
                  d a reason gs r) as Hc.
    pose proof (save_evaluated_passed d a reason gs r) as [Hret Hraise].
    destruct (save_evaluated _ _ _ _ _ _ _ r) as [o r2].
    cbn [fst snd] in *. destruct Hc as (Hst & _ & _ & _ & Hc).
    destruct Hc as [[-> _] | (e & -> & He & Htr)].
    + destruct (Hret eq_refl) as (row & Hrow & Hres & Hpassed).
      exists (finish traders_data (Ret tt) (release r2)), row.
      destruct (finish_ret traders_data (release r2)) as (F1 & _ & _ & F4 & _ & F6).
      split; [reflexivity|]. split; [rewrite F1; exact Hst|].
      split; [rewrite F4; exact Hrow|].
      rewrite F6, Hres. exact Hpassed.
    + apply Herr; auto. exact (Hraise e eq_refl).
  - right. apply Herr; auto. exact (evaluate_no_stop a e Hev).
  - left. reflexivity.
Qed.

Lemma step_task_passed (i : nat) (t : pyval) (a : string) (st0 : task_status)
    (r : token_run) :
  stop_processing (self r) = false ->
  traders_data !! i = Some t -> address_str t = Some a ->
  status r !! i = Some st0 ->
  let r' := step_task token_address token_name token_symbol traders_data evaluate i r in
  r' = r \/
  (exists st r1,
     is_finished st0 = false /\ is_finished st = false /\
     r' = set_status i st r1 /\ status r1 = status r /\
     traders (self r1) = traders (self r) /\ passed_traders r1 = passed_traders r) \/
  (exists r1 row,
     is_finished st0 = false /\
     r' = set_status i Finished r1 /\ status r1 = status r /\
     traders (self r1) = <[(a, token_address) := row]> (traders (self r)) /\
     passed_traders r1
     = (passed_traders r
        + if String.eqb (evaluation_result row) "PASS" then 1 else 0)%nat).
Proof.
  intros Hflag Ht Ha Hi. destruct (wallet_of_address t a Ha) as (d & -> & Hw).
  cbn zeta. unfold step_task. rewrite Ht, Hi, Hw.
  assert (Hacq : is_finished st0 = false ->
    acquire token_address traders_data i (PStr a) r = r \/
    (exists st r1,
       is_finished st0 = false /\ is_finished st = false /\
       acquire token_address traders_data i (PStr a) r = set_status i st r1 /\
       status r1 = status r /\
       traders (self r1) = traders (self r) /\ passed_traders r1 = passed_traders r) \/
    (exists r1 row,
       is_finished st0 = false /\
       acquire token_address traders_data i (PStr a) r = set_status i Finished r1 /\
       status r1 = status r /\
       traders (self r1) = <[(a, token_address) := row]> (traders (self r)) /\
       passed_traders r1
       = (passed_traders r
          + if String.eqb (evaluation_result row) "PASS" then 1 else 0)%nat)).
  { intros H0. right. left. unfold acquire. destruct (sem r) as [|n].
    - exists Waiting, r. repeat split; auto.
    - cbn [set_sem self]. rewrite Hflag.
      eexists Evaluating, _. repeat split; auto. }
  destruct st0.
  - rewrite Hflag. apply Hacq. reflexivity.
  - apply Hacq. reflexivity.
  - destruct (resume_passed i d a r Hflag) as [->|(r1 & row & -> & H)];
      [left; reflexivity|].
    right. right. exists r1, row. split; [reflexivity|]. split; [reflexivity|exact H].
  - left. reflexivity.
Qed.

Hypothesis traders_addressed : Forall (fun t => is_Some (address_str t)) traders_data.
Hypothesis traders_distinct : NoDup (addresses traders_data).

Lemma step_task_passed_rows (i : nat) (r : token_run) :
  stop_processing (self r) = false ->
  passed_traders r = passed_rows (self r) token_address traders_data (status r) ->
  let r' := step_task token_address token_name token_symbol traders_data evaluate i r in
  passed_traders r' = passed_rows (self r') token_address traders_data (status r').
Proof.
  intros Hflag Hinv. cbn zeta.
  destruct (traders_data !! i) as [t|] eqn:Ht.
  2:{ unfold step_task. rewrite Ht. exact Hinv. }
  destruct (status r !! i) as [st0|] eqn:Hi.
  2:{ unfold step_task. rewrite Ht, Hi. exact Hinv. }
  assert (Hsome : is_Some (address_str t)).
  { rewrite Forall_forall in traders_addressed. apply traders_addressed.
    apply list_elem_of_lookup. exists i. exact Ht. }
  destruct Hsome as [a Ha].
  destruct (step_task_passed i t a st0 r Hflag Ht Ha Hi)
    as [-> | [(st & r1 & H0 & Hst & -> & Hs1 & Ht1 & Hp1)
              | (r1 & row & H0 & -> & Hs1 & Ht1 & Hp1)]].
  - exact Hinv.
  - cbn [set_status passed_traders self status]. rewrite Hp1, Hs1, Hinv.
    rewrite (passed_rows_unfinished _ _ _ _ i st0 st Hi H0 Hst).
    symmetry. apply passed_rows_same. intros t' b _ _. rewrite Ht1. reflexivity.
  - cbn [set_status passed_traders self status]. rewrite Hp1, Hs1, Hinv.
    symmetry.
    exact (passed_rows_finished (self r) (self r1) token_address row a traders_data
             traders_distinct Ht1 (status r) i t st0 Ht Ha Hi H0).
Qed.

Lemma gather_passed_rows (schedule : list nat) :
  forall r,
    rows_written token_address token_name token_symbol traders_data evaluate r ->
    passed_traders r = passed_rows (self r) token_address traders_data (status r) ->
    let r' := gather token_address token_name token_symbol traders_data evaluate
                schedule r in
    passed_traders r' = passed_rows (self r') token_address traders_data (status r').
Proof.
  induction schedule as [|i schedule IH]; intros r Hrows Hinv; [exact Hinv|].
  cbn zeta. cbn [gather fold_left]. apply IH.
  - apply step_task_rows_written; assumption.
  - apply step_task_passed_rows; [exact (proj1 Hrows)|exact Hinv].
Qed.

End OneToken.

End PassedFacts.

Section PassedClaims.
Import Processor Scenario.

Lemma addresses_length (ts : list pyval) :
  Forall (fun t => is_Some (address_str t)) ts ->
  List.length (addresses ts) = List.length ts.
Proof.
  induction 1 as [|t ts [a Ha] _ IH]; [reflexivity|].
  rewrite addresses_cons, Ha. cbn [List.length]. rewrite IH. reflexivity.
Qed.

(** X26: the passed count of a target is the number of its wallets
    whose row says PASS.  When the stop flag is down and no evaluation
    raises an exception whose text asks to stop, a target that is
    processed to its end, under any schedule, reports and checkpoints as
    [passed_traders] exactly the number of distinct wallets of its list
    whose row in the store has the reason PASS, and as total the number
    of distinct wallets. *)
Theorem passed_count_matches_rows (token_address token_name token_symbol : string)
    (post : outcome pyval) (evaluate : pyval -> outcome (string * dict))
    (schedule : list nat) (p : processor) (fetched : list pyval) :
  token_symbol_of token_name = Ret token_symbol ->
  stop_processing p = false ->
  Bullx.fetch_top500_traders post = Ret fetched ->
  Forall str_addressed fetched ->
  (forall a e, evaluate (PStr a) = Raise e -> stop_text (exn_msg e) = false) ->
  let run := process_single_token token_address token_name post evaluate schedule p in
  forall res,
    fst run = Ret res ->
    exists wallets,
      NoDup wallets /\
      (forall a, In a wallets <-> In a (addresses fetched)) /\
      res_total_traders res = List.length wallets /\
      res_passed_traders res
      = List.length (List.filter (has_pass_row (snd run) token_address) wallets) /\
      processed_tokens (snd run) !! token_address
      = Some {| ck_token_name := token_name; ck_token_symbol := token_symbol;
                ck_total_holders := res_total_traders res;
                ck_passed_traders := res_passed_traders res |}.
Proof.
  intros Hsym Hflag Hfetch Hstr Heval run res. unfold run. clear run.
  destruct (unique_loop_spec fetched Hstr [] [])
    as (kept & Hr & (Hsub & Hsome & Hnd & Hin & Hfirst)).
  assert (Hsame : forall a, In a (addresses kept) <-> In a (addresses fetched)).
  { intros a. rewrite Hin. cbn [In]. tauto. }
  rewrite (process_single_token_steps token_address token_name token_symbol post
             evaluate schedule p fetched kept Hsym Hflag Hfetch Hr).
  exists (addresses kept). refine (conj Hnd (conj Hsame _)).
  destruct kept as [|t kept].
  { cbn [fst snd] in *. injection H as <-. cbn.
    refine (conj eq_refl (conj eq_refl _)). apply lookup_insert_eq. }
  set (ts := t :: kept) in *.
  match goal with _ : context [gather _ _ _ _ _ _ ?r0] |- _ => set (start := r0) in * end.
  assert (Hrows0 : rows_written token_address token_name token_symbol ts evaluate start).
  { apply rows_written_start. exact Hflag. }
  assert (Hinv : rows_written token_address token_name token_symbol ts evaluate
                   (gather token_address token_name token_symbol ts evaluate
                      schedule start)).
  { apply gather_rows_written; assumption. }
  assert (Hpassed :
            let r := gather token_address token_name token_symbol ts evaluate
                       schedule start in
            passed_traders r = passed_rows (self r) token_address ts (status r)).
  { apply gather_passed_rows; try assumption.
    unfold start. cbn [passed_traders self status]. symmetry. apply passed_rows_start. }
  cbv zeta in *.
  destruct (all_finished _) eqn:Hall; [|discriminate H].
  rewrite mark_token_processed_stop in *. destruct Hinv as (Hdown & Hlen & _).
  rewrite Hdown in *. cbn [fst snd] in *. injection H as <-.
  cbn [res_total_traders res_passed_traders].
  rewrite (addresses_length ts Hsome).
  refine (conj eq_refl (conj _ _)).
  - rewrite Hpassed. rewrite (passed_rows_end _ _ ts _ Hsome Hlen Hall). reflexivity.
  - cbn [mark_token_processed processed_tokens]. apply lookup_insert_eq.
Qed.

End PassedClaims.

Section PassedWitness.
Import Processor Scenario.

(** The target of the wallets A, whose summary is broken, and B. *)
Lemma passed_count_matches_rows_witness :
  let run := process_single_token "T1" "Token One (T1)"
               (Ret (bullx_body [trader "A" 10 25; trader "B" 5 0; trader "A" 7 7]))
               demo_eval [0; 1; 0; 1]%nat (fresh 2) in
  exists wallets,
    NoDup wallets /\
    (forall a, In a wallets <->
               In a (addresses [trader "A" 10 25; trader "B" 5 0; trader "A" 7 7])) /\
    2%nat = List.length wallets /\
    1%nat = List.length (List.filter (has_pass_row (snd run) "T1") wallets) /\
    processed_tokens (snd run) !! "T1"
    = Some {| ck_token_name := "Token One (T1)"; ck_token_symbol := "T1";
              ck_total_holders := 2; ck_passed_traders := 1 |}.
Proof.
  refine (passed_count_matches_rows "T1" "Token One (T1)" "T1"
            (Ret (bullx_body [trader "A" 10 25; trader "B" 5 0; trader "A" 7 7]))
            demo_eval [0; 1; 0; 1]%nat (fresh 2)
            [trader "A" 10 25; trader "B" 5 0; trader "A" 7 7] _ _ _ _ _
            {| res_token_address := "T1"; res_token_name := "Token One (T1)";
               res_total_traders := 2; res_passed_traders := 1 |} _).
  - reflexivity.
  - reflexivity.
  - reflexivity.
  - repeat constructor; apply str_addressed_trader.
  - apply demo_eval_no_stop.
  - vm_compute. reflexivity.
Defined.

End PassedWitness.

(** ** More on the tokens file *)

Section TokensFileEdges.
Import Processor TokenManager WebApp Scenario.

Variable str_of : pyval -> string.
Variable sql_text : pyval -> string.

Lemma readlines_unterminated (pre last : string) :
  ends_lines pre -> no_char is_newline last = true -> last <> "" ->
  readlines (pre ++ last) = (readlines pre ++ [last])%list.
Proof.
  intros Hends Hplain Hne. unfold readlines.
  assert (Hlast : read_lines false "" last = [last]).
  { rewrite (read_lines_plain last "" Hplain), append_nil_l.
    destruct (String.eqb_spec last ""); [congruence|reflexivity]. }
  destruct Hends as [->|[c ->]].
  - rewrite append_nil_l, Hlast. reflexivity.
  - rewrite append_assoc, read_lines_app by discriminate. rewrite Hlast. reflexivity.
Qed.

(** X27: [add_token] on a file whose last line is not ended.  The
    record is written onto that line: the file has as many lines as
    before, and its last line is the old last line followed by the new
    record. *)
Theorem add_token_joins_unterminated_line (addr name : string) (resp : option pyval)
    (pre last : string) :
  ends_lines pre -> last <> "" -> no_char is_newline last = true ->
  clean_field addr -> clean_field name ->
  readlines (pre ++ last) = (readlines pre ++ [last])%list /\
  option_map readlines (add_token str_of addr (Some name) resp (Some (pre ++ last)))
  = Some (readlines pre ++ [(last ++ addr ++ "," ++ name ++ newline)%string])%list.
Proof.
  intros Hends Hne Hplain Ha Hn.
  split; [exact (readlines_unterminated pre last Hends Hplain Hne)|].
  unfold add_token.
  assert (Hnn : String.eqb name "" = false).
  { destruct Hn as (Hnn & _). destruct name; [congruence|reflexivity]. }
  rewrite Hnn. cbn [py_format option_map].
  change (default "" (Some (pre ++ last))) with (pre ++ last). f_equal.
  replace ((pre ++ last) ++ addr ++ "," ++ name ++ newline)
    with (pre ++ (last ++ addr ++ "," ++ name) ++ newline)
    by (rewrite !append_assoc; reflexivity).
  rewrite (readlines_append_line pre _ Hends).
  - rewrite !append_assoc. reflexivity.
  - rewrite no_char_app, Hplain. exact (clean_line_is_plain addr name Ha Hn).
Qed.

Lemma append_length (a s : string) :
  String.length (a ++ s) = (String.length a + String.length s)%nat.
Proof.
  induction a as [|c a IH]; [reflexivity|]. rewrite append_cons. cbn [String.length].
  rewrite IH. reflexivity.
Qed.

Lemma prefixb_app_l (a s x : string) : prefixb (a ++ s) x = true -> prefixb a x = true.
Proof.
  revert x. induction a as [|c a IH]; intros x; [reflexivity|].
  rewrite append_cons. cbn [prefixb]. destruct x as [|y x]; [discriminate|].
  destruct (Ascii.eqb c y); [apply IH|discriminate].
Qed.

(** X28: [remove_token] matches lines by prefix.  A token whose address
    only starts with the removed address is dropped from tokens.txt as
    well, while its checkpoint and its rows stay in the store. *)
Theorem remove_token_unlists_longer_addresses (a s n line content : string)
    (p : processor) :
  a <> "" -> s <> "" ->
  In line (readlines content) ->
  parse_token_line line = Some (a ++ s, n) ->
  let out := remove_token sql_text (PStr a) p (Some content) in
  let p' := snd (fst out) in
  (forall content', snd out = Some content' -> ~ In line (readlines content')) /\
  processed_tokens p' !! (a ++ s) = processed_tokens p !! (a ++ s) /\
  (forall w, traders p' !! (w, a ++ s) = traders p !! (w, a ++ s)).
Proof.
  intros Ha Hs Hin Hparse. cbn zeta.
  destruct (remove_token_removes sql_text a p (Some content) Ha)
    as (_ & _ & _ & Hkeep & _).
  assert (Hne : a ++ s <> a).
  { intros E. apply (f_equal String.length) in E. rewrite append_length in E.
    destruct s; [congruence|]. cbn in E. lia. }
  destruct (Hkeep (a ++ s) Hne) as [Hck Hrows].
  refine (conj _ (conj Hck Hrows)).
  unfold remove_token.
  assert (Ht : truthy (PStr a) = true).
  { cbn [truthy]. destruct (String.eqb_spec a ""); [congruence|reflexivity]. }
  rewrite Ht. cbn [negb bind_error snd option_map]. intros content' [= <-].
  rewrite readlines_concat.
  2:{ apply file_lines_filter. apply read_lines_file_lines. reflexivity. }
  unfold filtered_lines. rewrite filter_In. intros [_ Hkept].
  rewrite (prefixb_app_l a s _ (parsed_address_is_prefix _ _ _ Hparse)) in Hkept.
  discriminate.
Qed.

End TokensFileEdges.

Section TokensFileEdgesWitnesses.
Import Processor TokenManager WebApp Scenario.

(** T2 is added to a file whose only line, of T1, is not ended. *)
Lemma add_token_joins_unterminated_line_witness :
  readlines ("" ++ "T1,Token One (T1)") = ([] ++ ["T1,Token One (T1)"])%list /\
  option_map readlines
    (add_token (fun _ => "") "T2" (Some "Token Two (T2)") None
       (Some ("" ++ "T1,Token One (T1)")))
  = Some ([] ++ [("T1,Token One (T1)" ++ "T2" ++ "," ++ "Token Two (T2)"
                   ++ newline)%string])%list.
Proof.
  apply (add_token_joins_unterminated_line (fun _ => "") "T2" "Token Two (T2)" None
           "" "T1,Token One (T1)").
  - left. reflexivity.
  - discriminate.
  - reflexivity.
  - unfold clean_field. repeat split; discriminate || reflexivity.
  - unfold clean_field. repeat split; discriminate || reflexivity.
Defined.

(** T1 is removed while T10 is listed and checkpointed. *)
Lemma remove_token_unlists_longer_addresses_witness :
  let content := "T1,Token One (T1)" ++ newline ++ "T10,Token Ten (T10)" ++ newline in
  let p := mark_token_processed "T10" "Token Ten (T10)" "T10" 3 1 (fresh 2) in
  let out := remove_token (fun _ => "") (PStr "T1") p (Some content) in
  let p' := snd (fst out) in
  (forall content', snd out = Some content' ->
                    ~ In ("T10,Token Ten (T10)" ++ newline) (readlines content')) /\
  processed_tokens p' !! ("T1" ++ "0") = processed_tokens p !! ("T1" ++ "0") /\
  (forall w, traders p' !! (w, "T1" ++ "0") = traders p !! (w, "T1" ++ "0")).
Proof.
  apply (remove_token_unlists_longer_addresses (fun _ => "") "T1" "0" "Token Ten (T10)"
           ("T10,Token Ten (T10)" ++ newline)
           ("T1,Token One (T1)" ++ newline ++ "T10,Token Ten (T10)" ++ newline)
           (mark_token_processed "T10" "Token Ten (T10)" "T10" 3 1 (fresh 2))).
  - discriminate.
  - discriminate.
  - right. left. reflexivity.
  - reflexivity.
Defined.

End TokensFileEdgesWitnesses.

(** ** The results of a run *)

Section ResultFacts.
Import Processor Scenario.

Lemma process_single_token_result (token_address token_name : string)
    (post : outcome pyval) (evaluate : pyval -> outcome (string * dict))
    (schedule : list nat) (p : processor) (res : result) :
  fst (process_single_token token_address token_name post evaluate schedule p) = Ret res ->
  result_key res = (token_address, token_name).
Proof.
  unfold process_single_token.
  destruct (token_symbol_of token_name) as [sym|e|]; try discriminate.
  destruct (fetch_traders_data _ _) as [[[|t ts]|e|] p2]; try discriminate.
  - intros [= <-]. reflexivity.
  - destruct (all_finished _); [|discriminate].
    cbv zeta. destruct (stop_processing _); [discriminate|].
    intros [= <-]. reflexivity.
Qed.

Lemma token_loop_results (env : environment) (todo : list (string * string)) :
  forall results p rs,
    fst (token_loop env todo results p) = Ret rs ->
    exists new, rs = (results ++ new)%list /\ sublist (map result_key new) todo.
Proof.
  induction todo as [|[addr name] rest IH]; intros results p rs; cbn [token_loop].
  { intros [= <-]. exists []. rewrite app_nil_r. split; [reflexivity|constructor]. }
  assert (Hnone : Ret results = Ret rs ->
            exists new, rs = (results ++ new)%list /\
                        sublist (map result_key new) ((addr, name) :: rest)).
  { intros [= <-]. exists []. rewrite app_nil_r. split; [reflexivity|].
    apply sublist_nil_l. }
  destruct (stop_processing p); [exact Hnone|].
  pose proof (process_single_token_result addr name (bullx_post env addr)
                (evaluate_of env addr) (schedule_of env addr) p) as Hkey.
  destruct (process_single_token _ _ _ _ _ p) as [[res|e|] p']; cbn [fst] in Hkey.
  - intros H. destruct (IH _ _ _ H) as (new & -> & Hsub).
    exists (res :: new). rewrite <- app_assoc. split; [reflexivity|].
    cbn [map]. rewrite (Hkey res eq_refl). apply sublist_skip. exact Hsub.
  - destruct (throttle_text (exn_msg e)); [exact Hnone|].
    intros H. destruct (IH _ _ _ H) as (new & -> & Hsub).
    exists new. split; [reflexivity|]. apply sublist_cons. exact Hsub.
  - discriminate.
Qed.

Lemma unprocessed_tokens_sublist (tokens : list (string * string)) (p : processor) :
  sublist (unprocessed_tokens tokens p) tokens.
Proof.
  unfold unprocessed_tokens. induction tokens as [|t tokens IH]; [constructor|].
  cbn [List.filter]. destruct (bool_decide _).
  - apply sublist_skip. exact IH.
  - apply sublist_cons. exact IH.
Qed.

(** X29: the results of a run follow the tokens file.  The targets of
    the results that [process_all_tokens] hands to the summary are, in
    order, targets of tokens.txt taken in file order, each reported once
    per line that lists it, and none of them was checkpointed when the
    run started. *)
Theorem results_follow_the_file (env : environment) (p : processor)
    (results : list result) :
  fst (process_all_tokens env p) = Ret results ->
  sublist (map result_key results) (load_tokens (tokens_file env)) /\
  Forall (fun res => processed_tokens p !! res_token_address res = None) results.
Proof.
  unfold process_all_tokens. intros H.
  assert (Hsub : sublist (map result_key results)
                   (unprocessed_tokens (load_tokens (tokens_file env)) p)).
  { destruct (unprocessed_tokens _ p) as [|t todo] eqn:Hun.
    - injection H as <-. constructor.
    - destruct (token_loop_results env _ _ _ _ H) as (new & -> & Hsub). exact Hsub. }
  split.
  - etransitivity; [exact Hsub|apply unprocessed_tokens_sublist].
  - apply Forall_forall. intros res Hres.
    assert (Hin : result_key res ∈ unprocessed_tokens (load_tokens (tokens_file env)) p).
    { eapply elem_of_sublist; [|exact Hsub]. apply list_elem_of_fmap. exists res.
      split; [reflexivity|exact Hres]. }
    apply list_elem_of_In, unprocessed_tokens_spec in Hin. exact (proj2 Hin).
Qed.

End ResultFacts.

Section ResultWitness.
Import Processor Scenario.

(** A run over the two targets when T2 is checkpointed. *)
Lemma results_follow_the_file_witness :
  let p := mark_token_processed "T2" "Token Two (T2)" "T2" 3 1 (fresh 2) in
  let env := {| tokens_file := two_tokens;
                bullx_post := fun _ => Ret (bullx_body [trader "A" 10 25]);
                evaluate_of := fun _ => demo_eval;
                schedule_of := fun _ => [0; 0]%nat |} in
  let results := [{| res_token_address := "T1"; res_token_name := "Token One (T1)";
                     res_total_traders := 1; res_passed_traders := 0 |}] in
  sublist (map result_key results) (load_tokens (tokens_file env)) /\
  Forall (fun res => processed_tokens p !! res_token_address res = None) results.
Proof.
  apply (results_follow_the_file
           {| tokens_file := two_tokens;
              bullx_post := fun _ => Ret (bullx_body [trader "A" 10 25]);
              evaluate_of := fun _ => demo_eval;
              schedule_of := fun _ => [0; 0]%nat |}
           (mark_token_processed "T2" "Token Two (T2)" "T2" 3 1 (fresh 2))).
  vm_compute. reflexivity.
Defined.

End ResultWitness.
